(** * Job processing pipeline of the multimodal agent: model and properties

    A shallow embedding of the Python sources of the job pipeline:
    - [app/agents/graph.py]                 the workflow router,
    - [app/agents/tools/codegen_tool.py]    code extraction and the
                                            code-generation stage,
    - [app/workers/tasks.py]                the job lifecycle manager,
    - [app/core/rate_limiter.py]            the sliding-window rate limiter,
    - [app/api/v1/jobs.py]                  the TTL policy of job snapshots,
    - [app/adapters/llm_adapter.py]         the inference adapters.

    Python text is modelled as [string]; a character is a code point below
    256.  A value of type [str | None] is an [option string].  Truthiness
    ([if x:]) is written out with [truthy].  External collaborators (the
    relational store, object storage, the HTTP client, the Redis server, the
    Python compiler) appear as explicit outcomes handed to the functions. *)

From Stdlib Require Import ZArith String Ascii List Lia Bool Sorted.
From stdpp Require Import base option list strings gmap pretty.

Import ListNotations.
Local Open Scope string_scope.

(** ** Python preliminaries *)

(** [bool(x)] for [x : str | None]. *)
Definition truthy (x : option string) : bool :=
  match x with
  | Some (String _ _) => true
  | _ => false
  end.

(** [x or d] for [x : str | None] and a string default. *)
Definition or_default (x : option string) (d : string) : string :=
  if truthy x then default d x else d.

(** A raised exception: its class name and [str(e)]. *)
Record exn := Exn { exn_class : string; exn_str : string }.

(** The outcome of a call that may raise. *)
Inductive outcome (A : Type) :=
| Returns (a : A)
| Raises (e : exn).
Arguments Returns {A} a.
Arguments Raises {A} e.

(** ** app/agents/state.py, app/agents/graph.py *)

Module graph.

(** A chat message; [content = None] stands for an object without a
    [content] attribute. *)
Record message := Message { content : option string }.

(** Modelled from the spec: the declaration of [AgentState]
    (app/agents/state.py) is not among the sources.  Its fields are those
    of the WorkflowState of the specification, under the keys that
    [run_agent] gives the initial state.  A field holding [None] stands for
    the key being absent or bound to [None]: every read in the sources is a
    [.get] whose result is only tested for truthiness or compared with a
    string literal, so both behave alike. *)
Record AgentState := mkAgentState {
  messages : list message;
  job_id : option string;
  user_id : option string;
  image_path : option string;
  image_data : option string;
  image_mime_type : option string;
  image_analysis : option string;
  reasoning : option string;
  generated_code : option string;
  execution_result : option string;
  error : option string;
  current_step : option string
}.

(** [langgraph.graph.END]. *)
Definition END : string := "__end__".

(** [current_step == lit]. *)
Definition step_is (st : AgentState) (lit : string) : bool :=
  match current_step st with
  | Some s => String.eqb s lit
  | None => false
  end.

(** [should_continue(state)]. *)
Definition should_continue (st : AgentState) : string :=
  if truthy (error st) && step_is st "error" then END
  else if step_is st "analyze_complete" then "plan_approach"
  else if step_is st "planning_complete" then "generate_code"
  else if step_is st "codegen_complete" || step_is st "codegen_complete_with_errors"
       then END
  else END.

(** A value is set when it is not [None]. *)
Definition is_set (x : option string) : bool :=
  match x with Some _ => true | None => false end.

(** Dispatch by [current_step]; a step that is not listed, or unset, has
    nothing left to do. *)
Definition dispatch : list (string * string) :=
  [("analyze_complete", "plan_approach");
   ("planning_complete", "generate_code");
   ("codegen_complete", END);
   ("codegen_complete_with_errors", END)].

(** The router as the specification words it: when [error] is set and the
    step is ["error"], terminate; else dispatch by the step. *)
Definition should_continue_reference (st : AgentState) : string :=
  match error st, current_step st with
  | Some _, Some step =>
      if String.eqb step "error" then END
      else default END (snd <$> List.find (fun row => String.eqb (fst row) step) dispatch)
  | _, Some step =>
      default END (snd <$> List.find (fun row => String.eqb (fst row) step) dispatch)
  | _, None => END
  end.

(** A stage returns a dict of the keys it updates; the graph merges it into
    the state, key by key. *)
Definition update := list (string * option string).

Definition dict_get (k : string) (u : update) : option (option string) :=
  snd <$> List.find (fun kv => String.eqb (fst kv) k) u.

Definition set_key (st : AgentState) (kv : string * option string) : AgentState :=
  let (k, v) := kv in
  if String.eqb k "image_analysis" then
    mkAgentState (messages st) (job_id st) (user_id st) (image_path st)
      (image_data st) (image_mime_type st) v (reasoning st)
      (generated_code st) (execution_result st) (error st) (current_step st)
  else if String.eqb k "reasoning" then
    mkAgentState (messages st) (job_id st) (user_id st) (image_path st)
      (image_data st) (image_mime_type st) (image_analysis st) v
      (generated_code st) (execution_result st) (error st) (current_step st)
  else if String.eqb k "generated_code" then
    mkAgentState (messages st) (job_id st) (user_id st) (image_path st)
      (image_data st) (image_mime_type st) (image_analysis st) (reasoning st)
      v (execution_result st) (error st) (current_step st)
  else if String.eqb k "error" then
    mkAgentState (messages st) (job_id st) (user_id st) (image_path st)
      (image_data st) (image_mime_type st) (image_analysis st) (reasoning st)
      (generated_code st) (execution_result st) v (current_step st)
  else if String.eqb k "current_step" then
    mkAgentState (messages st) (job_id st) (user_id st) (image_path st)
      (image_data st) (image_mime_type st) (image_analysis st) (reasoning st)
      (generated_code st) (execution_result st) (error st) v
  else st.

Definition merge (st : AgentState) (u : update) : AgentState :=
  fold_left set_key u st.

End graph.

(** ** app/models/job.py, app/api/v1/jobs.py *)

Module jobs.

Inductive JobStatus :=
| PENDING | PROCESSING | VALIDATING | EXECUTING | COMPLETED | FAILED.

#[export] Instance JobStatus_eq_dec : EqDecision JobStatus.
Proof. solve_decision. Defined.

(** The TTL, in seconds, that [get_job] passes to [cache_manager.set]. *)
Definition snapshot_ttl (status : JobStatus) : Z :=
  match status with
  | COMPLETED | FAILED => 3600
  | _ => 10
  end.

Definition is_terminal (status : JobStatus) : bool :=
  match status with
  | COMPLETED | FAILED => true
  | _ => false
  end.

End jobs.

(** ** The [re] and [str] operations used by codegen_tool.py *)

Module re.

(** [str.isspace] on one character, which is also the class [\s] of a
    [str] pattern: code points 9-13, 28-32, 133 and 160 below 256. *)
Definition isspace (c : ascii) : bool :=
  let n := N_of_ascii c in
  ((9 <=? n) && (n <=? 13) || (28 <=? n) && (n <=? 32)
   || (n =? 133) || (n =? 160))%N.

Fixpoint lstrip (s : string) : string :=
  match s with
  | String c s' => if isspace c then lstrip s' else s
  | EmptyString => EmptyString
  end.

Fixpoint rstrip (s : string) : string :=
  match s with
  | String c s' =>
      match rstrip s' with
      | EmptyString => if isspace c then EmptyString else String c EmptyString
      | r => String c r
      end
  | EmptyString => EmptyString
  end.

(** [s.strip()]. *)
Definition strip (s : string) : string := rstrip (lstrip s).

(** The fragment of regular expressions the two patterns are written in:
    an atom (a literal character, [.] or [\s]) taken once or starred
    (greedy [x*] or lazy [x*?]), and the parentheses of group 1. *)
Inductive atom :=
| Chr (c : ascii)
| Any
| Space.

Definition matches (a : atom) (c : ascii) : bool :=
  match a with
  | Chr d => Ascii.eqb d c
  | Any => true          (* [.] under re.DOTALL *)
  | Space => isspace c   (* [\s] *)
  end.

Inductive node :=
| One (a : atom)
| Star (greedy : bool) (a : atom)
| GroupOpen
| GroupClose.

Definition regex := list node.

(** The pattern that matches a text literally. *)
Fixpoint lits (s : string) : regex :=
  match s with
  | String c s' => One (Chr c) :: lits s'
  | EmptyString => []
  end.

(** Reading a pattern: its atoms and operators, then the quantifiers
    attached to the atom before them.  [None] stands for [re.error]. *)
Inductive token :=
| TAtom (a : atom)
| TStar
| TQuestion
| TOpen
| TClose.

Fixpoint tokens (s : string) : list token :=
  match s with
  | String "\" (String "s" s') => TAtom Space :: tokens s'
  | String "." s' => TAtom Any :: tokens s'
  | String "*" s' => TStar :: tokens s'
  | String "?" s' => TQuestion :: tokens s'
  | String "(" s' => TOpen :: tokens s'
  | String ")" s' => TClose :: tokens s'
  | String c s' => TAtom (Chr c) :: tokens s'
  | EmptyString => []
  end.

Fixpoint nodes (ts : list token) : option regex :=
  match ts with
  | [] => Some []
  | TAtom a :: TStar :: TQuestion :: ts' => cons (Star false a) <$> nodes ts'
  | TAtom a :: TStar :: ts' => cons (Star true a) <$> nodes ts'
  | TAtom a :: ts' => cons (One a) <$> nodes ts'
  | TOpen :: ts' => cons GroupOpen <$> nodes ts'
  | TClose :: ts' => cons GroupClose <$> nodes ts'
  | TStar :: _ | TQuestion :: _ => None
  end.

(** [re.compile(pattern, re.DOTALL)] on this fragment. *)
Definition compile (pattern : string) : option regex := nodes (tokens pattern).

(** Matcher state: whether group 1 is open, and the text it holds. *)
Record mstate := MState { recording : bool; grp : string }.

Definition push (c : ascii) (m : mstate) : mstate :=
  if recording m then MState true (grp m ++ String c EmptyString) else m.

(** A match: the text of group 1 and what follows the match. *)
Definition found := (string * string)%type.

Section Backtracking.
Variable ok : ascii -> bool.
Variable k : string -> mstate -> option found.

(** [x*]: take as many characters as possible, give back one at a time. *)
Fixpoint greedy_star (s : string) (m : mstate) : option found :=
  match s with
  | String c s' =>
      if ok c then
        match greedy_star s' (push c m) with
        | Some r => Some r
        | None => k s m
        end
      else k s m
  | EmptyString => k s m
  end.

(** [x*?]: take as few characters as possible, add one at a time. *)
Fixpoint lazy_star (s : string) (m : mstate) : option found :=
  match k s m with
  | Some r => Some r
  | None =>
      match s with
      | String c s' => if ok c then lazy_star s' (push c m) else None
      | EmptyString => None
      end
  end.

End Backtracking.

(** Match the pattern at the start of the subject. *)
Fixpoint match_here (p : regex) : string -> mstate -> option found :=
  match p with
  | [] => fun s m => Some (grp m, s)
  | One a :: p' => fun s m =>
      match s with
      | String d s' => if matches a d then match_here p' s' (push d m) else None
      | EmptyString => None
      end
  | Star true a :: p' => greedy_star (matches a) (match_here p')
  | Star false a :: p' => lazy_star (matches a) (match_here p')
  | GroupOpen :: p' => fun s m => match_here p' s (MState true EmptyString)
  | GroupClose :: p' => fun s m => match_here p' s (MState false (grp m))
  end.

(** The leftmost match: try every start position in turn. *)
Fixpoint search (p : regex) (s : string) : option found :=
  match match_here p s (MState false EmptyString) with
  | Some r => Some r
  | None =>
      match s with
      | String _ s' => search p s'
      | EmptyString => None
      end
  end.

(** [re.findall(p, s, re.DOTALL)] for a pattern with one group whose matches
    are never empty: the group of every match, left to right, the scan
    resuming where the previous match ended. *)
Fixpoint findall_from (fuel : nat) (p : regex) (s : string) : list string :=
  match fuel with
  | O => []
  | S fuel' =>
      match search p s with
      | Some (g, rest) => g :: findall_from fuel' p rest
      | None => []
      end
  end.

Definition findall_regex (p : regex) (s : string) : list string :=
  findall_from (S (String.length s)) p s.

Definition findall (pattern : string) (s : string) : list string :=
  match compile pattern with
  | Some p => findall_regex p s
  | None => []
  end.

End re.

(** ** app/agents/prompts/templates.py, app/agents/tools/codegen_tool.py *)

Module codegen_tool.
Import graph.

Definition CODEGEN_SYSTEM_PROMPT : string :=
"You are an expert Python programmer. Generate clean, efficient, and well-documented Python code.

Guidelines:
1. Use only standard library and common data science packages (pandas, numpy, matplotlib, seaborn)
2. Include clear comments explaining the code
3. Handle potential errors gracefully
4. Write code that is self-contained and executable
5. If generating visualizations, save to a file (not display)
6. Print results to stdout for capture

IMPORTANT SECURITY RULES:
- Do NOT make network requests (no urllib, requests, http, socket)
- Do NOT access the filesystem except for the designated output directory
- Do NOT use subprocess, os.system, or eval/exec
- Do NOT import dangerous modules (pickle with untrusted data, etc.)

Your code will run in a restricted sandbox environment.".

(** [CODEGEN_USER_PROMPT.format(image_analysis=.., reasoning=.., user_prompt=..)]. *)
Definition CODEGEN_USER_PROMPT_format
    (image_analysis reasoning user_prompt : string) : string :=
"Generate Python code based on this plan.

IMAGE ANALYSIS:
" ++ image_analysis ++ "

PLAN:
" ++ reasoning ++ "

USER REQUEST:
" ++ user_prompt ++ "

Requirements:
1. The code should be complete and runnable
2. Save any generated files to the current directory
3. Print a summary of results to stdout
4. Include error handling

Generate ONLY the Python code, wrapped in ```python``` code blocks.".

(** [extract_python_code(text)]. *)
Definition extract_python_code (text : string) : string :=
  match re.findall "```python\s*(.*?)\s*```" text with
  | m :: _ => re.strip m
  | [] =>
      match re.findall "```\s*(.*?)\s*```" text with
      | m :: _ => re.strip m
      | [] => re.strip text
      end
  end.

(** What the builtin [compile(code, "<string>", "exec")] does with a source
    text: it returns a code object, raises [SyntaxError] (with its [lineno]
    and [msg] attributes), or raises something else. *)
Inductive compiled :=
| CodeObject
| SyntaxError (lineno : option Z) (msg : string)
| CompileRaises (e : exn).

(** [f"{x}"] for [x : int | None]. *)
Definition fmt_int (x : option Z) : string :=
  match x with
  | Some n => pretty n
  | None => "None"
  end.

(** A request to an adapter's [generate]; the temperature is in hundredths. *)
Record request := Request {
  prompt : string;
  system_prompt : option string;
  temperature : Z;
  max_tokens : Z
}.

Section Stage.

Variable compile : string -> compiled.
Variable adapter_generate : request -> outcome string.

(** [validate_code_syntax(code)]: only [SyntaxError] is caught. *)
Definition validate_code_syntax (code : string) : outcome (bool * option string) :=
  match compile code with
  | CodeObject => Returns (true, None)
  | SyntaxError lineno msg =>
      Returns (false, Some ("Syntax error at line " ++ fmt_int lineno ++ ": " ++ msg))
  | CompileRaises e => Raises e
  end.

(** The loop over [reversed(messages)]: the content of the last message that
    has one. *)
Definition latest_prompt (msgs : list message) : option string :=
  match List.find (fun m => is_set (content m)) (rev msgs) with
  | Some m => content m
  | None => Some EmptyString
  end.

(** The [except Exception] clause of [generate_code]. *)
Definition generation_failed (e : exn) : update :=
  [("error", Some ("Code generation failed: " ++ exn_str e));
   ("current_step", Some "error")].

(** [f"{x}"] for [x : str | None]. *)
Definition fmt_str (x : option string) : string := default "None" x.

(** The arguments of the call to [adapter.generate]. *)
Definition codegen_request (state : AgentState) : request :=
  let reasoning :=
    or_default (reasoning state)
      "Generate Python code to process and analyze the described data." in
  let user_prompt := latest_prompt (messages state) in
  let formatted_prompt :=
    CODEGEN_USER_PROMPT_format (fmt_str (image_analysis state)) reasoning
      (or_default user_prompt "Generate useful Python code.") in
  Request formatted_prompt (Some CODEGEN_SYSTEM_PROMPT) 20 4096.

(** [generate_code(state)]: the dict of updated state values. *)
Definition generate_code (state : AgentState) : update :=
  if negb (truthy (image_analysis state)) then
    [("error", Some "No image analysis available for code generation");
     ("current_step", Some "error")]
  else
    match adapter_generate (codegen_request state) with
    | Raises e => generation_failed e
    | Returns response =>
        let code := extract_python_code response in
        match validate_code_syntax code with
        | Raises e => generation_failed e
        | Returns (false, error_msg) =>
            [("generated_code", Some code);
             ("current_step", Some "codegen_complete_with_errors");
             ("error", Some ("Code has syntax errors: " ++ fmt_str error_msg))]
        | Returns (true, _) =>
            [("generated_code", Some code);
             ("current_step", Some "codegen_complete");
             ("error", None)]
        end
    end.

End Stage.

End codegen_tool.

(** ** app/workers/tasks.py *)

Module tasks.
Import graph jobs.

(** The columns of a job row ([JobModel], app/models/job.py) and of a file
    row ([FileModel], app/models/file.py) that the task reads or writes. *)
Record Job := mkJob {
  id : string;
  user_id : string;
  file_id : string;
  status : JobStatus;
  prompt : option string;
  result_url : option string;
  error_message : option string;
  updated_at : Z
}.

Record File := mkFile { storage_path : string; content_type : string }.

Definition set_status (j : Job) (s : JobStatus) : Job :=
  mkJob (id j) (user_id j) (file_id j) s (prompt j) (result_url j)
    (error_message j) (updated_at j).
Definition set_error_message (j : Job) (m : option string) : Job :=
  mkJob (id j) (user_id j) (file_id j) (status j) (prompt j) (result_url j)
    m (updated_at j).
Definition set_result_url (j : Job) (u : option string) : Job :=
  mkJob (id j) (user_id j) (file_id j) (status j) (prompt j) u
    (error_message j) (updated_at j).
Definition set_updated_at (j : Job) (t : Z) : Job :=
  mkJob (id j) (user_id j) (file_id j) (status j) (prompt j) (result_url j)
    (error_message j) t.

(** The arguments of [run_agent]. *)
Record agent_call := AgentCall {
  call_job_id : string;
  call_user_id : string;
  call_image_path : string;
  call_image_data : string;
  call_image_mime_type : string;
  call_user_prompt : string
}.

(** What the task does to the outside, in order: [session.commit()] with the
    row it persists, [storage.download], [run_agent] (the only place where
    inference calls are made) and [storage.upload]. *)
Inductive event :=
| Commit (row : Job)
| Download (path : string)
| RunAgent (call : agent_call)
| Upload (path data mime : string).

(** The collaborators of one run: the two [select] results, the storage
    service, the workflow and the readings of [datetime.utcnow()], numbered
    by call. *)
Record world := World {
  select_job : string -> option Job;
  select_file : string -> option File;
  download : string -> outcome string;
  run_agent : agent_call -> outcome AgentState;
  upload : string -> string -> string -> outcome unit;
  utcnow : nat -> Z
}.

Definition status_value (s : JobStatus) : string :=
  match s with
  | PENDING => "pending" | PROCESSING => "processing"
  | VALIDATING => "validating" | EXECUTING => "executing"
  | COMPLETED => "completed" | FAILED => "failed"
  end.

(** A run: the returned dict, and the events in order. *)
Definition run := (update * list event)%type.

Definition error_dict (job_id msg : string) : update :=
  [("job_id", Some job_id); ("status", Some "error"); ("error", Some msg)].

(** The [except Exception] clause around step 4. *)
Definition agent_failed (w : world) (job_id : string) (job : Job)
    (trace : list event) (e : exn) : run :=
  let job := set_status job FAILED in
  let job := set_error_message job (Some (exn_str e)) in
  let job := set_updated_at job (utcnow w 1) in
  (error_dict job_id (exn_str e), app trace [Commit job]).

(** The end of step 4: the final commit and the returned dict. *)
Definition agent_done (w : world) (job_id : string) (job : Job)
    (trace : list event) (final_state : AgentState) : run :=
  let job := set_updated_at job (utcnow w 1) in
  ([("job_id", Some job_id);
    ("status", Some (status_value (status job)));
    ("image_analysis", image_analysis final_state);
    ("reasoning", reasoning final_state);
    ("generated_code", generated_code final_state);
    ("error", error final_state)],
   app trace [Commit job]).

(** The arguments that step 4 passes to [run_agent]. *)
Definition agent_call_for (job_id : string) (job : Job) (file : File)
    (image_data : string) : agent_call :=
  AgentCall job_id (user_id job) (storage_path file) image_data
    (content_type file)
    (or_default (prompt job)
       "Analyze this image and generate useful Python code.").

(** The path under which step 4 stores the generated code. *)
Definition result_path_for (job_id : string) : string :=
  "results/" ++ job_id ++ "/generated_code.py".

(** [_process_job_async(job_id)]. *)
Definition _process_job_async (w : world) (job_id : string) : run :=
  match select_job w job_id with
  | None => (error_dict job_id "Job not found", [])
  | Some job =>
      let job := set_status job PROCESSING in
      let job := set_updated_at job (utcnow w 0) in
      let trace := [Commit job] in
      match select_file w (file_id job) with
      | None =>
          let job := set_status job FAILED in
          let job := set_error_message job (Some "File not found") in
          let job := set_updated_at job (utcnow w 1) in
          (error_dict job_id "File not found", app trace [Commit job])
      | Some file =>
          let trace := app trace [Download (storage_path file)] in
          match download w (storage_path file) with
          | Raises e =>
              let job := set_status job FAILED in
              let job :=
                set_error_message job
                  (Some ("Failed to download file: " ++ exn_str e)) in
              let job := set_updated_at job (utcnow w 1) in
              (error_dict job_id (exn_str e), app trace [Commit job])
          | Returns image_data =>
              let call := agent_call_for job_id job file image_data in
              let trace := app trace [RunAgent call] in
              match run_agent w call with
              | Raises e => agent_failed w job_id job trace e
              | Returns final_state =>
                  if truthy (error final_state) then
                    let job := set_status job FAILED in
                    let job := set_error_message job (error final_state) in
                    agent_done w job_id job trace final_state
                  else
                    let job := set_status job COMPLETED in
                    let generated_code := generated_code final_state in
                    if truthy generated_code then
                      let result_path := result_path_for job_id in
                      let code := default EmptyString generated_code in
                      let trace :=
                        app trace [Upload result_path code "text/x-python"] in
                      match upload w result_path code "text/x-python" with
                      | Raises e => agent_failed w job_id job trace e
                      | Returns _ =>
                          let job := set_result_url job (Some result_path) in
                          agent_done w job_id job trace final_state
                      end
                    else agent_done w job_id job trace final_state
              end
          end
      end
  end.

(** The row as readers see it after a run: the last one committed. *)
Definition persisted (r : run) : option Job :=
  last (omap (fun ev => match ev with Commit j => Some j | _ => None end) (snd r)).

Definition uploads (r : run) : list event :=
  List.filter (fun ev => match ev with Upload _ _ _ => true | _ => false end) (snd r).

End tasks.

(** ** app/core/rate_limiter.py *)

Module rate_limiter.

(** One Redis key holding a sorted set.  [is_allowed] only ever adds the
    member [str(now)] with score [now], so a member is identified with its
    score; a clock reading is an integer number of ticks, the window being
    counted in the same unit.  [ttl] is the expiry last set on the key. *)
Record zkey := ZKey { members : gset Z; ttl : option Z }.

Inductive command := ZREMRANGEBYSCORE | ZCARD | ZADD | EXPIRE.

(** The client behind [cache_manager.redis]: the keys of the server, and
    which commands currently raise (an unreachable server, a timeout). *)
Record client := Client {
  keys : gmap string zkey;
  fault : command -> option exn
}.

(** A computation over the client that may raise. *)
Definition M (A : Type) : Type := client -> outcome A * client.

Definition ret {A} (a : A) : M A := fun c => (Returns a, c).

Definition bind {A B} (m : M A) (k : A -> M B) : M B :=
  fun c =>
    match m c with
    | (Returns a, c') => k a c'
    | (Raises e, c') => (Raises e, c')
    end.

Notation "x <~ m ;; k" := (bind m (fun x => k))
  (at level 100, m at next level, right associativity).

(** Issue a command: it raises when the client says so, and otherwise acts
    on the keys. *)
Definition issue {A} (cmd : command)
    (act : gmap string zkey -> A * gmap string zkey) : M A :=
  fun c =>
    match fault c cmd with
    | Some e => (Raises e, c)
    | None => let (a, ks) := act (keys c) in (Returns a, Client ks (fault c))
    end.

Definition in_range (lo hi t : Z) : Prop := (lo <= t <= hi)%Z.

(** [ZREMRANGEBYSCORE key lo hi]: drop the members whose score lies in
    [lo..hi]; a sorted set left empty is deleted with its key. *)
Definition zremrangebyscore (key : string) (lo hi : Z) : M Z :=
  issue ZREMRANGEBYSCORE (fun ks =>
    match ks !! key with
    | None => (0%Z, ks)
    | Some z =>
        let kept := filter (fun t => ¬ in_range lo hi t) (members z) in
        let removed := (Z.of_nat (size (members z)) - Z.of_nat (size kept))%Z in
        if decide (kept = ∅) then (removed, delete key ks)
        else (removed, <[key := ZKey kept (ttl z)]> ks)
    end).

(** [ZCARD key]. *)
Definition zcard (key : string) : M Z :=
  issue ZCARD (fun ks =>
    match ks !! key with
    | None => (0%Z, ks)
    | Some z => (Z.of_nat (size (members z)), ks)
    end).

(** [ZADD key score member] with [member = str(score)]. *)
Definition zadd (key : string) (score : Z) : M Z :=
  issue ZADD (fun ks =>
    match ks !! key with
    | None => (1%Z, <[key := ZKey {[score]} None]> ks)
    | Some z =>
        ((if decide (score ∈ members z) then 0 else 1)%Z,
         <[key := ZKey ({[score]} ∪ members z) (ttl z)]> ks)
    end).

(** [EXPIRE key seconds] for a timeout that is positive.  With a timeout
    that is not positive the store deletes the key instead; the model does
    not follow that case, and what is stated of the key after an allowed
    call is stated for a positive window. *)
Definition expire (key : string) (seconds : Z) : M bool :=
  issue EXPIRE (fun ks =>
    match ks !! key with
    | None => (false, ks)
    | Some z => (true, <[key := ZKey (members z) (Some seconds)]> ks)
    end).

Record RateLimiter := mkRateLimiter {
  requests_limit : Z;
  window_seconds : Z
}.

(** [f"rate_limit:{identifier}"]. *)
Definition rate_key (identifier : string) : string :=
  "rate_limit:" ++ identifier.

(** The body of the [try] block of [is_allowed], [now] being the reading of
    [time.time()]. *)
Definition check (self : RateLimiter) (now : Z) (identifier : string)
    : M (bool * Z) :=
  let key := rate_key identifier in
  let window_start := (now - window_seconds self)%Z in
  _ <~ zremrangebyscore key 0 window_start ;;
  current_count <~ zcard key ;;
  if (current_count >=? requests_limit self)%Z then ret (false, 0%Z)
  else
    _ <~ zadd key now ;;
    _ <~ expire key (window_seconds self) ;;
    ret (true, (requests_limit self - current_count - 1)%Z).

(** [is_allowed(identifier)]: the returned pair, and the client after the
    call ([None] when [cache_manager.redis] is unset). *)
Definition is_allowed (self : RateLimiter) (redis : option client) (now : Z)
    (identifier : string) : (bool * Z) * option client :=
  match redis with
  | None => ((true, requests_limit self), None)
  | Some c =>
      match check self now identifier c with
      | (Returns r, c') => (r, Some c')
      | (Raises _, c') => ((true, requests_limit self), Some c')
      end
  end.

(** A client all of whose commands work. *)
Definition reachable (ks : gmap string zkey) : client :=
  Client ks (fun _ => None).

(** The entries recorded for an identifier. *)
Definition entries (identifier : string) (c : client) : gset Z :=
  match keys c !! rate_key identifier with
  | Some z => members z
  | None => ∅
  end.

(** The entries of a window that the purge leaves in place. *)
Definition survivors (self : RateLimiter) (now : Z) (s : gset Z) : gset Z :=
  filter (fun t => ¬ in_range 0 (now - window_seconds self) t) s.

End rate_limiter.

(** ** app/adapters/llm_adapter.py *)

Set Warnings "-register-all".

Module llm_adapter.
Import codegen_tool.

(** A decoded JSON document; an object is given by the items of its dict,
    whose keys are distinct. *)
Inductive json :=
| JNull
| JBool (b : bool)
| JNumber (n : Z)
| JString (s : string)
| JArray (items : list json)
| JObject (fields : list (string * json)).

Definition not_subscriptable (type_name : string) : exn :=
  Exn "TypeError" ("'" ++ type_name ++ "' object is not subscriptable").

(** [v[k]] for a string key. *)
Definition item (v : json) (k : string) : outcome json :=
  match v with
  | JObject fields =>
      match List.find (fun kv => String.eqb (fst kv) k) fields with
      | Some kv => Returns (snd kv)
      | None => Raises (Exn "KeyError" ("'" ++ k ++ "'"))
      end
  | JArray _ =>
      Raises (Exn "TypeError" "list indices must be integers or slices, not str")
  | JString _ => Raises (Exn "TypeError" "string indices must be integers, not 'str'")
  | JNull => Raises (not_subscriptable "NoneType")
  | JBool _ => Raises (not_subscriptable "bool")
  | JNumber _ => Raises (not_subscriptable "int")
  end.

(** [v[0]]. *)
Definition first (v : json) : outcome json :=
  match v with
  | JArray (x :: _) => Returns x
  | JArray [] => Raises (Exn "IndexError" "list index out of range")
  | JString (String c _) => Returns (JString (String c EmptyString))
  | JString EmptyString => Raises (Exn "IndexError" "string index out of range")
  | JObject _ => Raises (Exn "KeyError" "0")
  | JNull => Raises (not_subscriptable "NoneType")
  | JBool _ => Raises (not_subscriptable "bool")
  | JNumber _ => Raises (not_subscriptable "int")
  end.

Definition and_then {A B} (r : outcome A) (k : A -> outcome B) : outcome B :=
  match r with
  | Returns a => k a
  | Raises e => Raises e
  end.

(** [data["choices"][0]["message"]["content"]]. *)
Definition first_choice_content (data : json) : outcome json :=
  and_then (item data "choices") (fun choices =>
  and_then (first choices) (fun choice =>
  and_then (item choice "message") (fun message =>
  item message "content"))).

(** What the endpoint answered: the status, the raw text, and what
    [response.json()] does with it. *)
Record response := Response {
  status_code : Z;
  text : string;
  json_of : outcome json
}.

(** The content of a chat message: plain text, or the image part followed by
    the text part. *)
Inductive content :=
| Text (s : string)
| ImageAndText (image_url text : string).

Record chat_message := ChatMessage { role : string; body : content }.

Record payload := Payload {
  payload_model : string;
  payload_messages : list chat_message;
  payload_temperature : Z;
  payload_max_tokens : Z
}.

Record adapter := Adapter {
  base_url : string;
  model : string;
  api_token : string
}.

(** The classes caught by [except httpx.ConnectError] and by
    [except httpx.TimeoutException] (the class and its subclasses). *)
Definition is_connect_error (e : exn) : bool :=
  String.eqb (exn_class e) "ConnectError".

Definition is_timeout (e : exn) : bool :=
  existsb (String.eqb (exn_class e))
    ["TimeoutException"; "ConnectTimeout"; "ReadTimeout"; "WriteTimeout";
     "PoolTimeout"].

Definition is_key_error (e : exn) : bool :=
  String.eqb (exn_class e) "KeyError".

Section Calls.

(** [base64.b64encode(data).decode("utf-8")] and
    [client.post(url, headers=.., json=payload)]. *)
Variable b64encode : string -> string.
Variable post : string -> payload -> outcome response.

Definition system_message (system_prompt : option string) : list chat_message :=
  if truthy system_prompt
  then [ChatMessage "system" (Text (default EmptyString system_prompt))]
  else [].

(** The body of the [try] block, common to the adapters. *)
Definition chat_completion (self : adapter) (p : payload) : outcome json :=
  and_then (post (base_url self ++ "/chat/completions") p) (fun r =>
    if negb (status_code r =? 200)%Z then
      Raises (Exn "LLMResponseError"
                ("LLM returned status " ++ pretty (status_code r) ++ ": " ++ text r))
    else and_then (json_of r) first_choice_content).

Definition connection_handlers (self : adapter) (e : exn) : option exn :=
  if is_connect_error e then
    Some (Exn "LLMConnectionError"
            ("Failed to connect to " ++ model self ++ ": " ++ exn_str e))
  else if is_timeout e then
    Some (Exn "LLMConnectionError"
            ("Request to " ++ model self ++ " timed out: " ++ exn_str e))
  else None.

(** The request body built by [TextLLMAdapter.generate]. *)
Definition text_payload (self : adapter) (req : request) : payload :=
  let messages :=
    app (system_message (system_prompt req)) [ChatMessage "user" (Text (prompt req))] in
  Payload (model self) messages (temperature req) (max_tokens req).

(** [TextLLMAdapter.generate]. *)
Definition text_generate (self : adapter) (req : request) : outcome json :=
  match chat_completion self (text_payload self req) with
  | Returns v => Returns v
  | Raises e =>
      match connection_handlers self e with
      | Some e' => Raises e'
      | None =>
          if is_key_error e then
            Raises (Exn "LLMResponseError"
                      ("Unexpected response format from " ++ model self ++ ": "
                       ++ exn_str e))
          else Raises e
      end
  end.

(** The request body built by [VisionLLMAdapter.generate_with_image]. *)
Definition image_payload (self : adapter) (req : request)
    (image_data image_mime_type : string) : payload :=
  let image_base64 := b64encode image_data in
  let image_url := "data:" ++ image_mime_type ++ ";base64," ++ image_base64 in
  let messages :=
    app (system_message (system_prompt req))
      [ChatMessage "user" (ImageAndText image_url (prompt req))] in
  Payload (model self) messages (temperature req) (max_tokens req).

(** [VisionLLMAdapter.generate_with_image]. *)
Definition generate_with_image (self : adapter) (req : request)
    (image_data image_mime_type : string) : outcome json :=
  match chat_completion self (image_payload self req image_data image_mime_type) with
  | Returns v => Returns v
  | Raises e =>
      match connection_handlers self e with
      | Some e' => Raises e'
      | None => Raises e
      end
  end.

End Calls.

(** The two error kinds of the adapter. *)
Definition is_connection_kind (e : exn) : bool :=
  String.eqb (exn_class e) "LLMConnectionError".
Definition is_response_kind (e : exn) : bool :=
  String.eqb (exn_class e) "LLMResponseError".
Definition typed (e : exn) : bool := is_connection_kind e || is_response_kind e.

End llm_adapter.

(** ** Fenced blocks, described without regular expressions *)

Module fences.

Definition fence : string := "```".
Definition python_fence : string := "```python".

(** [starts_with p s]: what follows [p] when [s] starts with it. *)
Fixpoint starts_with (p s : string) : option string :=
  match p, s with
  | EmptyString, _ => Some s
  | String a p', String b s' => if Ascii.eqb a b then starts_with p' s' else None
  | String _ _, EmptyString => None
  end.

(** [cut needle s]: the text before and the text after the first occurrence
    of [needle] in [s]. *)
Fixpoint cut (needle s : string) : option (string * string) :=
  match starts_with needle s with
  | Some rest => Some (EmptyString, rest)
  | None =>
      match s with
      | String c s' =>
          match cut needle s' with
          | Some (before, after) => Some (String c before, after)
          | None => None
          end
      | EmptyString => None
      end
  end.

(** The text between the first [opening] marker and the first [fence] after
    it. *)
Definition between (opening : string) (text : string) : option string :=
  match cut opening text with
  | Some (_, rest) =>
      match cut fence rest with
      | Some (inner, _) => Some inner
      | None => None
      end
  | None => None
  end.

(** Extraction by markers: the text after the first [```python] up to the
    next fence; failing that, the text after the first fence up to the next
    one; failing that, the whole text. *)
Definition extract_by_markers (text : string) : string :=
  match between python_fence text with
  | Some inner => re.strip inner
  | None =>
      match between fence text with
      | Some inner => re.strip inner
      | None => re.strip text
      end
  end.

(** The tag of a fence: the characters that follow it, up to the first
    white space or backtick. *)
Fixpoint take_tag (s : string) : string * string :=
  match s with
  | String c s' =>
      if re.isspace c || Ascii.eqb c "`" then (EmptyString, s)
      else let (tag, rest) := take_tag s' in (String c tag, rest)
  | EmptyString => (EmptyString, EmptyString)
  end.

(** The fenced blocks of a text, in order, each with its tag and its inner
    text: an opening fence, its tag, and the text up to the closing fence. *)
Fixpoint fenced_blocks (fuel : nat) (text : string) : list (string * string) :=
  match fuel with
  | O => []
  | S fuel' =>
      match cut fence text with
      | None => []
      | Some (_, opened) =>
          let (tag, body) := take_tag opened in
          match cut fence body with
          | None => []
          | Some (inner, rest) => (tag, inner) :: fenced_blocks fuel' rest
          end
      end
  end.

Definition first_tagged (tag : string) (blocks : list (string * string))
    : option string :=
  snd <$> List.find (fun b => String.eqb (fst b) tag) blocks.

(** Extraction as the specification words it: the first block tagged
    [python]; failing that, the first untagged block; failing that, the
    whole text; trimmed in each case. *)
Definition extract_reference (text : string) : string :=
  let blocks := fenced_blocks (String.length text) text in
  match first_tagged "python" blocks with
  | Some inner => re.strip inner
  | None =>
      match first_tagged EmptyString blocks with
      | Some inner => re.strip inner
      | None => re.strip text
      end
  end.

End fences.

(** * Further parts of the application *)

(** [x or d] for [x : int | None]. *)
Definition int_or (x : option Z) (d : Z) : Z :=
  match x with
  | Some n => if (n =? 0)%Z then d else n
  | None => d
  end.

(** ** app/agents/tools/vision_tool.py, reasoning_tool.py and the run of the graph *)

Module workflow.
Import graph codegen_tool.

Definition VISION_SYSTEM_PROMPT : string :=
"You are an expert image analyst. Your job is to analyze images and provide detailed, structured descriptions.

When analyzing an image:
1. Describe what type of image it is (chart, graph, screenshot, photo, etc.)
2. Identify key elements, labels, and data points
3. Extract any text visible in the image
4. Note any patterns, trends, or important observations
5. Summarize the main purpose or message of the image

Be thorough but concise. Focus on extractable data and actionable insights.
Format your response clearly with sections if needed.".

(** [VISION_USER_PROMPT.format(user_prompt=..)]. *)
Definition VISION_USER_PROMPT_format (user_prompt : string) : string :=
"Analyze this image and provide a detailed description.

Focus on:
- What type of visualization or content is shown
- Any data, numbers, labels, or text visible
- Patterns, trends, or key insights
- Information that would be useful for generating Python code to process or analyze this data

Additional context from user: " ++ user_prompt.

Definition REASONING_SYSTEM_PROMPT : string :=
"You are a Python programming expert and data analyst. Your job is to plan how to write Python code based on image analysis.

Given an analysis of an image, determine:
1. What data needs to be extracted or processed
2. What Python libraries would be most appropriate
3. What kind of output the user likely wants
4. Step-by-step approach for the code

Think methodically and create a clear plan that a code generator can follow.
Keep your plan concise and actionable.".

(** [REASONING_USER_PROMPT.format(image_analysis=.., user_prompt=..)]. *)
Definition REASONING_USER_PROMPT_format (image_analysis user_prompt : string) : string :=
"Based on this image analysis, plan what Python code should be written.

IMAGE ANALYSIS:
" ++ image_analysis ++ "

USER REQUEST:
" ++ user_prompt ++ "

Provide a clear plan for the Python code:
1. What libraries to use
2. What data to extract/process
3. What calculations or transformations to perform
4. What output to generate (chart, CSV, summary, etc.)".

(** An inference call, as the workflow issues it: to the vision model with
    the image, to the reasoning model, or to the code model. *)
Inductive call :=
| Vision (req : request) (image_data image_mime_type : string)
| Reasoning (req : request)
| Codegen (req : request).

(** The three adapters behind [get_qwen_adapter], [get_llama_adapter] and
    [get_deepseek_adapter], and the builtin [compile]. *)
Record services := Services {
  qwen : request -> string -> string -> outcome string;
  llama : request -> outcome string;
  deepseek : request -> outcome string;
  py_compile : string -> compiled
}.

(** What a node does: the dict it returns and the inference calls it made. *)
Definition step := (update * list call)%type.

(** The arguments of the call that [analyze_image] makes.  In a state built
    by [run_agent] the key [image_mime_type] is always bound to a string;
    [None] is read as the key being absent. *)
Definition vision_request (state : AgentState) : request :=
  let user_prompt := latest_prompt (messages state) in
  let formatted_prompt :=
    VISION_USER_PROMPT_format
      (or_default user_prompt "Analyze this image and describe its contents.") in
  Request formatted_prompt (Some VISION_SYSTEM_PROMPT) 30 2048.

(** [analyze_image(state)]. *)
Definition analyze_image (sv : services) (state : AgentState) : step :=
  if negb (truthy (image_data state)) then
    ([("error", Some "No image data available for analysis");
      ("current_step", Some "error")], [])
  else
    let image_data := default EmptyString (image_data state) in
    let image_mime_type := default "image/png" (image_mime_type state) in
    let req := vision_request state in
    match qwen sv req image_data image_mime_type with
    | Returns analysis =>
        ([("image_analysis", Some analysis);
          ("current_step", Some "analyze_complete");
          ("error", None)],
         [Vision req image_data image_mime_type])
    | Raises e =>
        ([("error", Some ("Image analysis failed: " ++ exn_str e));
          ("current_step", Some "error")],
         [Vision req image_data image_mime_type])
    end.

(** The arguments of the call that [plan_approach] makes. *)
Definition reasoning_request (state : AgentState) : request :=
  let user_prompt := latest_prompt (messages state) in
  let formatted_prompt :=
    REASONING_USER_PROMPT_format (fmt_str (image_analysis state))
      (or_default user_prompt "Generate useful Python code based on the image.") in
  Request formatted_prompt (Some REASONING_SYSTEM_PROMPT) 50 1024.

(** [plan_approach(state)]. *)
Definition plan_approach (sv : services) (state : AgentState) : step :=
  if negb (truthy (image_analysis state)) then
    ([("error", Some "No image analysis available for planning");
      ("current_step", Some "error")], [])
  else
    let req := reasoning_request state in
    match llama sv req with
    | Returns reasoning =>
        ([("reasoning", Some reasoning);
          ("current_step", Some "planning_complete");
          ("error", None)],
         [Reasoning req])
    | Raises e =>
        ([("error", Some ("Planning failed: " ++ exn_str e));
          ("current_step", Some "error")],
         [Reasoning req])
    end.

(** [generate_code(state)] with the call it makes: the adapter is called
    exactly when the image analysis is there. *)
Definition generate_code_step (sv : services) (state : AgentState) : step :=
  (generate_code (py_compile sv) (deepseek sv) state,
   if truthy (image_analysis state) then [Codegen (codegen_request state)] else []).

(** [create_agent_graph()]: the nodes, the entry point and, for each node,
    the map of its conditional edge. *)
Definition node_of (sv : services) (name : string) : option (AgentState -> step) :=
  if String.eqb name "analyze_image" then Some (analyze_image sv)
  else if String.eqb name "plan_approach" then Some (plan_approach sv)
  else if String.eqb name "generate_code" then Some (generate_code_step sv)
  else None.

Definition entry_point : string := "analyze_image".

Definition edges : list (string * list (string * string)) :=
  [("analyze_image", [("plan_approach", "plan_approach"); (END, END)]);
   ("plan_approach", [("generate_code", "generate_code"); (END, END)]);
   ("generate_code", [(END, END)])].

Definition lookup_key {A} (k : string) (l : list (string * A)) : option A :=
  snd <$> List.find (fun kv => String.eqb (fst kv) k) l.

(** The run of the compiled graph from a node: the node's dict is merged
    into the state, [should_continue] picks a key of the node's edge map,
    and the run goes on at the node it names, or ends at [END].  A key that
    the map lacks raises; so does a run longer than the recursion limit. *)
Fixpoint run_from (sv : services) (limit : nat) (name : string)
    (state : AgentState) : outcome (AgentState * list call) :=
  match limit with
  | O => Raises (Exn "GraphRecursionError" "Recursion limit reached")
  | S limit' =>
      match node_of sv name, lookup_key name edges with
      | Some node, Some path_map =>
          let (u, calls) := node state in
          let state' := merge state u in
          match lookup_key (should_continue state') path_map with
          | None => Raises (Exn "KeyError" (should_continue state'))
          | Some next =>
              if String.eqb next END then Returns (state', calls)
              else
                match run_from sv limit' next state' with
                | Returns (final, more) => Returns (final, app calls more)
                | Raises e => Raises e
                end
          end
      | _, _ => Raises (Exn "ValueError" ("Unknown node " ++ name))
      end
  end.

(** The default recursion limit of a compiled graph. *)
Definition recursion_limit : nat := 25.

(** The initial state that [run_agent] builds. *)
Definition initial_state (job_id user_id image_path image_data image_mime_type
    user_prompt : string) : AgentState :=
  mkAgentState
    (if truthy (Some user_prompt) then [Message (Some user_prompt)] else [])
    (Some job_id) (Some user_id) (Some image_path) (Some image_data)
    (Some image_mime_type) None None None None None (Some "start").

(** [run_agent(job_id, user_id, image_path, image_data, image_mime_type,
    user_prompt)]: the final state, with the inference calls made. *)
Definition run_agent (sv : services) (job_id user_id image_path image_data
    image_mime_type user_prompt : string) : outcome (AgentState * list call) :=
  run_from sv recursion_limit entry_point
    (initial_state job_id user_id image_path image_data image_mime_type user_prompt).

(** [run_agent] as [_process_job_async] awaits it: only the final state
    comes back. *)
Definition agent_of (sv : services) (c : tasks.agent_call) : outcome AgentState :=
  match run_agent sv (tasks.call_job_id c) (tasks.call_user_id c)
          (tasks.call_image_path c) (tasks.call_image_data c)
          (tasks.call_image_mime_type c) (tasks.call_user_prompt c) with
  | Returns (final, _) => Returns final
  | Raises e => Raises e
  end.

(** The inference calls behind one call of [run_agent]. *)
Definition calls_of (sv : services) (c : tasks.agent_call) : list call :=
  match run_agent sv (tasks.call_job_id c) (tasks.call_user_id c)
          (tasks.call_image_path c) (tasks.call_image_data c)
          (tasks.call_image_mime_type c) (tasks.call_user_prompt c) with
  | Returns (_, calls) => calls
  | Raises _ => []
  end.

End workflow.

(** ** Successive calls of the rate limiter *)

Module rate_limiter_bursts.
Import rate_limiter.

(** The answers to successive calls for one identifier, made at the given
    clock readings; every call sees the store that the one before left. *)
Fixpoint serve (self : RateLimiter) (identifier : string) (readings : list Z)
    (c : client) : list (bool * Z) * client :=
  match readings with
  | [] => ([], c)
  | now :: rest =>
      match is_allowed self (Some c) now identifier with
      | (answer, Some c') =>
          let (answers, c'') := serve self identifier rest c' in
          (answer :: answers, c'')
      | (answer, None) => ([answer], c)
      end
  end.

(** The answers of a limiter that starts with [used] attempts counted and
    forgets none of them. *)
Fixpoint countdown (self : RateLimiter) (used : nat) (calls : nat) : list (bool * Z) :=
  match calls with
  | O => []
  | S calls' =>
      if (Z.of_nat used <? requests_limit self)%Z
      then (true, (requests_limit self - Z.of_nat used - 1)%Z)
             :: countdown self (S used) calls'
      else (false, 0%Z) :: countdown self used calls'
  end.

End rate_limiter_bursts.

(** ** app/config.py, app/core/rate_limiter.py: the constructor and the middleware *)

Module middleware.
Import rate_limiter llm_adapter.

(** The settings that the limiter and its middleware read. *)
Record Settings := mkSettings {
  environment : string;
  debug : bool;
  rate_limit_requests : Z;
  rate_limit_window : Z
}.

Definition is_development (settings : Settings) : bool :=
  String.eqb (environment settings) "development".

(** [RateLimiter.__init__(requests_limit, window_seconds)]. *)
Definition RateLimiter_init (settings : Settings)
    (requests_limit window_seconds : option Z) : RateLimiter :=
  mkRateLimiter (int_or requests_limit (rate_limit_requests settings))
    (int_or window_seconds (rate_limit_window settings)).

(** The global instance, [rate_limiter = RateLimiter()]. *)
Definition global_limiter (settings : Settings) : RateLimiter :=
  RateLimiter_init settings None None.

(** [str.lower] on code points below 256. *)
Definition lower_char (c : ascii) : ascii :=
  let n := N_of_ascii c in
  if ((65 <=? n) && (n <=? 90)
      || (192 <=? n) && (n <=? 222) && negb (n =? 215))%N
  then ascii_of_N (n + 32) else c.

Fixpoint lower (s : string) : string :=
  match s with
  | String c s' => String (lower_char c) (lower s')
  | EmptyString => EmptyString
  end.

(** Response headers as Starlette keeps them: a list of pairs whose names
    are in lower case. *)
Definition headers := list (string * string).

(** [headers[name]] read: the first entry of that name. *)
Definition get_header (name : string) (hs : headers) : option string :=
  snd <$> List.find (fun kv => String.eqb (fst kv) (lower name)) hs.

(** [response.headers[name] = value]: the first entry of that name is
    replaced and any further one removed; a new name is appended. *)
Fixpoint replace_header (key value : string) (hs : headers) : headers :=
  match hs with
  | [] => [(key, value)]
  | (k, v) :: rest =>
      if String.eqb k key
      then (key, value) :: List.filter (fun kv => negb (String.eqb (fst kv) key)) rest
      else (k, v) :: replace_header key value rest
  end.

Definition set_header (name value : string) (hs : headers) : headers :=
  replace_header (lower name) value hs.

(** The body of a response: raw bytes, or the content given to
    [JSONResponse]. *)
Inductive body :=
| Raw (bytes : string)
| Json (content : json).

Record Response := mkResponse {
  status_code : Z;
  raw_headers : headers;
  response_body : body
}.

(** [JSONResponse(status_code=.., content=.., headers=..)]; the
    content-length and content-type headers that Starlette derives from the
    body are not part of the model. *)
Definition JSONResponse (status_code : Z) (content : json)
    (hs : list (string * string)) : Response :=
  mkResponse status_code (map (fun kv => (lower (fst kv), snd kv)) hs) (Json content).

(** What the middleware reads of a request: [request.state.user_id] when
    there is one, and [request.client.host] when there is a client. *)
Record Request := mkRequest {
  state_user_id : option string;
  client_host : option string
}.

(** [user_id or request.client.host if request.client else "unknown"]: the
    conditional binds weaker than [or]. *)
Definition identifier_of (request : Request) : string :=
  match client_host request with
  | Some host => or_default (state_user_id request) host
  | None => "unknown"
  end.

(** The 429 answer, [reset_now] being the reading of [time.time()] taken for
    the reset header. *)
Definition too_many_requests (settings : Settings) (reset_now : Z) : Response :=
  JSONResponse 429
    (JObject
       [("success", JBool false);
        ("error",
         JObject
           [("code", JString "RATE_LIMIT_EXCEEDED");
            ("message",
             JString ("Rate limit exceeded. Try again in "
                      ++ pretty (rate_limit_window settings) ++ " seconds."))])])
    [("X-RateLimit-Limit", pretty (rate_limit_requests settings));
     ("X-RateLimit-Remaining", "0");
     ("X-RateLimit-Reset", pretty (reset_now + rate_limit_window settings)%Z);
     ("Retry-After", pretty (rate_limit_window settings))].

(** [rate_limit_middleware(request, call_next)]: the response, and the
    client of the store after the call. *)
Definition rate_limit_middleware (settings : Settings) (redis : option client)
    (now reset_now : Z) (request : Request) (call_next : Request -> Response)
    : Response * option client :=
  if is_development settings && debug settings then (call_next request, redis)
  else
    let identifier := identifier_of request in
    let '((allowed, remaining), redis') :=
      is_allowed (global_limiter settings) redis now identifier in
    if negb allowed then (too_many_requests settings reset_now, redis')
    else
      let response := call_next request in
      let hs :=
        set_header "X-RateLimit-Limit" (pretty (rate_limit_requests settings))
          (raw_headers response) in
      let hs := set_header "X-RateLimit-Remaining" (pretty remaining) hs in
      (mkResponse (status_code response) hs (response_body response), redis').

End middleware.

(** ** app/core/cache.py *)

Module cache.
Import llm_adapter.

(** [bool(v)] of a decoded JSON value. *)
Definition json_truthy (v : json) : bool :=
  match v with
  | JNull => false
  | JBool b => b
  | JNumber n => negb (n =? 0)%Z
  | JString s => negb (String.eqb s "")
  | JArray items => match items with [] => false | _ => true end
  | JObject fields => match fields with [] => false | _ => true end
  end.

Definition no_get (type_name : string) : exn :=
  Exn "AttributeError" ("'" ++ type_name ++ "' object has no attribute 'get'").

(** [v.get(k)]: [None], here [JNull], for a key that the dict lacks. *)
Definition dict_get (v : json) (k : string) : outcome json :=
  match v with
  | JObject fields =>
      Returns (match List.find (fun kv => String.eqb (fst kv) k) fields with
               | Some kv => snd kv
               | None => JNull
               end)
  | JArray _ => Raises (no_get "list")
  | JString _ => Raises (no_get "str")
  | JNull => Raises (no_get "NoneType")
  | JBool _ => Raises (no_get "bool")
  | JNumber _ => Raises (no_get "int")
  end.

(** A string key of the store: its value and the time at which the store
    drops it. *)
Record entry := Entry { value : string; expires_at : Z }.

Inductive command := GET | SETEX | DEL.

(** The client of the store: the string keys, and for each command the
    exception that it raises, if any. *)
Record client := Client {
  strings : gmap string entry;
  fault : command -> option exn
}.

(** The value that the key holds at time [now]. *)
Definition live (now : Z) (c : client) (key : string) : option string :=
  match strings c !! key with
  | Some e => if (now <? expires_at e)%Z then Some (value e) else None
  | None => None
  end.

(** [redis.setex(key, seconds, value)] at time [now]; the store refuses an
    expiry that is not positive. *)
Definition setex (c : client) (now : Z) (key : string) (seconds : Z)
    (v : string) : outcome client :=
  match fault c SETEX with
  | Some e => Raises e
  | None =>
      if (seconds <=? 0)%Z
      then Raises (Exn "ResponseError" "invalid expire time in 'setex' command")
      else Returns (Client (<[key := Entry v (now + seconds)]> (strings c)) (fault c))
  end.

Definition default_ttl : Z := 3600.

(** [CacheManager.generate_key(prefix, *args)]. *)
Definition generate_key (prefix : string) (args : list string) : string :=
  String.concat ":" (prefix :: args).

Section Codec.

(** [json.dumps], [json.loads] and [hashlib.sha256(..).hexdigest()]. *)
Variable dumps : json -> string.
Variable loads : string -> outcome json.
Variable sha256_hexdigest : string -> string.

(** [CacheManager.get(key)] at time [now], for the client [redis] of the
    manager; [None] is [JNull]. *)
Definition get (redis : option client) (now : Z) (key : string) : json :=
  match redis with
  | None => JNull
  | Some c =>
      match fault c GET with
      | Some _ => JNull
      | None =>
          match live now c key with
          | Some v =>
              if negb (String.eqb v "") then
                match loads v with
                | Returns decoded => decoded
                | Raises _ => JNull
                end
              else JNull
          | None => JNull
          end
      end
  end.

(** [CacheManager.set(key, value, ttl)] at time [now]: the answer and the
    client after the call. *)
Definition set (redis : option client) (now : Z) (key : string) (v : json)
    (ttl : option Z) : bool * option client :=
  match redis with
  | None => (false, None)
  | Some c =>
      let serialized := dumps v in
      match setex c now key (int_or ttl default_ttl) serialized with
      | Returns c' => (true, Some c')
      | Raises _ => (false, Some c)
      end
  end.

(** [CacheManager.delete(key)] at time [now]. *)
Definition delete (redis : option client) (now : Z) (key : string)
    : bool * option client :=
  match redis with
  | None => (false, None)
  | Some c =>
      match fault c DEL with
      | Some _ => (false, Some c)
      | None =>
          (match live now c key with Some _ => true | None => false end,
           Some (Client (base.delete key (strings c)) (fault c)))
      end
  end.

(** [CacheManager.hash_prompt(prompt, model)]. *)
Definition hash_prompt (prompt model : string) : string :=
  String.substring 0 16 (sha256_hexdigest (model ++ ":" ++ prompt)).

Definition get_cached_job_result (redis : option client) (now : Z)
    (job_id : string) : json :=
  get redis now (generate_key "job" [job_id; "result"]).

Definition cache_job_result (redis : option client) (now : Z) (job_id : string)
    (result : json) (ttl : Z) : bool * option client :=
  set redis now (generate_key "job" [job_id; "result"]) result (Some ttl).

Definition llm_key (prompt model : string) : string :=
  generate_key "llm" [model; hash_prompt prompt model].

(** [get_cached_llm_response(prompt, model)]. *)
Definition get_cached_llm_response (redis : option client) (now : Z)
    (prompt model : string) : outcome json :=
  let result := get redis now (llm_key prompt model) in
  if json_truthy result then dict_get result "response" else Returns JNull.

(** [cache_llm_response(prompt, model, response, ttl)]. *)
Definition cache_llm_response (redis : option client) (now : Z)
    (prompt model response : string) (ttl : Z) : bool * option client :=
  set redis now (llm_key prompt model) (JObject [("response", JString response)])
    (Some ttl).

End Codec.

(** A client whose commands all succeed. *)
Definition reachable (m : gmap string entry) : client :=
  Client m (fun _ => None).

End cache.

(** ** app/api/v1/jobs.py: [get_job] and [create_job] *)

Module job_endpoint.
Import jobs llm_adapter cache.

(** A row of the jobs table as a query or [db.refresh] loads it; the two
    dates are given by their [isoformat()].  The [status] column is declared
    [String(20)] (app/models/job.py), so a loaded row carries the plain
    [str] of the column, not a member of [JobStatus]. *)
Record JobModel := mkJobModel {
  id : string;
  user_id : string;
  file_id : string;
  status : string;
  task : string;
  prompt : option string;
  result_url : option string;
  error_message : option string;
  created_at : string;
  updated_at : string
}.

Definition nullable (x : option string) : json :=
  match x with
  | Some s => JString s
  | None => JNull
  end.

Definition no_value : exn :=
  Exn "AttributeError" "'str' object has no attribute 'value'".

(** [s.value] for a [str]: the attribute of the members of an enum is not
    there. *)
Definition value (s : string) : outcome string := Raises no_value.

(** The dict [response_data] built from a loaded row, and likewise the
    keyword arguments that [create_job] gives to [JobResponse]: the entries
    are evaluated in order, and the fourth reads [job.status.value]. *)
Definition response_data (job : JobModel) : outcome json :=
  and_then (value (status job)) (fun status_value =>
    Returns
      (JObject
         [("job_id", JString (id job));
          ("user_id", JString (user_id job));
          ("file_id", JString (file_id job));
          ("status", JString status_value);
          ("task", JString (task job));
          ("prompt", nullable (prompt job));
          ("result_url", nullable (result_url job));
          ("error_message", nullable (error_message job));
          ("created_at", JString (created_at job));
          ("updated_at", JString (updated_at job))])).

(** The TTL chosen by [job.status in (JobStatus.COMPLETED,
    JobStatus.FAILED)] for the [str] of a loaded row: a member of
    [JobStatus] is a [str] that equals its value. *)
Definition row_ttl (s : string) : Z :=
  if String.eqb s "completed" || String.eqb s "failed" then 3600 else 10.

(** [select(JobModel).where(JobModel.id == job_id,
    JobModel.user_id == user_id)] on the rows of the table. *)
Definition select_job (db : list JobModel) (job_id uid : string) : list JobModel :=
  List.filter (fun j => String.eqb (id j) job_id && String.eqb (user_id j) uid) db.

Definition multiple_rows : exn :=
  Exn "MultipleResultsFound" "Multiple rows were found when one or none was required".

(** [result.scalar_one_or_none()]. *)
Definition scalar_one_or_none {A} (rows : list A) : outcome (option A) :=
  match rows with
  | [] => Returns None
  | [j] => Returns (Some j)
  | _ => Raises multiple_rows
  end.

(** [v == s] for a decoded JSON value and a string. *)
Definition equals_str (v : json) (s : string) : bool :=
  match v with
  | JString s' => String.eqb s' s
  | _ => false
  end.

Definition not_found : exn := Exn "HTTPException" "404: Job not found".

(** The columns of a row of the files table that [create_job] reads. *)
Record FileModel := mkFileModel { file_row_id : string; file_owner : string }.

(** The request body of [create_job]. *)
Record JobCreate := mkJobCreate {
  create_file_id : string;
  create_task : string;
  create_prompt : option string
}.

(** [select(FileModel).where(FileModel.id == file_id,
    FileModel.user_id == user_id)]. *)
Definition select_file (files : list FileModel) (file_id uid : string)
    : list FileModel :=
  List.filter
    (fun f => String.eqb (file_row_id f) file_id && String.eqb (file_owner f) uid)
    files.

Definition file_not_found : exn :=
  Exn "HTTPException" "404: File not found. Please upload a file first.".

Section Endpoint.

Variable dumps : json -> string.
Variable loads : string -> outcome json.

(** The constructor of [JobResponse] on the keyword arguments given by a
    dict, with the validation that pydantic does on them. *)
Context {R : Type}.
Variable JobResponse : json -> outcome R.

(** [cached and cached.get("user_id") == user.user_id]. *)
Definition cache_hit (cached : json) (uid : string) : outcome bool :=
  if json_truthy cached
  then and_then (dict_get cached "user_id") (fun v => Returns (equals_str v uid))
  else Returns false.

(** [get_job(job_id, user, db)] at time [now] of the store, for the user
    [uid]: the response or the exception, and the client of the cache after
    the call. *)
Definition get_job (redis : option client) (now : Z) (db : list JobModel)
    (job_id uid : string) : outcome R * option client :=
  let cache_key := generate_key "job" [job_id] in
  let cached := get loads redis now cache_key in
  match cache_hit cached uid with
  | Raises e => (Raises e, redis)
  | Returns true => (JobResponse cached, redis)
  | Returns false =>
      match scalar_one_or_none (select_job db job_id uid) with
      | Raises e => (Raises e, redis)
      | Returns None => (Raises not_found, redis)
      | Returns (Some job) =>
          match response_data job with
          | Raises e => (Raises e, redis)
          | Returns data =>
              let ttl := row_ttl (status job) in
              let redis' := (set dumps redis now cache_key data (Some ttl)).2 in
              (JobResponse data, redis')
          end
      end
  end.

(** The text that the [status] column holds for a member of [JobStatus],
    and the text with which the driver reports a second row under one
    primary key. *)
Variable column_text : JobStatus -> string.
Variable duplicate_key : string -> string.

(** The row that [create_job] adds. *)
Definition new_row (uuid4 now : string) (job_data : JobCreate) (uid : string)
    : JobModel :=
  mkJobModel uuid4 uid (create_file_id job_data) (column_text PENDING)
    (create_task job_data) (create_prompt job_data) None None now now.

(** [create_job(job_data, user, db)] for the user [uid], with [uuid4] the
    value of [str(uuid.uuid4())] and [now] the [isoformat()] of
    [datetime.now(timezone.utc)]: the response or the exception, and the
    rows of the jobs table after the call.  [id] is the primary key of the
    table; the response is built from the row as [db.refresh] has loaded
    it. *)
Definition create_job (files : list FileModel) (db : list JobModel)
    (uuid4 now : string) (job_data : JobCreate) (uid : string)
    : outcome R * list JobModel :=
  match scalar_one_or_none (select_file files (create_file_id job_data) uid) with
  | Raises e => (Raises e, db)
  | Returns None => (Raises file_not_found, db)
  | Returns (Some _) =>
      let job := new_row uuid4 now job_data uid in
      if existsb (fun j => String.eqb (id j) uuid4) db
      then (Raises (Exn "IntegrityError" (duplicate_key uuid4)), db)
      else
        match response_data job with
        | Raises e => (Raises e, app db [job])
        | Returns data => (JobResponse data, app db [job])
        end
  end.

End Endpoint.

End job_endpoint.

(** ** llm_adapter.py: the constructor, the text-only call of the vision
    adapter and the health check; api/v1/models.py: the health report *)

Module llm_health.
Import codegen_tool llm_adapter.

(** [s.rstrip(ch)] for a set of one character. *)
Fixpoint rstrip_char (ch : ascii) (s : string) : string :=
  match s with
  | String c s' =>
      match rstrip_char ch s' with
      | EmptyString => if Ascii.eqb c ch then EmptyString else String c EmptyString
      | r => String c r
      end
  | EmptyString => EmptyString
  end.

(** [BaseLLMAdapter.__init__(base_url, model, api_token)]. *)
Definition BaseLLMAdapter_init (base_url model api_token : string) : adapter :=
  Adapter (rstrip_char "/" base_url) model api_token.

(** The settings that the factory functions read. *)
Record Settings := mkSettings {
  qwen_base_url : string;
  qwen_model : string;
  llama_base_url : string;
  llama_model : string;
  deepseek_base_url : string;
  deepseek_model : string;
  e2e_api_token : string
}.

Definition get_qwen_adapter (settings : Settings) : adapter :=
  BaseLLMAdapter_init (qwen_base_url settings) (qwen_model settings)
    (e2e_api_token settings).

Definition get_llama_adapter (settings : Settings) : adapter :=
  BaseLLMAdapter_init (llama_base_url settings) (llama_model settings)
    (e2e_api_token settings).

Definition get_deepseek_adapter (settings : Settings) : adapter :=
  BaseLLMAdapter_init (deepseek_base_url settings) (deepseek_model settings)
    (e2e_api_token settings).

(** The classes caught by [except (LLMAdapterError, httpx.HTTPError)]. *)
Definition is_adapter_error (e : exn) : bool :=
  existsb (String.eqb (exn_class e))
    ["LLMAdapterError"; "LLMConnectionError"; "LLMResponseError"].

Definition is_http_error (e : exn) : bool :=
  existsb (String.eqb (exn_class e))
    ["HTTPError"; "RequestError"; "TransportError"; "TimeoutException";
     "ConnectTimeout"; "ReadTimeout"; "WriteTimeout"; "PoolTimeout";
     "NetworkError"; "ConnectError"; "ReadError"; "WriteError"; "CloseError";
     "ProtocolError"; "LocalProtocolError"; "RemoteProtocolError";
     "ProxyError"; "UnsupportedProtocol"; "DecodingError"; "TooManyRedirects";
     "HTTPStatusError"].

Definition no_len (type_name : string) : exn :=
  Exn "TypeError" ("object of type '" ++ type_name ++ "' has no len()").

(** [len(v)]. *)
Definition len (v : json) : outcome Z :=
  match v with
  | JString s => Returns (Z.of_nat (String.length s))
  | JArray items => Returns (Z.of_nat (List.length items))
  | JObject fields => Returns (Z.of_nat (List.length fields))
  | JNull => Raises (no_len "NoneType")
  | JBool _ => Raises (no_len "bool")
  | JNumber _ => Raises (no_len "int")
  end.

(** The call that the health check makes: the default temperature 0.7 and
    no system prompt. *)
Definition health_request : request :=
  Request "Say 'OK' if you are working." None 70 10.

(** [BaseLLMAdapter.health_check], for the [generate] of the adapter. *)
Definition health_check (generate : request -> outcome json) : outcome bool :=
  match generate health_request with
  | Returns response => and_then (len response) (fun n => Returns (0 <? n)%Z)
  | Raises e =>
      if is_adapter_error e || is_http_error e then Returns false else Raises e
  end.

(** One of the three blocks of [check_model_health]. *)
Definition probe (health : outcome bool) : string :=
  match health with
  | Returns true => "healthy"
  | Returns false => "unhealthy"
  | Raises e => "error: " ++ String.substring 0 50 (exn_str e)
  end.

Record ModelHealthResponse := mkModelHealthResponse {
  qwen : string;
  llama : string;
  deepseek : string
}.

Section Calls.

Variable post : string -> payload -> outcome response.

(** [VisionLLMAdapter.generate]: the request body of the text adapter, and
    no handler for [KeyError]. *)
Definition vision_generate (self : adapter) (req : request) : outcome json :=
  match chat_completion post self (text_payload self req) with
  | Returns v => Returns v
  | Raises e =>
      match connection_handlers self e with
      | Some e' => Raises e'
      | None => Raises e
      end
  end.

(** [check_model_health()]. *)
Definition check_model_health (settings : Settings) : ModelHealthResponse :=
  mkModelHealthResponse
    (probe (health_check (vision_generate (get_qwen_adapter settings))))
    (probe (health_check (text_generate post (get_llama_adapter settings))))
    (probe (health_check (text_generate post (get_deepseek_adapter settings)))).

End Calls.

End llm_health.

(** * Properties *)

(** ** The workflow router *)

Module graph_facts.
Import graph.

(** C3: the routing function is a function of the state alone and equals
    the reference router: END when [error] is set and the step is ["error"];
    else the planning stage after ["analyze_complete"], the code-generation
    stage after ["planning_complete"], END after ["codegen_complete"] and
    ["codegen_complete_with_errors"], and END for any other or unset step. *)
Theorem should_continue_is_reference (st : AgentState) :
  should_continue st = should_continue_reference st.
Proof.
  unfold should_continue, should_continue_reference, step_is.
  destruct (current_step st) as [step|].
  - destruct (String.eqb_spec step "error") as [->|Herr].
    + destruct (error st) as [[|c e]|]; reflexivity.
    + rewrite andb_false_r.
      destruct (String.eqb_spec step "analyze_complete") as [->|H1];
        [destruct (error st); reflexivity|].
      destruct (String.eqb_spec step "planning_complete") as [->|H2];
        [destruct (error st); reflexivity|].
      destruct (String.eqb_spec step "codegen_complete") as [->|H3];
        [destruct (error st); reflexivity|].
      destruct (String.eqb_spec step "codegen_complete_with_errors") as [->|H4];
        [destruct (error st); reflexivity|].
      assert (Hfind : List.find (fun row => String.eqb (fst row) step) dispatch = None).
      { unfold dispatch. cbn [List.find fst].
        repeat match goal with
               | |- context [String.eqb ?a step] =>
                   destruct (String.eqb_spec a step); [congruence|]
               end.
        reflexivity. }
      rewrite Hfind. destruct (error st); reflexivity.
  - rewrite andb_false_r. destruct (error st); reflexivity.
Qed.
End graph_facts.

(** ** The TTL of job snapshots *)

Module jobs_facts.
Import jobs.
(** C9, amended: the TTL of a cached job snapshot is 10 seconds while the
    status is PENDING, PROCESSING, VALIDATING or EXECUTING, and 3600 seconds
    (one hour) once it is COMPLETED or FAILED. *)
Theorem snapshot_ttl_by_status (s : JobStatus) :
  snapshot_ttl s = (if is_terminal s then 3600 else 10)%Z /\
  (s = PENDING \/ s = PROCESSING \/ s = VALIDATING \/ s = EXECUTING <->
   snapshot_ttl s = 10%Z) /\
  (s = COMPLETED \/ s = FAILED <-> snapshot_ttl s = 3600%Z).
Proof.
  split; [destruct s; reflexivity|].
  split; (split; [intros H; repeat destruct H as [H|H]; subst; reflexivity|]);
    destruct s; cbn; intros H; try discriminate H; tauto.
Qed.

(** C9 as stated fails: the TTL of a PENDING job is not a single-digit
    number of seconds. *)
Lemma pending_ttl_exceeds_single_digit :
  is_terminal PENDING = false /\ ~ (snapshot_ttl PENDING <= 9)%Z.
Proof. split; [reflexivity|]. cbn. lia. Qed.

End jobs_facts.

(** ** Code extraction *)

Module extraction_facts.
Import re fences codegen_tool.

(** *** Trimming *)

Lemma starts_with_fence_head c s r :
  starts_with fence (String c s) = Some r -> isspace c = false.
Proof.
  unfold fence. cbn [starts_with].
  destruct (Ascii.eqb_spec "`" c) as [<-|]; [intros _; reflexivity | discriminate].
Qed.

Lemma rstrip_cons c s :
  rstrip (String c s) =
  match rstrip s with
  | EmptyString => if isspace c then EmptyString else String c EmptyString
  | r => String c r
  end.
Proof. reflexivity. Qed.

Lemma lstrip_fixed_rstrip s : lstrip s = s -> lstrip (rstrip s) = rstrip s.
Proof.
  destruct s as [|c s]; [reflexivity|].
  cbn [lstrip]. destruct (isspace c) eqn:Hc.
  - intros H. exfalso.
    assert (Hlen : forall t, String.length (lstrip t) <= String.length t).
    { induction t as [|d t IH]; cbn [lstrip]; [lia|].
      destruct (isspace d); cbn [String.length]; lia. }
    specialize (Hlen s). rewrite H in Hlen. cbn [String.length] in Hlen. lia.
  - intros _. rewrite rstrip_cons. destruct (rstrip s); rewrite ?Hc; cbn [lstrip]; rewrite Hc; reflexivity.
Qed.

Lemma lstrip_idem s : lstrip (lstrip s) = lstrip s.
Proof.
  induction s as [|c s IH]; [reflexivity|].
  cbn [lstrip]. destruct (isspace c) eqn:Hc; [exact IH|].
  cbn [lstrip]. rewrite Hc. reflexivity.
Qed.

Lemma rstrip_idem s : rstrip (rstrip s) = rstrip s.
Proof.
  induction s as [|c s IH]; [reflexivity|].
  rewrite rstrip_cons. destruct (rstrip s) as [|d r] eqn:Hr.
  - destruct (isspace c) eqn:Hc; [reflexivity|].
    rewrite rstrip_cons. cbn [rstrip]. rewrite Hc. reflexivity.
  - rewrite rstrip_cons, IH. reflexivity.
Qed.

Lemma strip_idem s : strip (strip s) = strip s.
Proof.
  unfold strip. rewrite (lstrip_fixed_rstrip (lstrip s)) by apply lstrip_idem.
  apply rstrip_idem.
Qed.

(** *** The matcher on the two patterns *)

(** What follows the opening marker in both patterns: [\s*(.*?)\s*```]. *)
Definition block_body : regex :=
  app [Star true Space; GroupOpen; Star false Any; GroupClose; Star true Space]
      (lits "```").

Definition python_block : regex := app (lits "```python") block_body.
Definition generic_block : regex := app (lits "```") block_body.

Lemma patterns_compiled :
  compile "```python\s*(.*?)\s*```" = Some python_block /\
  compile "```\s*(.*?)\s*```" = Some generic_block.
Proof. split; reflexivity. Qed.

Lemma push_idle c m : recording m = false -> push c m = m.
Proof. unfold push. intros ->. reflexivity. Qed.

Lemma match_lits p q s m :
  recording m = false ->
  match_here (app (lits p) q) s m =
  match starts_with p s with
  | Some r => match_here q r m
  | None => None
  end.
Proof.
  intros Hm. revert s. induction p as [|a p IH]; intros s.
  - destruct s; reflexivity.
  - cbn [lits app match_here starts_with]. destruct s as [|d s]; [reflexivity|].
    cbn [matches]. destruct (Ascii.eqb a d); [|reflexivity].
    rewrite push_idle by exact Hm. apply IH.
Qed.

Lemma match_fence s m :
  recording m = false ->
  match_here (lits fence) s m =
  match starts_with fence s with
  | Some r => Some (grp m, r)
  | None => None
  end.
Proof.
  intros Hm. rewrite <- (app_nil_r (lits fence)). rewrite match_lits by exact Hm.
  destruct (starts_with fence s); reflexivity.
Qed.

(** [\s*```] after the group: skip the white space, then the fence. *)
Definition closing : string -> mstate -> option found :=
  match_here (Star true Space :: lits fence).

Lemma closing_spec s m :
  recording m = false ->
  closing s m =
  match starts_with fence (lstrip s) with
  | Some rest => Some (grp m, rest)
  | None => None
  end.
Proof.
  intros Hm. unfold closing. cbn [match_here].
  induction s as [|c s IH].
  - cbn [greedy_star lstrip]. apply match_fence, Hm.
  - cbn [greedy_star lstrip matches]. destruct (isspace c) eqn:Hc.
    + rewrite push_idle by exact Hm. rewrite IH.
      destruct (starts_with fence (lstrip s)) as [rest|]; [reflexivity|].
      rewrite match_fence by exact Hm.
      destruct (starts_with fence (String c s)) as [r|] eqn:Hr; [|reflexivity].
      apply starts_with_fence_head in Hr. congruence.
    + apply match_fence, Hm.
Qed.

(** White space before a fence is cut off with it. *)
Lemma cut_after_space s rest :
  starts_with fence (lstrip s) = Some rest ->
  exists ws, cut fence s = Some (ws, rest) /\ rstrip ws = EmptyString.
Proof.
  induction s as [|c s IH]; [discriminate|].
  cbn [lstrip]. destruct (isspace c) eqn:Hc.
  - intros H. destruct (IH H) as (ws & Hcut & Hws).
    exists (String c ws). split.
    + cbn [cut]. destruct (starts_with fence (String c s)) as [r|] eqn:Hr.
      * apply starts_with_fence_head in Hr. congruence.
      * rewrite Hcut. reflexivity.
    + rewrite rstrip_cons, Hws, Hc. reflexivity.
  - intros H. exists EmptyString. split; [|reflexivity].
    cbn [cut]. rewrite H. reflexivity.
Qed.

Lemma rstrip_empty_cons c s :
  rstrip (String c s) = EmptyString -> isspace c = true /\ rstrip s = EmptyString.
Proof.
  rewrite rstrip_cons. destruct (rstrip s); [|discriminate].
  destruct (isspace c); [auto | discriminate].
Qed.

Lemma space_before_fence s inner rest :
  cut fence s = Some (inner, rest) -> rstrip inner = EmptyString ->
  starts_with fence (lstrip s) = Some rest.
Proof.
  revert inner. induction s as [|c s IH]; intros inner; [discriminate|].
  cbn [cut]. destruct (starts_with fence (String c s)) as [r|] eqn:Hr.
  - intros [= <- <-] _. cbn [lstrip].
    rewrite (starts_with_fence_head _ _ _ Hr). exact Hr.
  - destruct (cut fence s) as [[before after]|] eqn:Hcut; [|discriminate].
    intros [= <- <-] Hws. apply rstrip_empty_cons in Hws as [Hc Hws].
    cbn [lstrip]. rewrite Hc. eapply IH; [reflexivity | exact Hws].
Qed.

(** After the group: [)\s*```]. *)
Definition after_group : string -> mstate -> option found :=
  match_here (GroupClose :: Star true Space :: lits fence).

Lemma after_group_spec s m :
  after_group s m =
  match starts_with fence (lstrip s) with
  | Some rest => Some (grp m, rest)
  | None => None
  end.
Proof. unfold after_group. cbn [match_here]. apply (closing_spec s (MState false (grp m))). reflexivity. Qed.

Lemma append_cons d a s : String d a ++ s = String d (a ++ s).
Proof. reflexivity. Qed.

Lemma append_snoc a c s : (a ++ String c EmptyString) ++ s = a ++ String c s.
Proof.
  induction a as [|d a IH]; [reflexivity|].
  rewrite !append_cons, IH. reflexivity.
Qed.

Lemma append_empty a : a ++ EmptyString = a.
Proof.
  induction a as [|d a IH]; [reflexivity|].
  rewrite append_cons, IH. reflexivity.
Qed.

(** The lazy group stops at the first fence and leaves out the white space
    before it. *)
Lemma lazy_group_spec s acc :
  lazy_star (matches Any) after_group s (MState true acc) =
  match cut fence s with
  | Some (inner, rest) => Some (acc ++ rstrip inner, rest)
  | None => None
  end.
Proof.
  revert acc. induction s as [|c s IH]; intros acc.
  - cbn [lazy_star]. rewrite after_group_spec. reflexivity.
  - cbn [lazy_star]. rewrite after_group_spec. cbn [grp].
    destruct (starts_with fence (lstrip (String c s))) as [rest|] eqn:Hclose.
    + destruct (cut_after_space _ _ Hclose) as (ws & -> & ->).
      rewrite append_empty. reflexivity.
    + cbn [matches push recording grp]. rewrite IH. cbn [cut].
      destruct (starts_with fence (String c s)) as [r|] eqn:Hr.
      { exfalso. cbn [lstrip] in Hclose.
        rewrite (starts_with_fence_head _ _ _ Hr) in Hclose. congruence. }
      destruct (cut fence s) as [[inner rest]|] eqn:Hcut; [|reflexivity].
      rewrite append_snoc. f_equal. f_equal. f_equal.
      rewrite rstrip_cons. destruct (rstrip inner) eqn:Hin; [|reflexivity].
      destruct (isspace c) eqn:Hc; [|reflexivity].
      exfalso. cbn [lstrip] in Hclose. rewrite Hc in Hclose.
      rewrite (space_before_fence _ _ _ Hcut Hin) in Hclose. discriminate.
Qed.

(** *** Fences that are not there *)

Lemma cut_none_tail c s : cut fence (String c s) = None -> cut fence s = None.
Proof.
  cbn [cut]. destruct (starts_with fence (String c s)); [discriminate|].
  destruct (cut fence s) as [[? ?]|]; [discriminate | reflexivity].
Qed.

(** The text of the group once the opening marker is passed: white space,
    the lazy group, white space and the closing fence. *)
Definition block_after (rest : string) : option found :=
  match cut fence rest with
  | Some (inner, after) => Some (strip inner, after)
  | None => None
  end.

Lemma match_block_body s m :
  recording m = false -> match_here block_body s m = block_after s.
Proof.
  intros Hm. unfold block_body. cbn [app match_here].
  assert (Hopen : forall t,
    lazy_star (matches Any)
      (fun s0 m0 =>
         greedy_star (matches Space) (match_here (lits "```")) s0 (MState false (grp m0)))
      t (MState true EmptyString) =
    match cut fence t with
    | Some (inner, after) => Some (rstrip inner, after)
    | None => None
    end).
  { intros t. exact (lazy_group_spec t EmptyString). }
  unfold block_after. induction s as [|c s IH].
  - cbn [greedy_star]. rewrite Hopen. reflexivity.
  - cbn [greedy_star matches]. destruct (isspace c) eqn:Hc.
    + rewrite push_idle by exact Hm. rewrite IH.
      destruct (cut fence s) as [[inner after]|] eqn:Hs.
      * cbn [cut]. destruct (starts_with fence (String c s)) as [r|] eqn:Hr.
        { apply starts_with_fence_head in Hr. congruence. }
        rewrite Hs. unfold strip. cbn [lstrip]. rewrite Hc. reflexivity.
      * rewrite Hopen. cbn [cut].
        destruct (starts_with fence (String c s)) as [r|] eqn:Hr.
        { apply starts_with_fence_head in Hr. congruence. }
        rewrite Hs. reflexivity.
    + rewrite Hopen.
      destruct (cut fence (String c s)) as [[inner after]|] eqn:Hs; [|reflexivity].
      f_equal. f_equal. unfold strip.
      cbn [cut] in Hs. destruct (starts_with fence (String c s)).
      * injection Hs as <- <-. reflexivity.
      * destruct (cut fence s) as [[? ?]|]; [|discriminate].
        injection Hs as <- <-. cbn [lstrip]. rewrite Hc. reflexivity.
Qed.

(** *** The leftmost match *)

Fixpoint skip (n : nat) (s : string) : string :=
  match n, s with
  | S n', String _ s' => skip n' s'
  | _, _ => s
  end.

Lemma skip_skip n k s : skip n (skip k s) = skip (k + n) s.
Proof.
  revert s. induction k as [|k IH]; intros s; [reflexivity|].
  destruct s as [|c s]; cbn [skip Nat.add].
  - destruct n; reflexivity.
  - apply IH.
Qed.

Lemma starts_with_skip p s r :
  starts_with p s = Some r -> r = skip (String.length p) s.
Proof.
  revert s. induction p as [|a p IH]; intros s.
  - destruct s; cbn; congruence.
  - destruct s as [|d s]; cbn [starts_with]; [discriminate|].
    destruct (Ascii.eqb a d); [|discriminate]. apply IH.
Qed.

Lemma cut_none_skip n s : cut fence s = None -> cut fence (skip n s) = None.
Proof.
  revert s. induction n as [|n IH]; intros s H; [destruct s; exact H|].
  destruct s as [|c s]; [exact H|]. cbn [skip]. apply IH.
  eapply cut_none_tail, H.
Qed.

Section Search.
Variable a : ascii.
Variable p : string.
Let marker := String a p.
Let pattern := app (lits marker) block_body.

Lemma match_marker s :
  match_here pattern s (MState false EmptyString) =
  match starts_with marker s with
  | Some r => block_after r
  | None => None
  end.
Proof.
  unfold pattern. rewrite match_lits by reflexivity.
  destruct (starts_with marker s); [|reflexivity].
  apply match_block_body. reflexivity.
Qed.

Lemma search_none s :
  cut fence (skip (String.length marker) s) = None -> search pattern s = None.
Proof.
  induction s as [|c s IH]; intros H; [reflexivity|].
  assert (Hs : cut fence (skip (String.length marker) s) = None).
  { change (String.length marker) with (S (String.length p)).
    replace (S (String.length p)) with (String.length p + 1) by lia.
    rewrite <- skip_skip. apply cut_none_skip. exact H. }
  cbn [search]. rewrite match_marker.
  destruct (starts_with marker (String c s)) as [r|] eqn:Hr; [|exact (IH Hs)].
  apply starts_with_skip in Hr. subst r. unfold block_after. rewrite H.
  exact (IH Hs).
Qed.

(** The leftmost match starts at the first marker, and there is one exactly
    when a fence follows that marker. *)
Lemma search_marker s :
  search pattern s =
  match cut marker s with
  | Some (_, rest) => block_after rest
  | None => None
  end.
Proof.
  induction s as [|c s IH]; [reflexivity|].
  cbn [cut]. destruct (starts_with marker (String c s)) as [r|] eqn:Hr.
  - destruct (block_after r) as [x|] eqn:Hb.
    + cbn [search]. rewrite match_marker, Hr, Hb. reflexivity.
    + apply search_none. rewrite <- (starts_with_skip _ _ _ Hr).
      unfold block_after in Hb. destruct (cut fence r) as [[? ?]|]; [discriminate | reflexivity].
  - cbn [search]. rewrite match_marker, Hr, IH.
    destruct (cut marker s) as [[? ?]|]; reflexivity.
Qed.

Lemma findall_marker s :
  findall_regex pattern s =
  match cut marker s with
  | Some (_, rest) =>
      match block_after rest with
      | Some (g, after) => g :: findall_from (String.length s) pattern after
      | None => []
      end
  | None => []
  end.
Proof.
  unfold findall_regex. cbn [findall_from]. rewrite search_marker.
  destruct (cut marker s) as [[? rest]|]; [|reflexivity].
  destruct (block_after rest) as [[g after]|]; reflexivity.
Qed.

End Search.

(** The first group found for a marker is the trimmed text between the
    marker and the next fence. *)
Lemma first_match_between a p s :
  match findall_regex (app (lits (String a p)) block_body) s with
  | m :: _ => Some (strip m)
  | [] => None
  end = strip <$> between (String a p) s.
Proof.
  rewrite findall_marker. unfold between, block_after.
  destruct (cut (String a p) s) as [[? rest]|]; [|reflexivity].
  destruct (cut fence rest) as [[inner after]|]; [|reflexivity].
  cbn. rewrite strip_idem. reflexivity.
Qed.

(** C6, amended: for every input, code extraction returns the trimmed text
    between the first [```python] marker and the next fence after it when
    there are both; otherwise the trimmed text between the first fence and
    the next fence after it when there are both (a tag other than [python]
    on the opening fence is part of that text); otherwise the whole input
    trimmed. *)
Theorem extract_python_code_by_markers (text : string) :
  extract_python_code text = extract_by_markers text.
Proof.
  unfold extract_python_code, extract_by_markers, findall.
  destruct patterns_compiled as [-> ->].
  pose proof (first_match_between "`" "``python" text) as Hpy.
  pose proof (first_match_between "`" "``" text) as Hany.
  change (app (lits "```python") block_body) with python_block in Hpy.
  change (app (lits "```") block_body) with generic_block in Hany.
  change (String "`" "``python") with python_fence in Hpy.
  change (String "`" "``") with fence in Hany.
  destruct (findall_regex python_block text) as [|m ms];
    destruct (between python_fence text) as [inner|]; try discriminate.
  - destruct (findall_regex generic_block text) as [|m' ms'];
      destruct (between fence text) as [inner'|]; try discriminate.
    + reflexivity.
    + injection Hany as ->. reflexivity.
  - injection Hpy as ->. reflexivity.
Qed.

(** A block tagged for another language. *)
Definition js_block : string :=
"```js
x
```".

(** C6 as stated fails: a text whose only block is tagged [js] has neither a
    [python] block nor an untagged one, so the whole text, trimmed, is
    expected; the code returns the tag and the inner text. *)
Lemma extract_python_code_keeps_foreign_tag :
  extract_reference js_block = js_block /\
  extract_python_code js_block = "js
x" /\
  extract_python_code js_block <> extract_reference js_block.
Proof. split; [reflexivity|]. split; [reflexivity|]. discriminate. Qed.

End extraction_facts.

(** ** The code-generation stage *)

Module codegen_facts.
Import graph codegen_tool.

Definition with_errors (code : string) (lineno : option Z) (msg : string) : update :=
  [("generated_code", Some code);
   ("current_step", Some "codegen_complete_with_errors");
   ("error",
    Some ("Code has syntax errors: Syntax error at line " ++ fmt_int lineno
          ++ ": " ++ msg))].

(** C4: when the code extracted from the response fails the syntax check,
    the stage returns that code under [generated_code], sets [current_step]
    to ["codegen_complete_with_errors"] and [error] to a text describing the
    syntax problem; the step is not ["error"]. *)
Theorem generate_code_keeps_invalid_code
    (compile : string -> compiled) (adapter_generate : request -> outcome string)
    (state : AgentState) (response : string) (lineno : option Z) (msg : string) :
  truthy (image_analysis state) = true ->
  adapter_generate (codegen_request state) = Returns response ->
  compile (extract_python_code response) = SyntaxError lineno msg ->
  let out := generate_code compile adapter_generate state in
  out = with_errors (extract_python_code response) lineno msg /\
  dict_get "generated_code" out = Some (Some (extract_python_code response)) /\
  dict_get "current_step" out = Some (Some "codegen_complete_with_errors") /\
  dict_get "error" out =
    Some (Some ("Code has syntax errors: Syntax error at line " ++ fmt_int lineno
                ++ ": " ++ msg)) /\
  step_is (merge state out) "error" = false.
Proof.
  intros Hana Hresp Hsyn out.
  assert (Hout : out = with_errors (extract_python_code response) lineno msg).
  { unfold out, generate_code, validate_code_syntax.
    rewrite Hana, Hresp, Hsyn. reflexivity. }
  rewrite Hout. repeat split; reflexivity.
Qed.

Definition compile_demo (code : string) : compiled :=
  if String.eqb code "x =" then SyntaxError (Some 1%Z) "invalid syntax"
  else CodeObject.

Definition response_demo : string :=
"```python
x =
```".

Definition state_demo : AgentState :=
  mkAgentState [Message (Some "plot it")] (Some "job-1") (Some "user-1")
    (Some "uploads/chart.png") (Some "png-bytes") (Some "image/png")
    (Some "a bar chart") (Some "use matplotlib") None None None
    (Some "planning_complete").

(** The theorem on a response whose code is [x =]. *)
Lemma generate_code_keeps_invalid_code_demo :
  let out := generate_code compile_demo (fun _ => Returns response_demo) state_demo in
  out = with_errors "x =" (Some 1%Z) "invalid syntax" /\
  dict_get "generated_code" out = Some (Some "x =") /\
  dict_get "current_step" out = Some (Some "codegen_complete_with_errors") /\
  dict_get "error" out =
    Some (Some "Code has syntax errors: Syntax error at line 1: invalid syntax") /\
  step_is (merge state_demo out) "error" = false.
Proof.
  exact (generate_code_keeps_invalid_code compile_demo (fun _ => Returns response_demo)
           state_demo response_demo (Some 1%Z) "invalid syntax"
           eq_refl eq_refl eq_refl).
Defined.

End codegen_facts.

(** ** The job lifecycle *)

Module tasks_facts.
Import graph jobs tasks.


Lemma truthy_set (x : option string) : truthy x = true -> is_set x = true.
Proof. destruct x as [[|c s]|]; simpl; congruence. Qed.

(** Both parts of the outcome rule for a terminal job. *)
Definition exactly_one_outcome (j : Job) : Prop :=
  (is_set (result_url j) = true <-> status j = COMPLETED) /\
  (is_set (error_message j) = true <-> status j = FAILED).


(** C5: when the workflow ends with [current_step]
    ["codegen_complete_with_errors"] and its error text set, the job is
    persisted as FAILED with that text as [error_message], nothing is
    uploaded and [result_url] is left as it was (unset); the code of the
    final state only appears in the returned dict. *)
Theorem invalid_code_fails_job (w : world) (job_id : string) (job : Job)
    (file : File) (image_data : string) (final_state : AgentState) :
  select_job w job_id = Some job ->
  select_file w (file_id job) = Some file ->
  download w (storage_path file) = Returns image_data ->
  run_agent w (agent_call_for job_id job file image_data) = Returns final_state ->
  current_step final_state = Some "codegen_complete_with_errors" ->
  truthy (error final_state) = true ->
  let r := _process_job_async w job_id in
  exists j,
    persisted r = Some j /\
    status j = FAILED /\
    error_message j = error final_state /\
    result_url j = result_url job /\
    uploads r = [] /\
    dict_get "generated_code" (fst r) = Some (generated_code final_state).
Proof.
  intros Hjob Hfile Hdown Hrun _ Herr r. unfold r, _process_job_async.
  rewrite Hjob. cbn [file_id set_status set_updated_at].
  rewrite Hfile, Hdown. cbn zeta. 
  change (agent_call_for job_id _ file image_data) with
    (agent_call_for job_id job file image_data).
  rewrite Hrun, Herr. eexists. repeat split.
Qed.


(** What a job that ended COMPLETED went through: its file was found and
    downloaded, the workflow returned a final state without error, and the
    generated code of that state decides the result: non-empty code was
    uploaded, once, under the result path of the job, which is the
    [result_url] of the row; with empty code, or none, nothing was uploaded
    and the row keeps the [result_url] it was picked up with. *)
Definition completed_by (w : world) (job_id : string) (job j : Job) (r : run) : Prop :=
  exists file image_data final_state,
    select_file w (file_id job) = Some file /\
    download w (storage_path file) = Returns image_data /\
    run_agent w (agent_call_for job_id job file image_data) = Returns final_state /\
    truthy (error final_state) = false /\
    result_url j =
      (if truthy (generated_code final_state)
       then Some (result_path_for job_id) else result_url job) /\
    uploads r =
      (if truthy (generated_code final_state)
       then [Upload (result_path_for job_id)
               (default EmptyString (generated_code final_state)) "text/x-python"]
       else []).

(** C1, amended: a job picked up with [result_url] and [error_message]
    unset ends in a terminal status; [error_message] is set if and only if
    it ended FAILED; [result_url] is set if and only if it ended COMPLETED
    and the workflow produced non-empty generated code, which was uploaded
    under the path that [result_url] then holds; a job that ended
    COMPLETED with empty generated code has neither set; the two are never
    both set. *)
Theorem outcome_of_terminal_job (w : world) (job_id : string) (job j : Job) :
  select_job w job_id = Some job ->
  result_url job = None ->
  error_message job = None ->
  let r := _process_job_async w job_id in
  persisted r = Some j ->
  is_terminal (status j) = true /\
  (is_set (error_message j) = true <-> status j = FAILED) /\
  (is_set (result_url j) = true <-> status j = COMPLETED /\ uploads r <> []) /\
  (status j = COMPLETED -> completed_by w job_id job j r) /\
  ~ (is_set (result_url j) = true /\ is_set (error_message j) = true).
Proof.
  intros Hjob Hurl Hmsg r. unfold r, _process_job_async, agent_failed, agent_done.
  rewrite Hjob. cbn [file_id set_status set_updated_at].
  destruct (select_file w (file_id job)) as [file|] eqn:Hfile.
  2:{ cbn. intros [= <-]. cbn. rewrite Hurl. repeat split; try discriminate.
      - intros [H _]; discriminate.
      - intros [H _]; discriminate. }
  destruct (download w (storage_path file)) as [image_data|e] eqn:Hdown.
  2:{ cbn. intros [= <-]. cbn. rewrite Hurl. repeat split; try discriminate.
      - intros [H _]; discriminate.
      - intros [H _]; discriminate. }
  cbn zeta.
  change (agent_call_for job_id _ file image_data)
    with (agent_call_for job_id job file image_data).
  destruct (run_agent w (agent_call_for job_id job file image_data))
    as [final_state|e] eqn:Hrun.
  2:{ cbn. intros [= <-]. cbn. rewrite Hurl. repeat split; try discriminate.
      - intros [H _]; discriminate.
      - intros [H _]; discriminate. }
  destruct (truthy (error final_state)) eqn:Herr.
  { cbn. intros [= <-]. cbn. rewrite Hurl. repeat split; try discriminate.
    - intros _. apply truthy_set, Herr.
    - intros [H _]; discriminate.
    - intros [H _]; discriminate. }
  destruct (truthy (generated_code final_state)) eqn:Hcode.
  2:{ cbn. intros [= <-]. cbn. rewrite Hurl, Hmsg. repeat split; try discriminate.
      - intros [_ H]; contradiction.
      - exists file, image_data, final_state. rewrite Hcode.
        repeat split; assumption || reflexivity.
      - intros [H _]; discriminate. }
  destruct (upload w (result_path_for job_id)
              (default EmptyString (generated_code final_state)) "text/x-python")
    as [[]|e] eqn:Hup.
  - cbn. intros [= <-]. cbn. rewrite Hmsg. repeat split; try discriminate.
    + exists file, image_data, final_state. rewrite Hcode.
      repeat split; assumption || reflexivity.
    + intros [_ H]; discriminate.
  - cbn. intros [= <-]. cbn. rewrite Hurl. repeat split; try discriminate.
    + intros [H _]; discriminate.
    + intros [H _]; discriminate.
Qed.



(** *** Concrete runs *)

Definition job_demo : Job :=
  mkJob "job-1" "user-1" "file-1" PENDING (Some "plot it") None None 1000.

Definition file_demo : File := mkFile "uploads/chart.png" "image/png".

(** A world with the job and its file in place, a working storage service,
    and a workflow given by its outcome. *)
Definition world_demo (agent : outcome AgentState) : world :=
  World (fun _ => Some job_demo) (fun _ => Some file_demo)
    (fun _ => Returns "png-bytes") (fun _ => agent)
    (fun _ _ _ => Returns tt) (fun n => (1001 + Z.of_nat n)%Z).

(** The final state of a workflow whose last stage answered [response]. *)
Definition final_state_demo (response : string) : AgentState :=
  merge codegen_facts.state_demo
    (codegen_tool.generate_code codegen_facts.compile_demo
       (fun _ => Returns response) codegen_facts.state_demo).

Definition valid_response : string :=
"```python
print(1)
```".

(** The state left by the failed syntax check carries its error text. *)
Lemma with_errors_sets_error compile adapter_generate state :
  current_step (merge state (codegen_tool.generate_code compile adapter_generate state))
    = Some "codegen_complete_with_errors" ->
  truthy (error (merge state (codegen_tool.generate_code compile adapter_generate state)))
    = true.
Proof.
  unfold codegen_tool.generate_code, codegen_tool.validate_code_syntax,
    codegen_tool.generation_failed.
  destruct (truthy (image_analysis state)); cbn [negb]; [|discriminate].
  destruct (adapter_generate (codegen_tool.codegen_request state)) as [response|e];
    [|discriminate].
  destruct (compile (codegen_tool.extract_python_code response)) as [|lineno msg|e];
    try discriminate.
  intros _. reflexivity.
Qed.

(** The theorem on a workflow that generated [x =]. *)
Lemma invalid_code_fails_job_demo :
  let r :=
    _process_job_async
      (world_demo (Returns (final_state_demo codegen_facts.response_demo))) "job-1" in
  exists j,
    persisted r = Some j /\
    status j = FAILED /\
    error_message j =
      Some "Code has syntax errors: Syntax error at line 1: invalid syntax" /\
    result_url j = None /\
    uploads r = [] /\
    dict_get "generated_code" (fst r) = Some (Some "x =").
Proof.
  exact (invalid_code_fails_job
           (world_demo (Returns (final_state_demo codegen_facts.response_demo)))
           "job-1" job_demo file_demo "png-bytes"
           (final_state_demo codegen_facts.response_demo)
           eq_refl eq_refl eq_refl eq_refl eq_refl eq_refl).
Defined.

(** The theorem on a workflow that generated valid code. *)
Lemma outcome_of_terminal_job_demo :
  let w := world_demo (Returns (final_state_demo valid_response)) in
  let j :=
    mkJob "job-1" "user-1" "file-1" COMPLETED (Some "plot it")
      (Some "results/job-1/generated_code.py") None 1002 in
  persisted (_process_job_async w "job-1") = Some j /\
  is_terminal (status j) = true /\
  (is_set (error_message j) = true <-> status j = FAILED) /\
  (is_set (result_url j) = true <->
   status j = COMPLETED /\ uploads (_process_job_async w "job-1") <> []) /\
  (status j = COMPLETED ->
   completed_by w "job-1" job_demo j (_process_job_async w "job-1")) /\
  ~ (is_set (result_url j) = true /\ is_set (error_message j) = true).
Proof.
  intros w j. split; [reflexivity|].
  exact (outcome_of_terminal_job w "job-1" job_demo j eq_refl eq_refl eq_refl eq_refl).
Defined.

(** C1 as stated fails: a workflow that ends without error and with empty
    generated code leaves the job COMPLETED with neither [result_url] nor
    [error_message] set. *)
Lemma completed_without_result :
  exists j,
    persisted (_process_job_async (world_demo (Returns (final_state_demo EmptyString)))
                 "job-1") = Some j /\
    status j = COMPLETED /\ result_url j = None /\ error_message j = None /\
    is_terminal (status j) = true /\ ~ exactly_one_outcome j.
Proof.
  eexists. split; [reflexivity|]. cbn. repeat split.
  intros [Hurl _]. apply proj2 in Hurl. specialize (Hurl eq_refl). discriminate.
Qed.

(** A failed job whose message says something. *)
Definition failure_is_described (j : Job) : Prop :=
  status j = FAILED -> exists m, error_message j = Some m /\ m <> EmptyString.

(** An exception that carries no text, as [TimeoutError()] is. *)
Definition silent : exn := Exn "TimeoutError" EmptyString.

(** A world in which the workflow generates valid code and the upload of
    that code raises the silent exception. *)
Definition world_upload_down : world :=
  World (fun _ => Some job_demo) (fun _ => Some file_demo)
    (fun _ => Returns "png-bytes")
    (fun _ => Returns (final_state_demo valid_response))
    (fun _ _ _ => Raises silent) (fun n => (1001 + Z.of_nat n)%Z).

(** A world in which the download raises the same exception. *)
Definition world_download_down : world :=
  World (fun _ => Some job_demo) (fun _ => Some file_demo)
    (fun _ => Raises silent)
    (fun _ => Returns (final_state_demo valid_response))
    (fun _ _ _ => Returns tt) (fun n => (1001 + Z.of_nat n)%Z).

(** C2 fails on the code: when the upload of the generated code raises an
    exception that carries no text, the job is persisted as FAILED with an
    empty [error_message], where the claim asks for a message that is not
    empty; the handler of the download, next to it, stores the same
    exception under a prefix, and so a message that says something. *)
Lemma failed_with_empty_message :
  (exists j,
     persisted (_process_job_async world_upload_down "job-1") = Some j /\
     status j = FAILED /\ error_message j = Some EmptyString /\
     ~ failure_is_described j) /\
  (exists j,
     persisted (_process_job_async world_download_down "job-1") = Some j /\
     status j = FAILED /\ error_message j = Some "Failed to download file: " /\
     failure_is_described j).
Proof.
  split.
  - eexists. split; [vm_compute; reflexivity|]. cbn. repeat split.
    intros H. destruct (H eq_refl) as (m & [= <-] & Hm). apply Hm. reflexivity.
  - eexists. split; [vm_compute; reflexivity|]. cbn. repeat split.
    intros _. eexists. split; [reflexivity | discriminate].
Qed.

End tasks_facts.

(** ** The rate limiter *)

Module rate_limiter_facts.
Import rate_limiter.

Lemma rate_key_inj a b : rate_key a = rate_key b -> a = b.
Proof. unfold rate_key. intros H. exact (String.app_inj _ _ _ H). Qed.

(** What the purge and the count leave behind on a client whose commands work. *)
Definition purged (self : RateLimiter) (now : Z) (identifier : string)
    (ks : gmap string zkey) : gmap string zkey :=
  match ks !! rate_key identifier with
  | None => ks
  | Some z =>
      let kept := survivors self now (members z) in
      if decide (kept = ∅) then delete (rate_key identifier) ks
      else <[rate_key identifier := ZKey kept (ttl z)]> ks
  end.

Lemma purged_other self now identifier ks k :
  k <> rate_key identifier -> purged self now identifier ks !! k = ks !! k.
Proof.
  intros Hk. unfold purged. destruct (ks !! rate_key identifier) as [z|]; [|reflexivity].
  case_decide.
  - rewrite lookup_delete_ne by congruence. reflexivity.
  - rewrite lookup_insert_ne by congruence. reflexivity.
Qed.

Definition ttl_at (key : string) (ks : gmap string zkey) : option Z :=
  match ks !! key with
  | Some z => ttl z
  | None => None
  end.

Lemma issue_run {A} (cmd : command)
    (act : gmap string zkey -> A * gmap string zkey) (c : client) :
  issue cmd act c =
  match fault c cmd with
  | Some e => (Raises e, c)
  | None => (Returns (act (keys c)).1, Client (act (keys c)).2 (fault c))
  end.
Proof.
  unfold issue. destruct (fault c cmd); [reflexivity|].
  destruct (act (keys c)); reflexivity.
Qed.

Lemma purge_keys self now identifier (ks : gmap string zkey) :
  (match ks !! rate_key identifier with
   | Some z =>
       let kept := filter (fun t => ¬ in_range 0 (now - window_seconds self) t) (members z) in
       let removed := (Z.of_nat (size (members z)) - Z.of_nat (size kept))%Z in
       if decide (kept = ∅) then (removed, delete (rate_key identifier) ks)
       else (removed, <[rate_key identifier := ZKey kept (ttl z)]> ks)
   | None => (0%Z, ks)
   end).2 = purged self now identifier ks.
Proof.
  unfold purged, survivors. destruct (ks !! rate_key identifier); [|reflexivity].
  cbn zeta. case_decide; reflexivity.
Qed.

Lemma count_keys identifier (c : client) :
  match keys c !! rate_key identifier with
  | Some z => (Z.of_nat (size (members z)), keys c)
  | None => (0%Z, keys c)
  end = (Z.of_nat (size (entries identifier c)), keys c).
Proof. unfold entries. destruct (keys c !! rate_key identifier); reflexivity. Qed.

Lemma add_keys identifier now (c : client) :
  (match keys c !! rate_key identifier with
   | Some z =>
       ((if decide (now ∈ members z) then 0 else 1)%Z,
        <[rate_key identifier := ZKey ({[now]} ∪ members z) (ttl z)]> (keys c))
   | None => (1%Z, <[rate_key identifier := ZKey {[now]} None]> (keys c))
   end).2
  = <[rate_key identifier :=
        ZKey ({[now]} ∪ entries identifier c) (ttl_at (rate_key identifier) (keys c))]>
      (keys c).
Proof.
  unfold entries, ttl_at. destruct (keys c !! rate_key identifier); [reflexivity|].
  cbn [snd]. rewrite (right_id_L ∅ (∪)). reflexivity.
Qed.

(** The run of [check], command by command. *)
Lemma check_runs self now identifier c :
  let key := rate_key identifier in
  let c1 := Client (purged self now identifier (keys c)) (fault c) in
  let kept := entries identifier c1 in
  let n := Z.of_nat (size kept) in
  check self now identifier c =
  match fault c ZREMRANGEBYSCORE with
  | Some e => (Raises e, c)
  | None =>
      match fault c ZCARD with
      | Some e => (Raises e, c1)
      | None =>
          if (n >=? requests_limit self)%Z then (Returns (false, 0%Z), c1)
          else
            match fault c ZADD with
            | Some e => (Raises e, c1)
            | None =>
                match fault c EXPIRE with
                | Some e =>
                    (Raises e,
                     Client (<[key := ZKey ({[now]} ∪ kept) (ttl_at key (keys c1))]> (keys c1))
                       (fault c))
                | None =>
                    (Returns (true, (requests_limit self - n - 1)%Z),
                     Client (<[key := ZKey ({[now]} ∪ kept) (Some (window_seconds self))]>
                               (keys c1))
                       (fault c))
                end
            end
      end
  end.
Proof.
  intros key c1 kept n. unfold check. cbv zeta. unfold key. clear key.
  unfold bind at 1. unfold zremrangebyscore. rewrite issue_run.
  destruct (fault c ZREMRANGEBYSCORE) as [e|]; [reflexivity|].
  rewrite purge_keys. fold c1.
  unfold bind at 1. unfold zcard. rewrite issue_run. cbn [fault c1].
  destruct (fault c ZCARD) as [e|]; [reflexivity|].
  rewrite count_keys. cbn [fst snd]. fold kept n.
  destruct (n >=? requests_limit self)%Z; [reflexivity|].
  unfold bind at 1. unfold zadd. rewrite issue_run. cbn [fault c1].
  destruct (fault c ZADD) as [e|]; [reflexivity|].
  rewrite add_keys. fold kept.
  unfold bind at 1. unfold expire. rewrite issue_run. cbn [fault keys].
  destruct (fault c EXPIRE) as [e|]; [reflexivity|].
  rewrite lookup_insert_eq. cbn [snd members]. rewrite insert_insert_eq.
  reflexivity.
Qed.

Lemma entries_purged_client self now identifier (c : client) :
  entries identifier (Client (purged self now identifier (keys c)) (fault c)) =
  survivors self now (entries identifier c).
Proof.
  unfold entries, purged. cbn [keys].
  destruct (keys c !! rate_key identifier) as [z|] eqn:Hz.
  - case_decide as Hkept.
    + rewrite lookup_delete_eq. symmetry. exact Hkept.
    + rewrite lookup_insert_eq. reflexivity.
  - rewrite Hz. unfold survivors. set_solver.
Qed.

(** C7, amended: on a reachable store whose entries are clock readings
    (not negative), and for a positive window, [is_allowed] first discards
    the entries at or before [now - window], the entry that is exactly one
    window old included; with [n] entries left, it denies with [(false, 0)]
    and records nothing when [n >= limit]; otherwise it records [now], sets
    the expiry of the identifier's key to the window and returns
    [(true, limit - n - 1)].  Another identifier has another key, which the
    call leaves as it was. *)
Theorem is_allowed_sliding_window (self : RateLimiter) (ks : gmap string zkey)
    (now : Z) (identifier : string) :
  let c := reachable ks in
  let kept := survivors self now (entries identifier c) in
  let n := Z.of_nat (size kept) in
  let answer := is_allowed self (Some c) now identifier in
  (0 < window_seconds self)%Z ->
  (forall t, t ∈ entries identifier c -> (0 <= t)%Z) ->
  (forall t, t ∈ kept <->
             t ∈ entries identifier c /\ (now - window_seconds self < t)%Z) /\
  exists c',
    answer.2 = Some c' /\
    ((requests_limit self <= n)%Z ->
       answer.1 = (false, 0%Z) /\ entries identifier c' = kept) /\
    ((n < requests_limit self)%Z ->
       answer.1 = (true, (requests_limit self - n - 1)%Z) /\
       entries identifier c' = {[now]} ∪ kept /\
       ttl_at (rate_key identifier) (keys c') = Some (window_seconds self)) /\
    (forall other, other <> identifier ->
       rate_key other <> rate_key identifier /\
       keys c' !! rate_key other = ks !! rate_key other /\
       entries other c' = entries other c).
Proof.
  intros c kept n answer Hwindow Hnonneg. split.
  { intros t. unfold kept, survivors. rewrite elem_of_filter. unfold in_range.
    split.
    - intros [Hout Hin]. split; [exact Hin|]. specialize (Hnonneg t Hin). lia.
    - intros [Hin Hlt]. split; [lia | exact Hin]. }
  assert (Hkeys : forall other, other <> identifier ->
            rate_key other <> rate_key identifier).
  { intros other Hne Heq. apply Hne, rate_key_inj, Heq. }
  unfold answer, is_allowed. rewrite check_runs.
  rewrite entries_purged_client. fold kept n.
  change (fault c) with (fun _ : command => @None exn).
  change (keys c) with ks. cbv beta.
  destruct (n >=? requests_limit self)%Z eqn:Hn.
  - eexists. split; [reflexivity|]. split; [|split].
    + intros _. split; [reflexivity|].
      exact (entries_purged_client self now identifier c).
    + intros Hlt. lia.
    + intros other Hne. pose proof (Hkeys other Hne) as Hk. split; [exact Hk|].
      cbn [keys]. assert (Hsame : purged self now identifier ks !! rate_key other
                                  = ks !! rate_key other)
        by (apply purged_other, Hk).
      split; [exact Hsame|]. unfold entries. cbn [keys]. rewrite Hsame. reflexivity.
  - eexists. split; [reflexivity|]. split; [|split].
    + intros Hle. lia.
    + intros _. split; [reflexivity|]. unfold entries, ttl_at. cbn [keys].
      rewrite lookup_insert_eq. split; reflexivity.
    + intros other Hne. pose proof (Hkeys other Hne) as Hk. split; [exact Hk|].
      cbn [keys]. assert (Hsame :
        <[rate_key identifier := ZKey ({[now]} ∪ kept) (Some (window_seconds self))]>
          (purged self now identifier ks) !! rate_key other = ks !! rate_key other).
      { rewrite lookup_insert_ne by congruence. apply purged_other, Hk. }
      split; [exact Hsame|]. unfold entries. cbn [keys]. rewrite Hsame. reflexivity.
Qed.

(** A command is issued by a call when the call reaches it: the purge and
    the count always, the recording and the expiry only below the limit. *)
Definition issued (self : RateLimiter) (now : Z) (identifier : string)
    (c : client) (cmd : command) : Prop :=
  match cmd with
  | ZREMRANGEBYSCORE | ZCARD => True
  | ZADD | EXPIRE =>
      (Z.of_nat (size (survivors self now (entries identifier c)))
       < requests_limit self)%Z
  end.

(** A command that raises when it is issued makes the body of the [try]
    block raise. *)
Lemma faulty_command_raises self now identifier (c : client) (cmd : command) (e : exn) :
  fault c cmd = Some e ->
  issued self now identifier c cmd ->
  exists e' c', check self now identifier c = (Raises e', c').
Proof.
  intros Hcmd Hissued. rewrite check_runs.
  rewrite entries_purged_client.
  destruct (fault c ZREMRANGEBYSCORE) as [e1|] eqn:H1; [eauto|].
  destruct (fault c ZCARD) as [e2|] eqn:H2; [eauto|].
  destruct cmd; try congruence; cbn [issued] in Hissued.
  - destruct (_ >=? _)%Z eqn:Hn; [lia|]. rewrite Hcmd. eauto.
  - destruct (_ >=? _)%Z eqn:Hn; [lia|].
    destruct (fault c ZADD); [eauto|]. rewrite Hcmd. eauto.
Qed.

(** The store is unavailable to a call: there is no connection object, or a
    command that the call issues raises. *)
Definition unavailable (self : RateLimiter) (redis : option client) (now : Z)
    (identifier : string) : Prop :=
  match redis with
  | None => True
  | Some c => exists cmd e, fault c cmd = Some e /\ issued self now identifier c cmd
  end.

(** C8: when the store is unavailable (no connection object, or a command
    of the call raises), [is_allowed] returns [(true, limit)]. *)
Theorem is_allowed_fails_open (self : RateLimiter) (redis : option client)
    (now : Z) (identifier : string) :
  unavailable self redis now identifier ->
  (is_allowed self redis now identifier).1 = (true, requests_limit self).
Proof.
  unfold unavailable, is_allowed. destruct redis as [c|]; [|reflexivity].
  intros (cmd & e & Hcmd & Hissued).
  destruct (faulty_command_raises self now identifier c cmd e Hcmd Hissued)
    as (e' & c' & ->).
  reflexivity.
Qed.

Lemma entries_other self now identifier other (ks : gmap string zkey) f :
  other <> identifier ->
  entries other (Client (purged self now identifier ks) f) = entries other (Client ks f).
Proof.
  intros Hne. unfold entries. cbn [keys]. rewrite purged_other; [reflexivity|].
  intros Heq. apply Hne, rate_key_inj, Heq.
Qed.

(** Clock readings that are not negative stay so: the hypothesis on the
    entries is an invariant of the limiter. *)
Lemma entries_stay_nonnegative self (ks : gmap string zkey) now identifier c' :
  (0 <= now)%Z ->
  (forall other t, t ∈ entries other (reachable ks) -> (0 <= t)%Z) ->
  (is_allowed self (Some (reachable ks)) now identifier).2 = Some c' ->
  forall other t, t ∈ entries other c' -> (0 <= t)%Z.
Proof.
  intros Hnow Hinv. unfold is_allowed. rewrite check_runs.
  change (fault (reachable ks)) with (fun _ : command => @None exn).
  change (keys (reachable ks)) with ks. cbv beta.
  assert (Hpurged : forall other t,
            t ∈ entries other (Client (purged self now identifier ks) (fun _ => None)) ->
            (0 <= t)%Z).
  { intros other t. destruct (decide (other = identifier)) as [->|Hne].
    - pose proof (entries_purged_client self now identifier (reachable ks)) as Heq.
      change (fault (reachable ks)) with (fun _ : command => @None exn) in Heq.
      change (keys (reachable ks)) with ks in Heq. rewrite Heq.
      unfold survivors. rewrite elem_of_filter. intros [_ Hin]. eapply Hinv, Hin.
    - rewrite entries_other by exact Hne. apply Hinv. }
  destruct (_ >=? _)%Z; cbn [snd]; intros [= <-]; [exact Hpurged|].
  intros other t. destruct (decide (other = identifier)) as [->|Hne].
  - unfold entries at 1. cbn [keys]. rewrite lookup_insert_eq. cbn [members].
    rewrite elem_of_union, elem_of_singleton. intros [->|Hin]; [exact Hnow|].
    eapply Hpurged, Hin.
  - unfold entries at 1. cbn [keys]. rewrite lookup_insert_ne.
    + apply (Hpurged other t).
    + intros Heq. apply Hne. symmetry. apply rate_key_inj, Heq.
Qed.

(** *** Concrete calls *)

Definition limiter_demo : RateLimiter := mkRateLimiter 10 60.

(** Five hits recorded for one identifier. *)
Definition store_demo : gmap string zkey :=
  {[ rate_key "alice" := ZKey (list_to_set [100; 110; 120; 130; 140]%Z) (Some 60%Z) ]}.

(** Ten hits recorded. *)
Definition store_full : gmap string zkey :=
  {[ rate_key "alice" :=
       ZKey (list_to_set [100; 101; 102; 103; 104; 105; 106; 107; 108; 109]%Z)
         (Some 60%Z) ]}.

Lemma store_demo_entries :
  entries "alice" (reachable store_demo) = list_to_set [100; 110; 120; 130; 140]%Z.
Proof.
  unfold entries, reachable, store_demo. cbn [keys].
  rewrite lookup_singleton_eq. reflexivity.
Qed.

(** The theorem on the sixth call within the window: allowed, four left. *)
Lemma is_allowed_sliding_window_demo :
  (0 < window_seconds limiter_demo)%Z /\
  (forall t, t ∈ entries "alice" (reachable store_demo) -> (0 <= t)%Z) /\
  (is_allowed limiter_demo (Some (reachable store_demo)) 150 "alice").1 = (true, 4%Z).
Proof.
  assert (Hwindow : (0 < window_seconds limiter_demo)%Z) by reflexivity.
  assert (Hnonneg : forall t, t ∈ entries "alice" (reachable store_demo) -> (0 <= t)%Z).
  { intros t. rewrite store_demo_entries. set_unfold. lia. }
  split; [exact Hwindow|]. split; [exact Hnonneg|].
  destruct (is_allowed_sliding_window limiter_demo store_demo 150 "alice" Hwindow Hnonneg)
    as (_ & c' & _ & _ & Hallow & _).
  destruct Hallow as [Hanswer _]; [vm_compute; reflexivity|].
  rewrite Hanswer. vm_compute. reflexivity.
Defined.

(** The eleventh call within the window is denied. *)
Example eleventh_call_denied :
  (is_allowed limiter_demo (Some (reachable store_full)) 110 "alice").1 = (false, 0%Z).
Proof. vm_compute. reflexivity. Qed.

(** The purge as the claim words it: only the entries older than
    [now - window] go, so that an entry exactly one window old stays. *)
Definition not_older (self : RateLimiter) (now : Z) (s : gset Z) : gset Z :=
  filter (fun t => (now - window_seconds self <= t)%Z) s.

(** The answer that the claim gives to a caller whose entries are [s]. *)
Definition stated_answer (self : RateLimiter) (now : Z) (s : gset Z) : bool * Z :=
  let n := Z.of_nat (size (not_older self now s)) in
  if (n >=? requests_limit self)%Z then (false, 0%Z)
  else (true, (requests_limit self - n - 1)%Z).

(** One hit, recorded at the reading 100. *)
Definition store_boundary : gmap string zkey :=
  {[ rate_key "alice" := ZKey {[100%Z]} (Some 60%Z) ]}.

(** C7 as stated fails: an entry that is exactly one window old is
    discarded too.  Under a limit of 1 and a window of 60, with one entry
    at 100, the call at 160 is allowed with 0 left, where the claim, which
    only discards what is older than [now - window], denies it. *)
Lemma boundary_entry_is_discarded :
  (is_allowed (mkRateLimiter 1 60) (Some (reachable store_boundary)) 160 "alice").1
    = (true, 0%Z) /\
  stated_answer (mkRateLimiter 1 60) 160 (entries "alice" (reachable store_boundary))
    = (false, 0%Z).
Proof. split; vm_compute; reflexivity. Qed.

(** A client whose server cannot be reached. *)
Definition client_down : client :=
  Client store_demo (fun _ => Some (Exn "ConnectionError" "Connection refused")).

(** The theorem without a connection object, and with a server that is
    down. *)
Lemma is_allowed_fails_open_demo :
  (is_allowed limiter_demo None 150 "alice").1 = (true, 10%Z) /\
  (is_allowed limiter_demo (Some client_down) 150 "alice").1 = (true, 10%Z).
Proof.
  split.
  - exact (is_allowed_fails_open limiter_demo None 150 "alice" I).
  - apply (is_allowed_fails_open limiter_demo (Some client_down) 150 "alice").
    exists ZCARD, (Exn "ConnectionError" "Connection refused").
    split; [reflexivity | exact I].
Defined.

End rate_limiter_facts.

(** ** The inference adapters *)

Module llm_adapter_facts.
Import codegen_tool llm_adapter.

Definition endpoint (self : adapter) : string := base_url self ++ "/chat/completions".

(** A transport failure that the handlers turn into a connection error. *)
Definition is_connection_failure (e : exn) : bool :=
  is_connect_error e || is_timeout e.

Lemma handlers_connection self e :
  is_connection_failure e = true ->
  exists e', connection_handlers self e = Some e' /\ is_connection_kind e' = true.
Proof.
  unfold is_connection_failure, connection_handlers. intros H.
  destruct (is_connect_error e); [eexists; split; reflexivity|].
  cbn [orb] in H. rewrite H. eexists; split; reflexivity.
Qed.

Lemma handlers_pass self e :
  is_connection_failure e = false -> connection_handlers self e = None.
Proof.
  unfold is_connection_failure, connection_handlers. intros H.
  apply orb_false_iff in H as [-> ->]. reflexivity.
Qed.


Section Kinds.
Variable b64encode : string -> string.
Variable post : string -> payload -> outcome response.
Variable self : adapter.
Variable req : request.
Variables image_data image_mime_type : string.



End Kinds.

(** *** Concrete calls *)

Definition adapter_demo : adapter :=
  Adapter "https://llm.example/v1" "deepseek" "secret".

Definition request_demo : request := Request "Say OK" None 70 2048.

(** An endpoint that rejects the request. *)
Definition post_rejecting (url : string) (p : payload) : outcome response :=
  Returns (Response 500 "overloaded" (Raises (Exn "JSONDecodeError" "Expecting value"))).

(** An endpoint that answers 200 with an empty list of choices. *)
Definition post_no_choice (url : string) (p : payload) : outcome response :=
  Returns (Response 200 "{}" (Returns (JObject [("choices", JArray [])]))).


(** C10 fails on the code: a 200 answer whose list of choices is empty is a
    malformed body, for which the claim asks a response error; both
    variants raise [IndexError] on it, which is neither of the two kinds.
    The handler of the text variant for a missing key shows that malformed
    bodies are meant to be reported as response errors. *)
Lemma empty_choices_untyped :
  text_generate post_no_choice adapter_demo request_demo
    = Raises (Exn "IndexError" "list index out of range") /\
  generate_with_image (fun s => s) post_no_choice adapter_demo request_demo
    "png-bytes" "image/png"
    = Raises (Exn "IndexError" "list index out of range") /\
  typed (Exn "IndexError" "list index out of range") = false.
Proof. repeat split. Qed.

End llm_adapter_facts.

(** * Further properties *)

(** ** The run of the workflow *)

Module workflow_facts.
Import graph codegen_tool workflow.

(** The model that a call goes to. *)
Inductive model_kind := VisionModel | ReasoningModel | CodeModel.

Definition kind_of (c : call) : model_kind :=
  match c with
  | Vision _ _ _ => VisionModel
  | Reasoning _ => ReasoningModel
  | Codegen _ => CodeModel
  end.

(** How a run ended: the final state and the calls it made. *)
Record ended (sv : services) (final : AgentState) (calls : list call) : Prop := Ended {
  ended_marker :
    current_step final = Some "error" \/
    current_step final = Some "codegen_complete" \/
    current_step final = Some "codegen_complete_with_errors";
  ended_error :
    truthy (error final) = negb (step_is final "codegen_complete");
  ended_calls :
    exists n, map kind_of calls = firstn n [VisionModel; ReasoningModel; CodeModel];
  ended_complete :
    step_is final "codegen_complete" = true ->
    length calls = 3 /\ truthy (image_analysis final) = true /\
    is_set (reasoning final) = true /\ error final = None /\
    exists code, generated_code final = Some code /\ py_compile sv code = CodeObject;
  ended_with_errors :
    step_is final "codegen_complete_with_errors" = true ->
    length calls = 3 /\
    exists code lineno msg,
      generated_code final = Some code /\ py_compile sv code = SyntaxError lineno msg
}.

Lemma run_from_entry sv (state : AgentState) :
  exists final calls,
    run_from sv recursion_limit entry_point state = Returns (final, calls) /\
    ended sv final calls.
Proof.
  unfold recursion_limit, entry_point. cbn [run_from].
  change (node_of sv "analyze_image") with (Some (analyze_image sv)).
  change (lookup_key "analyze_image" edges)
    with (Some [("plan_approach", "plan_approach"); (END, END)]).
  cbv beta iota. unfold analyze_image.
  destruct (truthy (image_data state)); cbn [negb].
  2:{ eexists _, _. split; [reflexivity|]. split; cbn; eauto; try discriminate.
      exists 0. reflexivity. }
  destruct (qwen sv _ _ _) as [analysis|e].
  2:{ eexists _, _. split; [reflexivity|]. split; cbn; eauto; try discriminate.
      exists 1. reflexivity. }
  set (st1 := merge state _).
  assert (Hst1 : should_continue st1 = "plan_approach") by reflexivity.
  rewrite Hst1.
  change (lookup_key "plan_approach" [("plan_approach", "plan_approach"); (END, END)])
    with (Some "plan_approach").
  cbv beta iota. change ("plan_approach" =? END)%string with false. cbv iota.
  cbn [run_from].
  change (node_of sv "plan_approach") with (Some (plan_approach sv)).
  change (lookup_key "plan_approach" edges)
    with (Some [("generate_code", "generate_code"); (END, END)]).
  cbv beta iota. unfold plan_approach.
  change (image_analysis st1) with (Some analysis).
  destruct (truthy (Some analysis)) eqn:Hanalysis; cbn [negb].
  2:{ eexists _, _. split; [reflexivity|]. split; cbn; eauto; try discriminate.
      exists 1. reflexivity. }
  destruct (llama sv _) as [plan|e].
  2:{ eexists _, _. split; [reflexivity|]. split; cbn; eauto; try discriminate.
      exists 2. reflexivity. }
  set (st2 := merge st1 _).
  assert (Hst2 : should_continue st2 = "generate_code") by reflexivity.
  rewrite Hst2.
  change (lookup_key "generate_code" [("generate_code", "generate_code"); (END, END)])
    with (Some "generate_code").
  cbv beta iota. change ("generate_code" =? END)%string with false. cbv iota.
  cbn [run_from].
  change (node_of sv "generate_code") with (Some (generate_code_step sv)).
  change (lookup_key "generate_code" edges) with (Some [(END, END)]).
  cbv beta iota. unfold generate_code_step, generate_code, validate_code_syntax.
  change (image_analysis st2) with (Some analysis). rewrite Hanalysis. cbn [negb].
  destruct (deepseek sv _) as [response|e].
  2:{ eexists _, _. split; [reflexivity|]. split; cbn; eauto; try discriminate.
      exists 3. reflexivity. }
  destruct (py_compile sv (extract_python_code response)) as [|lineno msg|e] eqn:Hcompile.
  - eexists _, _. split; [reflexivity|]. split; cbn; eauto; try discriminate.
    + exists 3. reflexivity.
    + intros _. repeat split; eauto.
  - eexists _, _. split; [reflexivity|]. split; cbn; eauto; try discriminate.
    + exists 3. reflexivity.
    + intros _. split; [reflexivity|]. eauto.
  - eexists _, _. split; [reflexivity|]. split; cbn; eauto; try discriminate.
    exists 3. reflexivity.
Qed.

(** X1: a run of the workflow never raises (no route outside the edge maps,
    no recursion limit): it returns a final state whose step is ["error"],
    ["codegen_complete"] or ["codegen_complete_with_errors"], and whose
    error text is set exactly when the step is not ["codegen_complete"]. *)
Theorem run_agent_ends (sv : services)
    (job_id user_id image_path image_data image_mime_type user_prompt : string) :
  exists final calls,
    run_agent sv job_id user_id image_path image_data image_mime_type user_prompt
      = Returns (final, calls) /\
    (current_step final = Some "error" \/
     current_step final = Some "codegen_complete" \/
     current_step final = Some "codegen_complete_with_errors") /\
    truthy (error final) = negb (step_is final "codegen_complete").
Proof.
  unfold run_agent.
  destruct (run_from_entry sv
              (initial_state job_id user_id image_path image_data image_mime_type
                 user_prompt)) as (final & calls & Hrun & Hend).
  exists final, calls. split; [exact Hrun|].
  split; [apply (ended_marker _ _ _ Hend) | apply (ended_error _ _ _ Hend)].
Qed.

(** X2: the inference calls of a run are an initial part of the sequence
    vision, reasoning, code: each model is called at most once, and a model
    is only called after the ones before it. *)
Theorem inference_calls_in_order (sv : services)
    (job_id user_id image_path image_data image_mime_type user_prompt : string)
    (final : AgentState) (calls : list call) :
  run_agent sv job_id user_id image_path image_data image_mime_type user_prompt
    = Returns (final, calls) ->
  exists n, map kind_of calls = firstn n [VisionModel; ReasoningModel; CodeModel].
Proof.
  unfold run_agent. intros Hrun.
  destruct (run_from_entry sv
              (initial_state job_id user_id image_path image_data image_mime_type
                 user_prompt)) as (final' & calls' & Hrun' & Hend).
  rewrite Hrun in Hrun'. injection Hrun' as Hfinal Hcalls. subst final' calls'.
  apply (ended_calls _ _ _ Hend).
Qed.

(** X3: a run that ends with ["codegen_complete"] has called the three
    models, and its final state holds a non-empty analysis, a plan and
    generated code that compiles. *)
Theorem complete_run_has_everything (sv : services)
    (job_id user_id image_path image_data image_mime_type user_prompt : string)
    (final : AgentState) (calls : list call) :
  run_agent sv job_id user_id image_path image_data image_mime_type user_prompt
    = Returns (final, calls) ->
  current_step final = Some "codegen_complete" ->
  length calls = 3 /\ truthy (image_analysis final) = true /\
  is_set (reasoning final) = true /\
  error final = None /\
  exists code, generated_code final = Some code /\ py_compile sv code = CodeObject.
Proof.
  unfold run_agent. intros Hrun Hstep.
  destruct (run_from_entry sv
              (initial_state job_id user_id image_path image_data image_mime_type
                 user_prompt)) as (final' & calls' & Hrun' & Hend).
  rewrite Hrun in Hrun'. injection Hrun' as Hfinal Hcalls. subst final' calls'.
  apply (ended_complete _ _ _ Hend).
  unfold step_is. rewrite Hstep. reflexivity.
Qed.

(** Without image bytes no model is called: the run ends at once with the
    step ["error"] and the text "No image data available for analysis". *)
Lemma no_image_no_inference (sv : services)
    (job_id user_id image_path image_mime_type user_prompt : string) :
  exists final,
    run_agent sv job_id user_id image_path EmptyString image_mime_type user_prompt
      = Returns (final, []) /\
    current_step final = Some "error" /\
    error final = Some "No image data available for analysis" /\
    image_analysis final = None /\ generated_code final = None.
Proof. eexists. repeat split. Qed.

(** The hint of a call: the free text that its prompt gives as the user's
    request. *)
Definition carries (hint : string) (c : call) : Prop :=
  match c with
  | Vision req _ _ => prompt req = VISION_USER_PROMPT_format hint
  | Reasoning req =>
      exists analysis, prompt req = REASONING_USER_PROMPT_format analysis hint
  | Codegen req =>
      exists analysis plan, prompt req = CODEGEN_USER_PROMPT_format analysis plan hint
  end.

Lemma or_default_truthy (x : string) (d : string) :
  truthy (Some x) = true -> or_default (Some x) d = x.
Proof. unfold or_default. intros ->. reflexivity. Qed.

Lemma run_from_entry_hint sv (state : AgentState) (hint : string) :
  latest_prompt (messages state) = Some hint ->
  truthy (Some hint) = true ->
  forall final calls,
    run_from sv recursion_limit entry_point state = Returns (final, calls) ->
    Forall (carries hint) calls.
Proof.
  intros Hlatest Hhint final calls.
  unfold recursion_limit, entry_point. cbn [run_from].
  change (node_of sv "analyze_image") with (Some (analyze_image sv)).
  change (lookup_key "analyze_image" edges)
    with (Some [("plan_approach", "plan_approach"); (END, END)]).
  cbv beta iota. unfold analyze_image.
  assert (Hvision : prompt (vision_request state) = VISION_USER_PROMPT_format hint).
  { unfold vision_request. rewrite Hlatest. cbn [prompt].
    rewrite or_default_truthy by exact Hhint. reflexivity. }
  destruct (truthy (image_data state)); cbn [negb].
  2:{ intros [= <- <-]. constructor. }
  destruct (qwen sv _ _ _) as [analysis|e].
  2:{ intros [= <- <-]. repeat constructor. exact Hvision. }
  set (st1 := merge state _).
  assert (Hst1 : should_continue st1 = "plan_approach") by reflexivity.
  rewrite Hst1.
  change (lookup_key "plan_approach" [("plan_approach", "plan_approach"); (END, END)])
    with (Some "plan_approach").
  cbv beta iota. change ("plan_approach" =? END)%string with false. cbv iota.
  cbn [run_from].
  change (node_of sv "plan_approach") with (Some (plan_approach sv)).
  change (lookup_key "plan_approach" edges)
    with (Some [("generate_code", "generate_code"); (END, END)]).
  cbv beta iota. unfold plan_approach.
  assert (Hplan : exists a, prompt (reasoning_request st1)
                            = REASONING_USER_PROMPT_format a hint).
  { unfold reasoning_request. change (messages st1) with (messages state).
    rewrite Hlatest. cbn [prompt]. rewrite or_default_truthy by exact Hhint. eauto. }
  change (image_analysis st1) with (Some analysis).
  destruct (truthy (Some analysis)) eqn:Hanalysis; cbn [negb].
  2:{ intros [= <- <-]. repeat constructor. exact Hvision. }
  destruct (llama sv _) as [plan|e].
  2:{ intros [= <- <-]. repeat constructor; assumption. }
  set (st2 := merge st1 _).
  assert (Hst2 : should_continue st2 = "generate_code") by reflexivity.
  rewrite Hst2.
  change (lookup_key "generate_code" [("generate_code", "generate_code"); (END, END)])
    with (Some "generate_code").
  cbv beta iota. change ("generate_code" =? END)%string with false. cbv iota.
  cbn [run_from].
  change (node_of sv "generate_code") with (Some (generate_code_step sv)).
  change (lookup_key "generate_code" edges) with (Some [(END, END)]).
  cbv beta iota. unfold generate_code_step.
  assert (Hcode : exists a p, prompt (codegen_request st2)
                              = CODEGEN_USER_PROMPT_format a p hint).
  { unfold codegen_request. change (messages st2) with (messages state).
    rewrite Hlatest. cbn [prompt]. rewrite or_default_truthy by exact Hhint. eauto. }
  change (image_analysis st2) with (Some analysis). rewrite Hanalysis.
  set (u := generate_code _ _ st2).
  assert (Hroute : lookup_key (should_continue (merge st2 u)) [(END, END)] = Some END).
  { unfold u, generate_code, validate_code_syntax.
    change (image_analysis st2) with (Some analysis). rewrite Hanalysis. cbn [negb].
    destruct (deepseek sv _); [|reflexivity].
    destruct (py_compile sv _); reflexivity. }
  rewrite Hroute. change (END =? END)%string with true. cbv iota.
  intros [= <- <-]. repeat constructor; assumption.
Qed.

(** *** Concrete runs *)

(** Three models that answer, the code model with a block that compiles. *)
Definition services_demo : services :=
  Services (fun _ _ _ => Returns "a bar chart") (fun _ => Returns "use matplotlib")
    (fun _ => Returns tasks_facts.valid_response) codegen_facts.compile_demo.

Lemma run_of_services_demo :
  exists final calls,
    run_agent services_demo "job-1" "user-1" "uploads/chart.png" "png-bytes"
      "image/png" "plot it" = Returns (final, calls) /\
    current_step final = Some "codegen_complete".
Proof. eexists _, _. split; vm_compute; reflexivity. Qed.

(** The theorem on a run in which every model answers. *)
Lemma inference_calls_in_order_demo :
  exists final calls,
    run_agent services_demo "job-1" "user-1" "uploads/chart.png" "png-bytes"
      "image/png" "plot it" = Returns (final, calls) /\
    exists n, map kind_of calls = firstn n [VisionModel; ReasoningModel; CodeModel].
Proof.
  destruct run_of_services_demo as (final & calls & Hrun & _).
  exists final, calls. split; [exact Hrun|].
  exact (inference_calls_in_order services_demo "job-1" "user-1" "uploads/chart.png"
           "png-bytes" "image/png" "plot it" final calls Hrun).
Defined.

(** The theorem on the same run, which ends with ["codegen_complete"]. *)
Lemma complete_run_has_everything_demo :
  exists final calls,
    run_agent services_demo "job-1" "user-1" "uploads/chart.png" "png-bytes"
      "image/png" "plot it" = Returns (final, calls) /\
    current_step final = Some "codegen_complete" /\
    length calls = 3 /\ truthy (image_analysis final) = true /\
    is_set (reasoning final) = true /\ error final = None /\
    exists code,
      generated_code final = Some code /\ py_compile services_demo code = CodeObject.
Proof.
  destruct run_of_services_demo as (final & calls & Hrun & Hstep).
  exists final, calls. split; [exact Hrun|]. split; [exact Hstep|].
  exact (complete_run_has_everything services_demo "job-1" "user-1"
           "uploads/chart.png" "png-bytes" "image/png" "plot it" final calls Hrun Hstep).
Defined.

End workflow_facts.

(** ** The task on top of the workflow *)

Module pipeline_facts.
Import graph jobs codegen_tool tasks workflow workflow_facts.

Lemma or_default_nonempty (x : option string) (c : ascii) (d : string) :
  truthy (Some (or_default x (String c d))) = true.
Proof.
  unfold or_default. destruct x as [[|a s]|]; reflexivity.
Qed.

(** X5: through the task every model receives the same hint: the prompt of
    the job, or the task's own default when the job has none or an empty
    one.  The defaults that the stages hold for a missing hint are never
    sent. *)
Theorem task_hint_reaches_every_stage (sv : services) (job_id : string)
    (job : Job) (file : File) (image_data : string) (c : call) :
  In c (calls_of sv (agent_call_for job_id job file image_data)) ->
  carries
    (or_default (prompt job) "Analyze this image and generate useful Python code.") c.
Proof.
  unfold calls_of, workflow.run_agent, agent_call_for.
  cbn [call_job_id call_user_id call_image_path call_image_data
       call_image_mime_type call_user_prompt].
  set (hint := or_default (prompt job) _).
  assert (Hhint : truthy (Some hint) = true) by apply or_default_nonempty.
  destruct (run_from sv recursion_limit entry_point _) as [[final calls]|e] eqn:Hrun;
    [|intros []].
  intros Hin.
  refine (proj1 (List.Forall_forall _ _) _ c Hin).
  eapply (run_from_entry_hint sv _ hint); [| exact Hhint | exact Hrun].
  unfold initial_state. cbn [messages]. rewrite Hhint. reflexivity.
Qed.

(** X6: processed through the workflow, a job ends COMPLETED only when the
    three models have been called and the run ended with
    ["codegen_complete"], its generated code compiling. *)
Theorem completed_job_ran_every_stage (sv : services) (w : world)
    (job_id : string) (job j : Job) :
  tasks.run_agent w = agent_of sv ->
  select_job w job_id = Some job ->
  persisted (_process_job_async w job_id) = Some j ->
  status j = COMPLETED ->
  exists file image_data final code,
    select_file w (file_id job) = Some file /\
    download w (storage_path file) = Returns image_data /\
    agent_of sv (agent_call_for job_id job file image_data) = Returns final /\
    length (calls_of sv (agent_call_for job_id job file image_data)) = 3 /\
    current_step final = Some "codegen_complete" /\
    generated_code final = Some code /\ py_compile sv code = CodeObject.
Proof.
  intros Hagent Hjob. unfold _process_job_async, agent_failed, agent_done.
  rewrite Hjob, Hagent. cbn [file_id set_status set_updated_at].
  destruct (select_file w (file_id job)) as [file|] eqn:Hfile;
    [|cbn; intros [= <-]; discriminate].
  destruct (download w (storage_path file)) as [image_data|e] eqn:Hdown;
    [|cbn; intros [= <-]; discriminate].
  cbn zeta.
  change (agent_call_for job_id _ file image_data)
    with (agent_call_for job_id job file image_data).
  set (c := agent_call_for job_id job file image_data).
  unfold agent_of, calls_of, workflow.run_agent.
  destruct (run_from_entry sv
              (initial_state (call_job_id c) (call_user_id c) (call_image_path c)
                 (call_image_data c) (call_image_mime_type c) (call_user_prompt c)))
    as (final & calls & Hrun & Hend).
  rewrite Hrun.
  pose proof (ended_error _ _ _ Hend) as Herr.
  destruct (truthy (error final)) eqn:Htruthy; [cbn; intros [= <-]; discriminate|].
  assert (Hmark : step_is final "codegen_complete" = true)
    by (destruct (step_is final "codegen_complete"); [reflexivity | discriminate]).
  destruct (ended_complete _ _ _ Hend Hmark) as (Hlen & _ & _ & _ & code & Hcode & Hok).
  assert (Hstep : current_step final = Some "codegen_complete").
  { unfold step_is in Hmark. destruct (current_step final) as [s|]; [|discriminate].
    apply String.eqb_eq in Hmark. congruence. }
  intros _ _. exists file, image_data, final, code.
  fold c. repeat split; try assumption; try reflexivity.
  - rewrite Hrun. reflexivity.
  - rewrite Hrun. exact Hlen.
Qed.

(** *** Concrete runs *)

(** The world of the task with the workflow in the place of [run_agent]. *)
Definition world_of (sv : services) (job : Job) : world :=
  World (fun _ => Some job) (fun _ => Some tasks_facts.file_demo)
    (fun _ => Returns "png-bytes") (agent_of sv)
    (fun _ _ _ => Returns tt) (fun n => (1001 + Z.of_nat n)%Z).

Definition call_demo : agent_call :=
  agent_call_for "job-1" tasks_facts.job_demo tasks_facts.file_demo "png-bytes".

(** The theorem on the first call of a run for a job whose prompt is
    ["plot it"]. *)
Lemma task_hint_reaches_every_stage_demo :
  exists c rest,
    calls_of services_demo call_demo = c :: rest /\ carries "plot it" c.
Proof.
  destruct (calls_of services_demo call_demo) as [|c rest] eqn:Hcalls;
    [vm_compute in Hcalls; discriminate|].
  exists c, rest. split; [reflexivity|].
  apply (task_hint_reaches_every_stage services_demo "job-1" tasks_facts.job_demo
           tasks_facts.file_demo "png-bytes" c).
  fold call_demo. rewrite Hcalls. left. reflexivity.
Defined.

(** The theorem on a job that the three models complete. *)
Lemma completed_job_ran_every_stage_demo :
  let w := world_of services_demo tasks_facts.job_demo in
  let j :=
    mkJob "job-1" "user-1" "file-1" COMPLETED (Some "plot it")
      (Some "results/job-1/generated_code.py") None 1002 in
  persisted (_process_job_async w "job-1") = Some j /\
  exists file image_data final code,
    select_file w (file_id tasks_facts.job_demo) = Some file /\
    download w (storage_path file) = Returns image_data /\
    agent_of services_demo (agent_call_for "job-1" tasks_facts.job_demo file image_data)
      = Returns final /\
    length (calls_of services_demo
              (agent_call_for "job-1" tasks_facts.job_demo file image_data)) = 3 /\
    current_step final = Some "codegen_complete" /\
    generated_code final = Some code /\ py_compile services_demo code = CodeObject.
Proof.
  intros w j.
  assert (Hrow : persisted (_process_job_async w "job-1") = Some j)
    by (vm_compute; reflexivity).
  split; [exact Hrow|].
  exact (completed_job_ran_every_stage services_demo w "job-1" tasks_facts.job_demo j
           eq_refl eq_refl Hrow eq_refl).
Defined.

End pipeline_facts.

Module pipeline_failure_facts.
Import graph jobs codegen_tool tasks workflow workflow_facts pipeline_facts.

(** The state in which the task starts the workflow. *)
Definition state_for (c : agent_call) : AgentState :=
  initial_state (call_job_id c) (call_user_id c) (call_image_path c)
    (call_image_data c) (call_image_mime_type c) (call_user_prompt c).

(** The state after a successful image analysis. *)
Definition analysed (c : agent_call) (analysis : string) : AgentState :=
  merge (state_for c)
    [("image_analysis", Some analysis); ("current_step", Some "analyze_complete");
     ("error", None)].

(** How a run ends when the vision or the reasoning model fails. *)
Lemma run_stops_at_failure sv (c : agent_call) :
  truthy (Some (call_image_data c)) = true ->
  let start := state_for c in
  let seen :=
    Vision (vision_request start) (call_image_data c) (call_image_mime_type c) in
  (forall e,
     qwen sv (vision_request start) (call_image_data c) (call_image_mime_type c)
       = Raises e ->
     exists final,
       run_from sv recursion_limit entry_point start = Returns (final, [seen]) /\
       error final = Some ("Image analysis failed: " ++ exn_str e)) /\
  (forall analysis,
     qwen sv (vision_request start) (call_image_data c) (call_image_mime_type c)
       = Returns analysis ->
     (truthy (Some analysis) = false ->
      exists final,
        run_from sv recursion_limit entry_point start = Returns (final, [seen]) /\
        error final = Some "No image analysis available for planning") /\
     (truthy (Some analysis) = true ->
      forall e,
        llama sv (reasoning_request (analysed c analysis)) = Raises e ->
        exists final,
          run_from sv recursion_limit entry_point start
            = Returns (final, [seen; Reasoning (reasoning_request (analysed c analysis))]) /\
          error final = Some ("Planning failed: " ++ exn_str e))).
Proof.
  intros Hdata start seen.
  assert (Hstart : truthy (image_data start) = true) by exact Hdata.
  assert (Hbytes : default EmptyString (image_data start) = call_image_data c)
    by reflexivity.
  assert (Hmime : default "image/png" (image_mime_type start) = call_image_mime_type c)
    by reflexivity.
  split.
  - intros e Hq. unfold recursion_limit, entry_point. cbn [run_from].
    change (node_of sv "analyze_image") with (Some (analyze_image sv)).
    change (lookup_key "analyze_image" edges)
      with (Some [("plan_approach", "plan_approach"); (END, END)]).
    cbv beta iota. unfold analyze_image. rewrite Hstart. cbn [negb].
    rewrite Hbytes, Hmime, Hq. eexists. split; reflexivity.
  - intros analysis Hq. split.
    + intros Hempty. unfold recursion_limit, entry_point. cbn [run_from].
      change (node_of sv "analyze_image") with (Some (analyze_image sv)).
      change (lookup_key "analyze_image" edges)
        with (Some [("plan_approach", "plan_approach"); (END, END)]).
      cbv beta iota. unfold analyze_image. rewrite Hstart. cbn [negb].
      rewrite Hbytes, Hmime, Hq.
      set (st1 := merge start _).
      change st1 with (analysed c analysis). clear st1.
      assert (Hst1 : should_continue (analysed c analysis) = "plan_approach") by reflexivity.
      rewrite Hst1.
      change (lookup_key "plan_approach" [("plan_approach", "plan_approach"); (END, END)])
        with (Some "plan_approach").
      cbv beta iota. change ("plan_approach" =? END)%string with false. cbv iota.
      cbn [run_from].
      change (node_of sv "plan_approach") with (Some (plan_approach sv)).
      change (lookup_key "plan_approach" edges)
        with (Some [("generate_code", "generate_code"); (END, END)]).
      cbv beta iota. unfold plan_approach.
      change (image_analysis (analysed c analysis)) with (Some analysis).
      rewrite Hempty. cbn [negb]. eexists. split; reflexivity.
    + intros Hfull e Hl. unfold recursion_limit, entry_point. cbn [run_from].
      change (node_of sv "analyze_image") with (Some (analyze_image sv)).
      change (lookup_key "analyze_image" edges)
        with (Some [("plan_approach", "plan_approach"); (END, END)]).
      cbv beta iota. unfold analyze_image. rewrite Hstart. cbn [negb].
      rewrite Hbytes, Hmime, Hq.
      set (st1 := merge start _).
      change st1 with (analysed c analysis). clear st1.
      assert (Hst1 : should_continue (analysed c analysis) = "plan_approach") by reflexivity.
      rewrite Hst1.
      change (lookup_key "plan_approach" [("plan_approach", "plan_approach"); (END, END)])
        with (Some "plan_approach").
      cbv beta iota. change ("plan_approach" =? END)%string with false. cbv iota.
      cbn [run_from].
      change (node_of sv "plan_approach") with (Some (plan_approach sv)).
      change (lookup_key "plan_approach" edges)
        with (Some [("generate_code", "generate_code"); (END, END)]).
      cbv beta iota. unfold plan_approach.
      change (image_analysis (analysed c analysis)) with (Some analysis).
      rewrite Hfull. cbn [negb]. rewrite Hl. eexists. split; reflexivity.
Qed.

Lemma failed_run_fails_job sv (w : world) (job_id : string) (job : Job)
    (file : File) (image_data : string) (final : AgentState) (calls : list call)
    (message : string) :
  tasks.run_agent w = agent_of sv ->
  select_job w job_id = Some job ->
  select_file w (file_id job) = Some file ->
  download w (storage_path file) = Returns image_data ->
  run_from sv recursion_limit entry_point
    (state_for (agent_call_for job_id job file image_data)) = Returns (final, calls) ->
  error final = Some message ->
  truthy (Some message) = true ->
  calls_of sv (agent_call_for job_id job file image_data) = calls /\
  uploads (_process_job_async w job_id) = [] /\
  exists j,
    persisted (_process_job_async w job_id) = Some j /\
    status j = FAILED /\ error_message j = Some message.
Proof.
  intros Hagent Hjob Hfile Hdown Hrun Herror Htruthy.
  split; [unfold calls_of, workflow.run_agent; fold (state_for (agent_call_for job_id job file image_data)); rewrite Hrun; reflexivity|].
  unfold _process_job_async, agent_done.
  rewrite Hjob. cbn [file_id set_status set_updated_at]. rewrite Hfile, Hdown.
  cbn zeta.
  change (agent_call_for job_id _ file image_data)
    with (agent_call_for job_id job file image_data).
  rewrite Hagent. unfold agent_of, workflow.run_agent.
  fold (state_for (agent_call_for job_id job file image_data)). rewrite Hrun.
  rewrite Herror, Htruthy. split; [reflexivity|].
  eexists. split; [reflexivity|]. split; reflexivity.
Qed.

(** X4: processed through the workflow, a job whose stored file is empty
    ends FAILED with the message "No image data available for analysis":
    no model is called and nothing is uploaded. *)
Theorem empty_image_fails_job (sv : services) (w : world) (job_id : string)
    (job : Job) (file : File) :
  tasks.run_agent w = agent_of sv ->
  select_job w job_id = Some job ->
  select_file w (file_id job) = Some file ->
  download w (storage_path file) = Returns EmptyString ->
  calls_of sv (agent_call_for job_id job file EmptyString) = [] /\
  uploads (_process_job_async w job_id) = [] /\
  exists j,
    persisted (_process_job_async w job_id) = Some j /\
    status j = FAILED /\
    error_message j = Some "No image data available for analysis".
Proof.
  intros Hagent Hjob Hfile Hdown.
  destruct (no_image_no_inference sv job_id (user_id job) (storage_path file)
              (content_type file)
              (or_default (prompt job)
                 "Analyze this image and generate useful Python code."))
    as (final & Hrun & _ & Herror & _).
  exact (failed_run_fails_job sv w job_id job file EmptyString final [] _
           Hagent Hjob Hfile Hdown Hrun Herror eq_refl).
Qed.

(** X7: processed through the workflow, a job whose image was downloaded
    ends FAILED at the first stage that fails, with that stage's message
    and nothing uploaded: after a failing vision call no other model is
    called and the message is the text of the failure after "Image analysis
    failed: "; an empty analysis fails the job without a call to the
    reasoning model; after a failing reasoning call the code model is not
    called and the message starts with "Planning failed: ". *)
Theorem failing_stage_fails_job (sv : services) (w : world) (job_id : string)
    (job : Job) (file : File) (image_data : string) :
  tasks.run_agent w = agent_of sv ->
  select_job w job_id = Some job ->
  select_file w (file_id job) = Some file ->
  download w (storage_path file) = Returns image_data ->
  truthy (Some image_data) = true ->
  let c := agent_call_for job_id job file image_data in
  let asked := vision_request (state_for c) in
  let ends_with kinds message :=
    map kind_of (calls_of sv c) = kinds /\
    uploads (_process_job_async w job_id) = [] /\
    exists j,
      persisted (_process_job_async w job_id) = Some j /\
      status j = FAILED /\ error_message j = Some message in
  (forall e,
     qwen sv asked image_data (content_type file) = Raises e ->
     ends_with [VisionModel] ("Image analysis failed: " ++ exn_str e)) /\
  (qwen sv asked image_data (content_type file) = Returns EmptyString ->
     ends_with [VisionModel] "No image analysis available for planning") /\
  (forall analysis e,
     qwen sv asked image_data (content_type file) = Returns analysis ->
     truthy (Some analysis) = true ->
     llama sv (reasoning_request (analysed c analysis)) = Raises e ->
     ends_with [VisionModel; ReasoningModel] ("Planning failed: " ++ exn_str e)).
Proof.
  intros Hagent Hjob Hfile Hdown Hdata c asked ends_with.
  destruct (run_stops_at_failure sv c Hdata) as [Hvision Hlater].
  change (call_image_data c) with image_data in Hvision, Hlater.
  change (call_image_mime_type c) with (content_type file) in Hvision, Hlater.
  fold asked in Hvision, Hlater.
  split; [|split].
  - intros e Hq. destruct (Hvision e Hq) as (final & Hrun & Herror).
    destruct (failed_run_fails_job sv w job_id job file image_data final _ _
                Hagent Hjob Hfile Hdown Hrun Herror eq_refl) as (Hcalls & Hup & Hrow).
    unfold ends_with. fold c in Hcalls. rewrite Hcalls. repeat split; assumption.
  - intros Hq. destruct (proj1 (Hlater _ Hq) eq_refl) as (final & Hrun & Herror).
    destruct (failed_run_fails_job sv w job_id job file image_data final _ _
                Hagent Hjob Hfile Hdown Hrun Herror eq_refl) as (Hcalls & Hup & Hrow).
    unfold ends_with. fold c in Hcalls. rewrite Hcalls. repeat split; assumption.
  - intros analysis e Hq Hfull Hl.
    destruct (proj2 (Hlater _ Hq) Hfull e Hl) as (final & Hrun & Herror).
    destruct (failed_run_fails_job sv w job_id job file image_data final _ _
                Hagent Hjob Hfile Hdown Hrun Herror eq_refl) as (Hcalls & Hup & Hrow).
    unfold ends_with. fold c in Hcalls. rewrite Hcalls. repeat split; assumption.
Qed.

(** *** A concrete run *)

Definition refused : exn :=
  Exn "LLMConnectionError" "Failed to connect to qwen: connection refused".

(** The vision model cannot be reached. *)
Definition services_down : services :=
  Services (fun _ _ _ => Raises refused) (fun _ => Returns "use matplotlib")
    (fun _ => Returns tasks_facts.valid_response) codegen_facts.compile_demo.

(** The theorem on a job whose vision call fails. *)
Lemma failing_stage_fails_job_demo :
  let w := world_of services_down tasks_facts.job_demo in
  map kind_of (calls_of services_down call_demo) = [VisionModel] /\
  uploads (_process_job_async w "job-1") = [] /\
  exists j,
    persisted (_process_job_async w "job-1") = Some j /\
    status j = FAILED /\
    error_message j
      = Some "Image analysis failed: Failed to connect to qwen: connection refused".
Proof.
  intros w.
  destruct (failing_stage_fails_job services_down w "job-1" tasks_facts.job_demo
              tasks_facts.file_demo "png-bytes" eq_refl eq_refl eq_refl eq_refl eq_refl)
    as [Hvision _].
  exact (Hvision refused eq_refl).
Defined.

(** A world in which the stored file is empty. *)
Definition world_empty_file : world :=
  World (fun _ => Some tasks_facts.job_demo) (fun _ => Some tasks_facts.file_demo)
    (fun _ => Returns EmptyString) (agent_of services_demo)
    (fun _ _ _ => Returns tt) (fun n => (1001 + Z.of_nat n)%Z).

(** The theorem on that world. *)
Lemma empty_image_fails_job_demo :
  calls_of services_demo
    (agent_call_for "job-1" tasks_facts.job_demo tasks_facts.file_demo EmptyString) = [] /\
  uploads (_process_job_async world_empty_file "job-1") = [] /\
  exists j,
    persisted (_process_job_async world_empty_file "job-1") = Some j /\
    status j = FAILED /\
    error_message j = Some "No image data available for analysis".
Proof.
  exact (empty_image_fails_job services_demo world_empty_file "job-1"
           tasks_facts.job_demo tasks_facts.file_demo eq_refl eq_refl eq_refl eq_refl).
Defined.

End pipeline_failure_facts.

Module tasks_more_facts.
Import graph jobs tasks.

(** X8: the task never clears a column of the row.  A job that is picked
    up again keeps what an earlier run left: when it ends COMPLETED its
    [error_message] is the one it had when picked up, and when it ends
    FAILED its [result_url] is the one it had. *)
Theorem rerun_keeps_old_columns (w : world) (job_id : string) (job j : Job) :
  select_job w job_id = Some job ->
  persisted (_process_job_async w job_id) = Some j ->
  (status j = COMPLETED -> error_message j = error_message job) /\
  (status j = FAILED -> result_url j = result_url job) /\
  id j = id job /\ user_id j = user_id job /\ file_id j = file_id job /\
  prompt j = prompt job.
Proof.
  intros Hjob. unfold _process_job_async, agent_failed, agent_done. rewrite Hjob.
  cbn [file_id set_status set_updated_at].
  destruct (select_file w (file_id job)) as [file|];
    [|cbn; intros [= <-]; repeat split; discriminate].
  destruct (download w (storage_path file)) as [image_data|e];
    [|cbn; intros [= <-]; repeat split; discriminate].
  cbn zeta.
  destruct (run_agent w _) as [final|e];
    [|cbn; intros [= <-]; repeat split; discriminate].
  destruct (truthy (error final));
    [cbn; intros [= <-]; repeat split; discriminate|].
  destruct (truthy (generated_code final));
    [|cbn; intros [= <-]; repeat split; discriminate].
  destruct (upload w _ _ _) as [[]|e];
    cbn; intros [= <-]; repeat split; discriminate.
Qed.

(** A job that failed before and is picked up again. *)
Definition job_retried : Job :=
  mkJob "job-1" "user-1" "file-1" FAILED (Some "plot it") None
    (Some "Image analysis failed: timeout") 1000.

Definition world_retried : world :=
  World (fun _ => Some job_retried) (fun _ => Some tasks_facts.file_demo)
    (fun _ => Returns "png-bytes")
    (fun _ => Returns (tasks_facts.final_state_demo tasks_facts.valid_response))
    (fun _ _ _ => Returns tt) (fun n => (1001 + Z.of_nat n)%Z).

(** The theorem on a second run that succeeds: the row is COMPLETED and
    still carries the message of the first run. *)
Lemma rerun_keeps_old_columns_demo :
  let j :=
    mkJob "job-1" "user-1" "file-1" COMPLETED (Some "plot it")
      (Some "results/job-1/generated_code.py")
      (Some "Image analysis failed: timeout") 1002 in
  persisted (_process_job_async world_retried "job-1") = Some j /\
  error_message j = Some "Image analysis failed: timeout".
Proof.
  intros j.
  assert (Hrow : persisted (_process_job_async world_retried "job-1") = Some j)
    by (vm_compute; reflexivity).
  split; [exact Hrow|].
  destruct (rerun_keeps_old_columns world_retried "job-1" job_retried j eq_refl Hrow)
    as [Hkept _].
  exact (Hkept eq_refl).
Defined.

End tasks_more_facts.

(** ** The rate limiter and its middleware *)

Module rate_limiter_more_facts.
Import rate_limiter rate_limiter_facts.

Lemma size_survivors self now (s : gset Z) : size (survivors self now s) <= size s.
Proof. apply subseteq_size. unfold survivors. intros t Ht. apply elem_of_filter in Ht. tauto. Qed.

Lemma size_recorded now (s : gset Z) : size ({[now]} ∪ s) <= S (size s).
Proof.
  rewrite size_union_alt, size_singleton.
  assert (Hsub : s ∖ {[now]} ⊆ s)
    by (intros t Ht; apply elem_of_difference in Ht; tauto).
  apply subseteq_size in Hsub. lia.
Qed.

(** The answer of a call and the entries it leaves, whatever the client. *)
Lemma is_allowed_runs self (c : client) now identifier :
  let kept := survivors self now (entries identifier c) in
  let n := Z.of_nat (size kept) in
  exists c',
    (is_allowed self (Some c) now identifier).2 = Some c' /\
    ((is_allowed self (Some c) now identifier).1 = (false, 0%Z) /\
       (requests_limit self <= n)%Z /\
       (entries identifier c' = kept \/ entries identifier c' = entries identifier c)
     \/
     (is_allowed self (Some c) now identifier).1 = (true, (requests_limit self - n - 1)%Z) /\
       (n < requests_limit self)%Z /\ entries identifier c' = {[now]} ∪ kept
     \/
     (is_allowed self (Some c) now identifier).1 = (true, requests_limit self) /\
       (entries identifier c' = entries identifier c \/
        entries identifier c' = kept \/
        (n < requests_limit self)%Z /\ entries identifier c' = {[now]} ∪ kept)).
Proof.
  intros kept n. unfold is_allowed. rewrite check_runs.
  rewrite entries_purged_client. fold kept n.
  destruct (fault c ZREMRANGEBYSCORE) as [e|].
  { eexists. split; [reflexivity|]. right; right. split; [reflexivity|]. left. reflexivity. }
  destruct (fault c ZCARD) as [e|].
  { eexists. split; [reflexivity|]. right; right. split; [reflexivity|]. right; left.
    apply entries_purged_client. }
  destruct (n >=? requests_limit self)%Z eqn:Hn.
  { eexists. split; [reflexivity|]. left. split; [reflexivity|]. split; [lia|]. left.
    apply entries_purged_client. }
  destruct (fault c ZADD) as [e|].
  { eexists. split; [reflexivity|]. right; right. split; [reflexivity|]. right; left.
    apply entries_purged_client. }
  destruct (fault c EXPIRE) as [e|].
  - eexists. split; [reflexivity|]. right; right. split; [reflexivity|]. right; right.
    split; [lia|]. unfold entries. cbn [keys]. rewrite lookup_insert_eq. reflexivity.
  - eexists. split; [reflexivity|]. right; left. split; [reflexivity|].
    split; [lia|]. unfold entries. cbn [keys]. rewrite lookup_insert_eq. reflexivity.
Qed.

(** X9: whatever the state of the store, the remaining capacity that
    [is_allowed] reports for a limit that is not negative lies between 0 and
    the limit, and is 0 when the request is denied. *)
Theorem remaining_within_limit (self : RateLimiter) (redis : option client)
    (now : Z) (identifier : string) :
  (0 <= requests_limit self)%Z ->
  let answer := (is_allowed self redis now identifier).1 in
  (0 <= answer.2 <= requests_limit self)%Z /\
  (answer.1 = false -> answer.2 = 0%Z).
Proof.
  intros Hlimit. destruct redis as [c|]; [|cbn; split; [lia | discriminate]].
  destruct (is_allowed_runs self c now identifier)
    as (c' & _ & [(-> & _) | [(-> & Hn & _) | (-> & _)]]); cbn [fst snd].
  - split; [lia | reflexivity].
  - split; [lia | discriminate].
  - split; [lia | discriminate].
Qed.

(** X10: a call never leaves more entries for its identifier than the limit,
    unless there were more before it: the number of entries after the call
    is at most the larger of the limit and the number before. *)
Theorem entries_within_capacity (self : RateLimiter) (c c' : client) (now : Z)
    (identifier : string) :
  (is_allowed self (Some c) now identifier).2 = Some c' ->
  (Z.of_nat (size (entries identifier c'))
   <= Z.max (requests_limit self) (Z.of_nat (size (entries identifier c))))%Z.
Proof.
  intros Hc'.
  pose proof (size_survivors self now (entries identifier c)) as Hkept.
  pose proof (size_recorded now (survivors self now (entries identifier c))) as Hrec.
  destruct (is_allowed_runs self c now identifier) as (c1 & Hc1 & Hcases).
  rewrite Hc' in Hc1. injection Hc1 as <-.
  destruct Hcases as [(_ & _ & [-> | ->]) | [(_ & Hn & ->) | (_ & [-> | [-> | (Hn & ->)]])]];
    lia.
Qed.

(** X11: failing open is not atomic.  When the purge, the count and the
    recording work and only EXPIRE raises, the call answers
    [(true, limit)] although the attempt has been recorded; a key that the
    recording created is left without expiry. *)
Theorem expire_failure_keeps_entry (self : RateLimiter) (c : client) (now : Z)
    (identifier : string) (e : exn) :
  fault c ZREMRANGEBYSCORE = None -> fault c ZCARD = None ->
  fault c ZADD = None -> fault c EXPIRE = Some e ->
  (Z.of_nat (size (survivors self now (entries identifier c))) < requests_limit self)%Z ->
  exists c',
    is_allowed self (Some c) now identifier = ((true, requests_limit self), Some c') /\
    entries identifier c' = {[now]} ∪ survivors self now (entries identifier c) /\
    (survivors self now (entries identifier c) = ∅ ->
     ttl_at (rate_key identifier) (keys c') = None).
Proof.
  intros Hrem Hcard Hadd Hexp Hn. unfold is_allowed. rewrite check_runs.
  rewrite entries_purged_client, Hrem, Hcard, Hadd, Hexp.
  destruct (_ >=? _)%Z eqn:Hge; [lia|].
  eexists. split; [reflexivity|]. cbn [keys]. split.
  - unfold entries. cbn [keys]. rewrite lookup_insert_eq. reflexivity.
  - intros Hempty. unfold ttl_at at 1. rewrite lookup_insert_eq. cbn [ttl].
    unfold ttl_at, purged, entries in *.
    destruct (keys c !! rate_key identifier) as [z|] eqn:Hz.
    + rewrite decide_True by exact Hempty. rewrite lookup_delete_eq. reflexivity.
    + rewrite Hz. reflexivity.
Qed.

(** X12: for a positive window, once every entry of an identifier is a
    window old, the next call is allowed with [limit - 1] left, and its
    reading is the only entry. *)
Theorem allowed_again_after_window (self : RateLimiter) (ks : gmap string zkey)
    (now : Z) (identifier : string) :
  (0 < window_seconds self)%Z ->
  (0 < requests_limit self)%Z ->
  (forall t, t ∈ entries identifier (reachable ks) ->
             (0 <= t <= now - window_seconds self)%Z) ->
  exists c',
    is_allowed self (Some (reachable ks)) now identifier
      = ((true, (requests_limit self - 1)%Z), Some c') /\
    entries identifier c' = {[now]}.
Proof.
  intros Hwindow Hlimit Hold.
  assert (Hkept : survivors self now (entries identifier (reachable ks)) = ∅).
  { unfold survivors. apply set_eq. intros t. rewrite elem_of_filter.
    split; [|intros Hempty; apply elem_of_empty in Hempty; contradiction].
    intros [Hout Hin]. exfalso. apply Hout, Hold, Hin. }
  unfold is_allowed. rewrite check_runs.
  rewrite entries_purged_client, Hkept.
  change (fault (reachable ks)) with (fun _ : command => @None exn). cbv beta.
  assert (Hsize : Z.of_nat (size (∅ : gset Z)) = 0%Z)
    by (rewrite size_empty; reflexivity).
  rewrite Hsize, Z.sub_0_r.
  destruct (0 >=? requests_limit self)%Z eqn:Hge; [exfalso; lia|].
  eexists. split; [reflexivity|]. unfold entries. cbn [keys].
  rewrite lookup_insert_eq. cbn [members]. apply (right_id_L ∅ (∪)).
Qed.

(** X13: calls at one clock reading count once.  When the reading is already
    among the surviving entries, an allowed call adds no entry. *)
Theorem repeated_reading_counts_once (self : RateLimiter) (ks : gmap string zkey)
    (now : Z) (identifier : string) :
  let kept := survivors self now (entries identifier (reachable ks)) in
  now ∈ kept ->
  (Z.of_nat (size kept) < requests_limit self)%Z ->
  exists c',
    is_allowed self (Some (reachable ks)) now identifier
      = ((true, (requests_limit self - Z.of_nat (size kept) - 1)%Z), Some c') /\
    entries identifier c' = kept.
Proof.
  intros kept Hin Hn. unfold is_allowed. rewrite check_runs.
  rewrite entries_purged_client. fold kept.
  change (fault (reachable ks)) with (fun _ : command => @None exn). cbv beta.
  destruct (_ >=? _)%Z eqn:Hge; [lia|].
  eexists. split; [reflexivity|]. unfold entries. cbn [keys].
  rewrite lookup_insert_eq. cbn [members].
  apply subseteq_union_1_L, singleton_subseteq_l, Hin.
Qed.

(** *** Concrete calls *)

(** The theorem on the sixth call within the window. *)
Lemma remaining_within_limit_demo :
  let answer := (is_allowed limiter_demo (Some (reachable store_demo)) 150 "alice").1 in
  (0 <= answer.2 <= 10)%Z /\ (answer.1 = false -> answer.2 = 0%Z).
Proof.
  apply (remaining_within_limit limiter_demo (Some (reachable store_demo)) 150 "alice").
  vm_compute. discriminate.
Defined.

(** The theorem on the same call: six entries afterwards, below the limit. *)
Lemma entries_within_capacity_demo :
  exists c',
    (is_allowed limiter_demo (Some (reachable store_demo)) 150 "alice").2 = Some c' /\
    (Z.of_nat (size (entries "alice" c'))
     <= Z.max 10 (Z.of_nat (size (entries "alice" (reachable store_demo)))))%Z.
Proof.
  destruct ((is_allowed limiter_demo (Some (reachable store_demo)) 150 "alice").2)
    as [c'|] eqn:Hafter; [|vm_compute in Hafter; discriminate].
  exists c'. split; [reflexivity|].
  exact (entries_within_capacity limiter_demo (reachable store_demo) c' 150 "alice" Hafter).
Defined.

Definition timed_out : exn := Exn "TimeoutError" "Timeout reading from socket".

(** A client on which only EXPIRE fails, and no entry for the caller. *)
Definition client_expire_down : client :=
  Client store_demo
    (fun cmd => match cmd with EXPIRE => Some timed_out | _ => None end).

(** The theorem on a first call by ["bob"]: recorded, answered with the
    full limit, and the new key has no expiry. *)
Lemma expire_failure_keeps_entry_demo :
  exists c',
    is_allowed limiter_demo (Some client_expire_down) 150 "bob" = ((true, 10%Z), Some c') /\
    entries "bob" c' = {[150%Z]} ∪ survivors limiter_demo 150 (entries "bob" client_expire_down) /\
    (survivors limiter_demo 150 (entries "bob" client_expire_down) = ∅ ->
     ttl_at (rate_key "bob") (keys c') = None).
Proof.
  apply (expire_failure_keeps_entry limiter_demo client_expire_down 150 "bob" timed_out
           eq_refl eq_refl eq_refl eq_refl).
  vm_compute. reflexivity.
Defined.

(** The theorem on a call made after the five entries have left the
    window. *)
Lemma allowed_again_after_window_demo :
  exists c',
    is_allowed limiter_demo (Some (reachable store_demo)) 300 "alice"
      = ((true, 9%Z), Some c') /\
    entries "alice" c' = {[300%Z]}.
Proof.
  apply (allowed_again_after_window limiter_demo store_demo 300 "alice").
  - reflexivity.
  - vm_compute. reflexivity.
  - intros t. rewrite store_demo_entries. cbn [window_seconds limiter_demo].
    set_unfold. lia.
Defined.

(** The theorem on a second call at the reading 140. *)
Lemma repeated_reading_counts_once_demo :
  let kept := survivors limiter_demo 140 (entries "alice" (reachable store_demo)) in
  exists c',
    is_allowed limiter_demo (Some (reachable store_demo)) 140 "alice"
      = ((true, (10 - Z.of_nat (size kept) - 1)%Z), Some c') /\
    entries "alice" c' = kept.
Proof.
  apply (repeated_reading_counts_once limiter_demo store_demo 140 "alice").
  - unfold survivors. apply elem_of_filter. split.
    + unfold in_range. cbn [window_seconds limiter_demo]. lia.
    + rewrite store_demo_entries. set_unfold. lia.
  - vm_compute. reflexivity.
Defined.

End rate_limiter_more_facts.

Module rate_limiter_bursts_facts.
Import rate_limiter rate_limiter_facts rate_limiter_bursts.

Lemma survivors_all self now (s : gset Z) :
  (forall t, t ∈ s -> (now - window_seconds self < t)%Z) ->
  survivors self now s = s.
Proof.
  intros Hrecent. unfold survivors. apply set_eq. intros t. rewrite elem_of_filter.
  split; [tauto|]. intros Hin. split; [|exact Hin].
  unfold in_range. specialize (Hrecent t Hin). lia.
Qed.

Lemma serve_countdown self identifier (lo : Z) (readings : list Z) :
  StronglySorted Z.lt readings ->
  Forall (fun t => (lo < t <= lo + window_seconds self)%Z) readings ->
  forall ks : gmap string zkey,
    (forall t, t ∈ entries identifier (reachable ks) ->
               (lo < t)%Z /\ Forall (fun now => (t < now)%Z) readings) ->
    (serve self identifier readings (reachable ks)).1 =
    countdown self (size (entries identifier (reachable ks))) (length readings).
Proof.
  induction 1 as [|now rest Hsorted IH Hfirst]; intros Hwindow ks Hentries;
    [reflexivity|].
  apply Forall_cons in Hwindow as [Hnow Hwindow].
  assert (Hkept : survivors self now (entries identifier (reachable ks))
                  = entries identifier (reachable ks)).
  { apply survivors_all. intros t Ht. destruct (Hentries t Ht) as [Hlo _]. lia. }
  cbn [serve length countdown]. unfold is_allowed. rewrite check_runs.
  rewrite entries_purged_client, Hkept.
  change (fault (reachable ks)) with (fun _ : command => @None exn). cbv beta.
  set (E := entries identifier (reachable ks)) in *.
  rewrite Z.geb_leb.
  destruct (Z.ltb_spec (Z.of_nat (size E)) (requests_limit self)) as [Hlt|Hge].
  - rewrite (proj2 (Z.leb_gt _ _)) by lia.
    set (ks' := <[rate_key identifier := _]> _).
    change (Client ks' (fun _ => None)) with (reachable ks').
    assert (HE' : entries identifier (reachable ks') = {[now]} ∪ E).
    { unfold entries at 1. unfold reachable at 1, ks'. cbn [keys].
      rewrite lookup_insert_eq. reflexivity. }
    assert (Hfresh : now ∉ E).
    { intros Hin. destruct (Hentries now Hin) as [_ Hbefore].
      apply Forall_cons in Hbefore as [Hbefore _]. lia. }
    specialize (IH Hwindow ks').
    destruct (serve self identifier rest (reachable ks')) as [answers c''] eqn:Hserve.
    cbn [fst] in *. rewrite IH.
    + rewrite HE', size_union, size_singleton
        by (apply disjoint_singleton_l; exact Hfresh).
      reflexivity.
    + intros t. rewrite HE', elem_of_union, elem_of_singleton. intros [->|Ht].
      * split; [lia|]. clear -Hfirst. induction Hfirst; constructor; auto.
      * destruct (Hentries t Ht) as [Hlo Hbefore].
        apply Forall_cons in Hbefore as [_ Hbefore]. split; assumption.
  - rewrite (proj2 (Z.leb_le _ _)) by lia.
    set (ks' := purged self now identifier (keys (reachable ks))).
    change (Client ks' (fun _ => None)) with (reachable ks').
    assert (HE' : entries identifier (reachable ks') = E).
    { pose proof (entries_purged_client self now identifier (reachable ks)) as Heq.
      fold E in Heq. rewrite Hkept in Heq. exact Heq. }
    specialize (IH Hwindow ks').
    destruct (serve self identifier rest (reachable ks')) as [answers c''] eqn:Hserve.
    cbn [fst] in *. rewrite IH.
    + rewrite HE'. reflexivity.
    + intros t. rewrite HE'. intros Ht. destruct (Hentries t Ht) as [Hlo Hbefore].
      apply Forall_cons in Hbefore as [_ Hbefore]. split; assumption.
Qed.

Lemma countdown_lookup self (calls used i : nat) :
  i < calls ->
  countdown self used calls !! i =
  Some (if (Z.of_nat (used + i) <? requests_limit self)%Z
        then (true, (requests_limit self - Z.of_nat (used + i) - 1)%Z)
        else (false, 0%Z)).
Proof.
  revert used i. induction calls as [|calls IH]; intros used i Hi; [lia|].
  cbn [countdown].
  destruct (Z.ltb_spec (Z.of_nat used) (requests_limit self)) as [Hlt|Hge].
  - destruct i as [|i].
    + cbn. rewrite Nat.add_0_r. rewrite (proj2 (Z.ltb_lt _ _)) by exact Hlt. reflexivity.
    + cbn [lookup list_lookup]. rewrite IH by lia.
      replace (S used + i) with (used + S i) by lia. reflexivity.
  - destruct i as [|i].
    + cbn. rewrite Nat.add_0_r. rewrite (proj2 (Z.ltb_ge _ _)) by exact Hge. reflexivity.
    + cbn [lookup list_lookup]. rewrite IH by lia.
      rewrite !(proj2 (Z.ltb_ge _ _)) by lia. reflexivity.
Qed.

(** X14: a burst within one window.  For an identifier without entries and
    calls at increasing clock readings that all lie within one window, the
    call number [i] (from 0) is allowed with [limit - i - 1] left as long as
    [i < limit], and every later call is denied with 0 left. *)
Theorem burst_within_window (self : RateLimiter) (ks : gmap string zkey)
    (identifier : string) (lo : Z) (readings : list Z) (i : nat) :
  entries identifier (reachable ks) = ∅ ->
  StronglySorted Z.lt readings ->
  Forall (fun t => (lo < t <= lo + window_seconds self)%Z) readings ->
  i < length readings ->
  (serve self identifier readings (reachable ks)).1 !! i =
  Some (if (Z.of_nat i <? requests_limit self)%Z
        then (true, (requests_limit self - Z.of_nat i - 1)%Z)
        else (false, 0%Z)).
Proof.
  intros Hempty Hsorted Hwindow Hi.
  rewrite (serve_countdown self identifier lo readings Hsorted Hwindow ks).
  - rewrite Hempty, size_empty. apply (countdown_lookup self (length readings) 0 i Hi).
  - intros t. rewrite Hempty. intros Ht. apply elem_of_empty in Ht. contradiction.
Qed.

(** The theorem on three calls in a row under a limit of two: the third is
    denied. *)
Lemma burst_within_window_demo :
  (serve (mkRateLimiter 2 60) "bob" [101; 102; 103]%Z (reachable ∅)).1 !! 2
  = Some (false, 0%Z).
Proof.
  apply (burst_within_window (mkRateLimiter 2 60) ∅ "bob" 100 [101; 102; 103]%Z 2).
  - reflexivity.
  - repeat constructor; lia.
  - repeat constructor; cbn; lia.
  - cbn. lia.
Defined.

End rate_limiter_bursts_facts.

Module middleware_facts.
Import rate_limiter rate_limiter_facts middleware.

Lemma find_filter_other (key k0 : string) (hs : headers) :
  k0 <> key ->
  List.find (fun kv => String.eqb (fst kv) k0)
    (List.filter (fun kv => negb (String.eqb (fst kv) key)) hs)
  = List.find (fun kv => String.eqb (fst kv) k0) hs.
Proof.
  intros Hne. induction hs as [|[k v] hs IH]; [reflexivity|].
  cbn [List.filter List.find fst].
  destruct (String.eqb_spec k key) as [->|Hk]; cbn [negb].
  - destruct (String.eqb_spec key k0) as [<-|_]; [congruence | exact IH].
  - cbn [List.find fst]. destruct (String.eqb k k0); [reflexivity | exact IH].
Qed.

Lemma find_replace_same (key value : string) (hs : headers) :
  List.find (fun kv => String.eqb (fst kv) key) (replace_header key value hs)
  = Some (key, value).
Proof.
  induction hs as [|[k v] hs IH]; cbn [replace_header List.find fst].
  - rewrite String.eqb_refl. reflexivity.
  - destruct (String.eqb_spec k key) as [->|Hk]; cbn [List.find fst].
    + rewrite String.eqb_refl. reflexivity.
    + destruct (String.eqb_spec k key); [contradiction | exact IH].
Qed.

Lemma find_replace_other (key value k0 : string) (hs : headers) :
  k0 <> key ->
  List.find (fun kv => String.eqb (fst kv) k0) (replace_header key value hs)
  = List.find (fun kv => String.eqb (fst kv) k0) hs.
Proof.
  intros Hne. induction hs as [|[k v] hs IH]; cbn [replace_header List.find fst].
  - destruct (String.eqb_spec key k0); [congruence | reflexivity].
  - destruct (String.eqb_spec k key) as [->|Hk]; cbn [List.find fst].
    + destruct (String.eqb_spec key k0); [congruence|].
      apply find_filter_other, Hne.
    + destruct (String.eqb k k0); [reflexivity | exact IH].
Qed.

(** Setting a header and reading it back, whatever the case of the names. *)
Lemma get_set_header (name name' value : string) (hs : headers) :
  get_header name (set_header name' value hs) =
  if String.eqb (lower name) (lower name') then Some value else get_header name hs.
Proof.
  unfold get_header, set_header.
  destruct (String.eqb_spec (lower name) (lower name')) as [->|Hne].
  - rewrite find_replace_same. reflexivity.
  - rewrite find_replace_other by exact Hne. reflexivity.
Qed.

Definition bypassed (settings : Settings) : bool :=
  is_development settings && debug settings.

(** X15: a request without client address is counted under the identifier
    ["unknown"], also when it carries a user id: outside the development
    bypass its call leaves the entries of every other identifier, the
    user's own included, as they were. *)
Theorem missing_client_shares_bucket (settings : Settings) (c : client)
    (now reset_now : Z) (request : Request) (call_next : Request -> Response) :
  bypassed settings = false ->
  client_host request = None ->
  (rate_limit_middleware settings (Some c) now reset_now request call_next).2
    = (is_allowed (global_limiter settings) (Some c) now "unknown").2 /\
  forall c' other,
    (rate_limit_middleware settings (Some c) now reset_now request call_next).2
      = Some c' ->
    other <> "unknown" ->
    entries other c' = entries other c.
Proof.
  intros Hbypass Hclient. unfold rate_limit_middleware, identifier_of.
  fold (bypassed settings). rewrite Hbypass, Hclient.
  destruct (is_allowed (global_limiter settings) (Some c) now "unknown")
    as [[allowed remaining] redis'] eqn:Hcall.
  assert (Hsnd : (if negb allowed
                  then (too_many_requests settings reset_now, redis')
                  else (mkResponse (status_code (call_next request))
                          (set_header "X-RateLimit-Remaining" (pretty remaining)
                             (set_header "X-RateLimit-Limit"
                                (pretty (rate_limit_requests settings))
                                (raw_headers (call_next request))))
                          (response_body (call_next request)), redis')).2 = redis')
    by (destruct allowed; reflexivity).
  cbv zeta. rewrite Hsnd. split; [reflexivity|].
  intros c' other -> Hother.
  assert (Hkey : rate_key other <> rate_key "unknown")
    by (intros Heq; apply Hother, rate_key_inj, Heq).
  pose proof (f_equal snd Hcall) as Hc'. cbn [snd] in Hc'.
  unfold is_allowed in Hc'. rewrite check_runs in Hc'.
  unfold entries.
  assert (Hpurged : purged (global_limiter settings) now "unknown" (keys c) !! rate_key other
                    = keys c !! rate_key other) by (apply purged_other, Hkey).
  destruct (fault c ZREMRANGEBYSCORE); [injection Hc' as <-; reflexivity|].
  destruct (fault c ZCARD); [injection Hc' as <-; cbn [keys]; rewrite Hpurged; reflexivity|].
  destruct (_ >=? _)%Z; [injection Hc' as <-; cbn [keys]; rewrite Hpurged; reflexivity|].
  destruct (fault c ZADD); [injection Hc' as <-; cbn [keys]; rewrite Hpurged; reflexivity|].
  destruct (fault c EXPIRE); injection Hc' as <-; cbn [keys];
    rewrite lookup_insert_ne by congruence; rewrite Hpurged; reflexivity.
Qed.

Lemma allowed_remaining self (redis : option client) now identifier remaining redis' :
  is_allowed self redis now identifier = ((true, remaining), redis') ->
  (remaining <= requests_limit self)%Z /\
  ((0 <= requests_limit self)%Z -> (0 <= remaining)%Z).
Proof.
  intros Hcall. destruct redis as [c|].
  - pose proof (f_equal fst Hcall) as Hanswer. cbn [fst] in Hanswer.
    destruct (rate_limiter_more_facts.is_allowed_runs self c now identifier)
      as (c' & _ & [(Heq & _) | [(Heq & Hn & _) | (Heq & _)]]);
      change (is_allowed self (Some c) now identifier).1
        with (fst (is_allowed self (Some c) now identifier)) in Heq;
      rewrite Hanswer in Heq; try discriminate;
      injection Heq as ->; lia.
  - cbn in Hcall. injection Hcall as <- _. lia.
Qed.

(** X16: outside the development bypass the middleware either answers with
    its own 429 response, whatever the handler would have returned, or
    passes the handler's response on with its status, its body and all its
    other headers as they were, the limit header set to the configured limit
    and the remaining header set to a number that is at most the limit and,
    for a limit that is not negative, not negative. *)
Theorem middleware_keeps_handler_response (settings : Settings)
    (redis : option client) (now reset_now : Z) (request : Request)
    (call_next : Request -> Response) :
  bypassed settings = false ->
  let answer :=
    (rate_limit_middleware settings redis now reset_now request call_next).1 in
  let handled := call_next request in
  answer = too_many_requests settings reset_now \/
  status_code answer = status_code handled /\
  response_body answer = response_body handled /\
  get_header "X-RateLimit-Limit" (raw_headers answer)
    = Some (pretty (rate_limit_requests settings)) /\
  (exists remaining : Z,
     get_header "X-RateLimit-Remaining" (raw_headers answer) = Some (pretty remaining) /\
     (remaining <= rate_limit_requests settings)%Z /\
     ((0 <= rate_limit_requests settings)%Z -> (0 <= remaining)%Z)) /\
  (forall name,
     lower name <> "x-ratelimit-limit" ->
     lower name <> "x-ratelimit-remaining" ->
     get_header name (raw_headers answer) = get_header name (raw_headers handled)).
Proof.
  intros Hbypass answer handled. subst answer handled.
  unfold rate_limit_middleware. fold (bypassed settings). rewrite Hbypass.
  destruct (is_allowed (global_limiter settings) redis now (identifier_of request))
    as [[allowed remaining] redis'] eqn:Hcall.
  destruct allowed; cbn [negb fst]; [right | left; reflexivity].
  cbn [status_code response_body raw_headers].
  split; [reflexivity|]. split; [reflexivity|]. split; [|split].
  - rewrite !get_set_header. reflexivity.
  - exists remaining. split; [rewrite get_set_header; reflexivity|].
    apply (allowed_remaining _ _ _ _ _ _ Hcall).
  - intros name Hlimit Hremaining. rewrite !get_set_header.
    change (lower "X-RateLimit-Remaining") with "x-ratelimit-remaining".
    change (lower "X-RateLimit-Limit") with "x-ratelimit-limit".
    destruct (String.eqb_spec (lower name) "x-ratelimit-remaining"); [contradiction|].
    destruct (String.eqb_spec (lower name) "x-ratelimit-limit"); [contradiction|].
    reflexivity.
Qed.

(** X17: on a store that answers every command, outside the development
    bypass: once the entries of the caller within the window have reached
    the limit, the answer is the 429 response, with a retry header of the
    window length and no entry recorded, and the handler's response plays
    no part; below the limit the handler's response is passed on with the
    remaining header counting the request itself, and for a positive window
    the request is recorded. *)
Theorem middleware_on_reachable_store (settings : Settings)
    (ks : gmap string zkey) (now reset_now : Z) (request : Request)
    (call_next : Request -> Response) :
  bypassed settings = false ->
  let self := global_limiter settings in
  let identifier := identifier_of request in
  let kept := survivors self now (entries identifier (reachable ks)) in
  let n := Z.of_nat (size kept) in
  let result :=
    rate_limit_middleware settings (Some (reachable ks)) now reset_now request call_next in
  ((rate_limit_requests settings <= n)%Z ->
     result.1 = too_many_requests settings reset_now /\
     get_header "Retry-After" (raw_headers result.1)
       = Some (pretty (rate_limit_window settings)) /\
     exists c', result.2 = Some c' /\ entries identifier c' = kept) /\
  ((n < rate_limit_requests settings)%Z ->
     status_code result.1 = status_code (call_next request) /\
     get_header "X-RateLimit-Remaining" (raw_headers result.1)
       = Some (pretty (rate_limit_requests settings - n - 1)%Z) /\
     ((0 < rate_limit_window settings)%Z ->
      exists c', result.2 = Some c' /\ entries identifier c' = {[now]} ∪ kept)).
Proof.
  intros Hbypass self identifier kept n result. subst result.
  unfold rate_limit_middleware. fold (bypassed settings). rewrite Hbypass.
  fold self identifier.
  unfold is_allowed. rewrite check_runs. rewrite entries_purged_client.
  fold kept n. cbn [fault reachable].
  change (requests_limit self) with (rate_limit_requests settings).
  split; intros Hn.
  - destruct (n >=? rate_limit_requests settings)%Z eqn:Hge; [|lia].
    cbn [negb fst snd]. split; [reflexivity|]. split; [reflexivity|].
    eexists. split; [reflexivity|]. apply entries_purged_client.
  - destruct (n >=? rate_limit_requests settings)%Z eqn:Hge; [lia|].
    cbn [negb fst snd status_code raw_headers]. split; [reflexivity|].
    split; [rewrite get_set_header; reflexivity|].
    intros Hwindow. eexists. split; [reflexivity|].
    unfold entries. cbn [keys]. rewrite lookup_insert_eq. reflexivity.
Qed.

(** *** Concrete requests *)

Definition settings_demo : Settings := mkSettings "production" false 10 60.

(** A request of a signed-in user that reaches the application without a
    client address. *)
Definition request_demo : Request := mkRequest (Some "alice") None.

Definition handler_demo (request : Request) : Response :=
  mkResponse 200 [("content-type", "application/json")] (Raw "done").

(** The theorem on that request: it is counted under ["unknown"]. *)
Lemma missing_client_shares_bucket_demo :
  (rate_limit_middleware settings_demo (Some (reachable store_demo)) 150 150
     request_demo handler_demo).2
    = (is_allowed (global_limiter settings_demo) (Some (reachable store_demo)) 150
         "unknown").2 /\
  forall c' other,
    (rate_limit_middleware settings_demo (Some (reachable store_demo)) 150 150
       request_demo handler_demo).2 = Some c' ->
    other <> "unknown" ->
    entries other c' = entries other (reachable store_demo).
Proof.
  exact (missing_client_shares_bucket settings_demo (reachable store_demo) 150 150
           request_demo handler_demo eq_refl eq_refl).
Defined.

(** The theorem on a request that is let through. *)
Lemma middleware_keeps_handler_response_demo :
  let answer :=
    (rate_limit_middleware settings_demo (Some (reachable store_demo)) 150 150
       request_demo handler_demo).1 in
  status_code answer = 200%Z /\
  get_header "X-RateLimit-Limit" (raw_headers answer) = Some "10" /\
  get_header "Content-Type" (raw_headers answer) = Some "application/json".
Proof.
  intros answer.
  destruct (middleware_keeps_handler_response settings_demo
              (Some (reachable store_demo)) 150 150 request_demo handler_demo eq_refl)
    as [Hdenied | (Hstatus & _ & Hlimit & _ & Hothers)].
  - vm_compute in Hdenied. discriminate.
  - split; [exact Hstatus|]. split; [exact Hlimit|].
    exact (Hothers "Content-Type" ltac:(vm_compute; discriminate)
             ltac:(vm_compute; discriminate)).
Defined.

(** A caller with a client address and ten entries in the window. *)
Definition request_alice : Request := mkRequest (Some "alice") (Some "10.0.0.7").

(** The theorem on the eleventh request, answered 429 whatever the
    handler, and on a sixth request, which is let through and recorded. *)
Lemma middleware_on_reachable_store_demo :
  let denied :=
    rate_limit_middleware settings_demo (Some (reachable store_full)) 110 110
      request_alice handler_demo in
  let passed :=
    rate_limit_middleware settings_demo (Some (reachable store_demo)) 150 150
      request_alice handler_demo in
  denied.1 = too_many_requests settings_demo 110 /\
  get_header "Retry-After" (raw_headers denied.1) = Some "60" /\
  get_header "X-RateLimit-Remaining" (raw_headers passed.1) = Some "4" /\
  exists c', passed.2 = Some c' /\ (150%Z ∈ entries "alice" c').
Proof.
  intros denied passed.
  destruct (middleware_on_reachable_store settings_demo store_full 110 110
              request_alice handler_demo eq_refl) as [Hfull _].
  destruct Hfull as (Hanswer & Hretry & _); [vm_compute; discriminate|].
  destruct (middleware_on_reachable_store settings_demo store_demo 150 150
              request_alice handler_demo eq_refl) as [_ Hbelow].
  destruct Hbelow as (_ & Hremaining & Hrecorded); [vm_compute; reflexivity|].
  destruct (Hrecorded eq_refl) as (c' & Hafter & Hentries).
  split; [exact Hanswer|]. split; [exact Hretry|]. split; [exact Hremaining|].
  exists c'. split; [exact Hafter|].
  change (identifier_of request_alice) with "alice" in Hentries.
  rewrite Hentries. apply elem_of_union_l, elem_of_singleton. reflexivity.
Defined.

End middleware_facts.

(** ** The cache and the job endpoints *)

Module cache_facts.
Import llm_adapter cache.

(** No [":"] in the string. *)
Fixpoint colon_free (s : string) : bool :=
  match s with
  | EmptyString => true
  | String c s' => negb (Ascii.eqb c ":") && colon_free s'
  end.

Lemma append_nil s : EmptyString ++ s = s.
Proof. reflexivity. Qed.

Lemma append_assoc a b c : (a ++ b) ++ c = a ++ (b ++ c).
Proof.
  induction a as [|d a IH]; [reflexivity|].
  rewrite !extraction_facts.append_cons, IH. reflexivity.
Qed.

Lemma append_cancel a b c : a ++ b = a ++ c -> b = c.
Proof.
  induction a as [|d a IH]; [intros H; exact H|].
  rewrite !extraction_facts.append_cons. intros H. injection H as H. exact (IH H).
Qed.

Lemma separator_splits a b r r' :
  colon_free a = true -> colon_free b = true ->
  a ++ ":" ++ r = b ++ ":" ++ r' -> a = b /\ r = r'.
Proof.
  revert b. induction a as [|c a IH]; intros [|d b] Ha Hb Heq.
  - rewrite !append_nil, !extraction_facts.append_cons, !append_nil in Heq.
    injection Heq as ->. split; reflexivity.
  - rewrite !append_nil, !extraction_facts.append_cons in Heq. injection Heq as <- _.
    cbn in Hb. discriminate.
  - rewrite !append_nil, !extraction_facts.append_cons in Heq. injection Heq as -> _.
    cbn in Ha. discriminate.
  - rewrite !(extraction_facts.append_cons c), !(extraction_facts.append_cons d) in Heq. injection Heq as -> Heq.
    cbn in Ha, Hb. apply andb_true_iff in Ha as [_ Ha]. apply andb_true_iff in Hb as [_ Hb].
    destruct (IH b Ha Hb Heq) as [-> ->]. split; reflexivity.
Qed.

Lemma separator_absent a b r :
  colon_free b = true -> a ++ ":" ++ r = b -> False.
Proof.
  revert b. induction a as [|c a IH]; intros [|d b] Hb Heq.
  - rewrite append_nil, extraction_facts.append_cons in Heq. discriminate.
  - rewrite append_nil, extraction_facts.append_cons in Heq. injection Heq as <- _.
    cbn in Hb. discriminate.
  - rewrite extraction_facts.append_cons in Heq. discriminate.
  - rewrite extraction_facts.append_cons in Heq. injection Heq as -> Heq.
    cbn in Hb. apply andb_true_iff in Hb as [_ Hb]. exact (IH b Hb Heq).
Qed.

Lemma generate_key_cons prefix x args :
  generate_key prefix (x :: args) = prefix ++ ":" ++ generate_key x args.
Proof. reflexivity. Qed.

(** X18: keys built from components without [":"] are distinct for distinct
    components: equal keys have the same prefix and the same arguments. *)
Theorem generate_key_injective (prefix prefix' : string) (args args' : list string) :
  Forall (fun s => colon_free s = true) (prefix :: args) ->
  Forall (fun s => colon_free s = true) (prefix' :: args') ->
  generate_key prefix args = generate_key prefix' args' ->
  prefix = prefix' /\ args = args'.
Proof.
  revert prefix prefix' args'.
  induction args as [|x args IH]; intros p q [|y args'] Hp Hq Heq.
  - split; [exact Heq | reflexivity].
  - rewrite generate_key_cons in Heq. exfalso.
    apply (separator_absent q p (generate_key y args')); [|symmetry; exact Heq].
    inversion Hp; assumption.
  - rewrite generate_key_cons in Heq. exfalso.
    apply (separator_absent p q (generate_key x args)); [|exact Heq].
    inversion Hq; assumption.
  - rewrite !generate_key_cons in Heq.
    inversion Hp as [|? ? Hp0 Hp1]; subst. inversion Hq as [|? ? Hq0 Hq1]; subst.
    apply separator_splits in Heq as [-> Heq]; [|assumption|assumption].
    destruct (IH x y args' Hp1 Hq1 Heq) as [-> ->]. split; reflexivity.
Qed.

(** X19: a key used as the prefix of a further key gives the key of the
    joined components, so that components with [":"] in them can share a
    key. *)
Theorem generate_key_flattens (prefix : string) (args more : list string) :
  generate_key (generate_key prefix args) more = generate_key prefix (app args more).
Proof.
  revert prefix. induction args as [|x args IH]; intros p; [reflexivity|].
  cbn [app]. rewrite !generate_key_cons.
  destruct more as [|y more].
  - rewrite app_nil_r. reflexivity.
  - rewrite (generate_key_cons (p ++ ":" ++ generate_key x args)).
    rewrite <- IH. rewrite generate_key_cons.
    rewrite !append_assoc. reflexivity.
Qed.

Section Codec.
Variable dumps : json -> string.
Variable loads : string -> outcome json.
Variable sha256_hexdigest : string -> string.

Lemma set_on_reachable (m : gmap string entry) now key v ttl :
  (0 < int_or ttl default_ttl)%Z ->
  set dumps (Some (reachable m)) now key v ttl
  = (true, Some (reachable (<[key := Entry (dumps v) (now + int_or ttl default_ttl)]> m))).
Proof.
  intros Hpos. unfold set, setex. cbn [fault reachable strings].
  destruct (int_or ttl default_ttl <=? 0)%Z eqn:Hle; [lia | reflexivity].
Qed.

Lemma get_recorded (m : gmap string entry) key s expiry v t :
  s <> "" -> loads s = Returns v ->
  get loads (Some (reachable (<[key := Entry s expiry]> m))) t key
  = if (t <? expiry)%Z then v else JNull.
Proof.
  intros Hs Hv. unfold get, live. cbn [fault reachable strings expires_at value].
  rewrite lookup_insert_eq. cbn [expires_at value].
  destruct (t <? expiry)%Z; [|reflexivity].
  destruct (String.eqb_spec s ""); [contradiction|]. cbn [negb]. rewrite Hv. reflexivity.
Qed.

Lemma get_other (m : gmap string entry) key key' e t :
  key' <> key ->
  get loads (Some (reachable (<[key := e]> m))) t key'
  = get loads (Some (reachable m)) t key'.
Proof.
  intros Hne. unfold get, live. cbn [fault reachable strings].
  rewrite lookup_insert_ne by congruence. reflexivity.
Qed.

(** X20: on a store that answers every command, a value stored with
    [CacheManager.set] is what [CacheManager.get] returns for that key until
    the TTL has passed, and nothing afterwards, the TTL being the default
    of 3600 seconds when none or 0 is given; the other keys are untouched. *)
Theorem cached_value_lives_for_ttl (m : gmap string entry) (now : Z)
    (key : string) (v : json) (ttl : option Z) :
  let seconds := int_or ttl 3600 in
  (0 < seconds)%Z ->
  dumps v <> "" ->
  loads (dumps v) = Returns v ->
  exists c',
    set dumps (Some (reachable m)) now key v ttl = (true, Some c') /\
    (forall t, (t < now + seconds)%Z -> get loads (Some c') t key = v) /\
    (forall t, (now + seconds <= t)%Z -> get loads (Some c') t key = JNull) /\
    (forall t key', key' <> key ->
       get loads (Some c') t key' = get loads (Some (reachable m)) t key').
Proof.
  intros seconds Hpos Hs Hv. eexists. split; [apply set_on_reachable; exact Hpos|].
  change (int_or ttl default_ttl) with seconds. split; [|split].
  - intros t Ht. rewrite (get_recorded _ _ _ _ v) by assumption.
    destruct (t <? now + seconds)%Z eqn:Hlt; [reflexivity | lia].
  - intros t Ht. rewrite (get_recorded _ _ _ _ v) by assumption.
    destruct (t <? now + seconds)%Z eqn:Hlt; [lia | reflexivity].
  - intros t key' Hne. apply get_other, Hne.
Qed.

Lemma llm_key_inj prompt prompt' model :
  llm_key sha256_hexdigest prompt' model = llm_key sha256_hexdigest prompt model ->
  hash_prompt sha256_hexdigest prompt' model = hash_prompt sha256_hexdigest prompt model.
Proof.
  unfold llm_key. rewrite !generate_key_cons. intros Heq.
  apply append_cancel in Heq. apply append_cancel in Heq.
  apply append_cancel in Heq. apply append_cancel in Heq. exact Heq.
Qed.

(** X21: on a store that answers every command, a response cached with
    [cache_llm_response] is what [get_cached_llm_response] returns for the
    same prompt and model until the TTL has passed, and also for any other
    prompt with the same 16-digit hash; prompts with another hash are
    answered as before. *)
Theorem cached_llm_response_round_trip (m : gmap string entry) (now : Z)
    (prompt model response : string) (ttl : Z) :
  let document := JObject [("response", JString response)] in
  let seconds := int_or (Some ttl) 3600 in
  (0 < seconds)%Z ->
  dumps document <> "" ->
  loads (dumps document) = Returns document ->
  exists c',
    cache_llm_response dumps sha256_hexdigest (Some (reachable m)) now prompt model
      response ttl = (true, Some c') /\
    forall t prompt',
      (hash_prompt sha256_hexdigest prompt' model
         = hash_prompt sha256_hexdigest prompt model ->
       (t < now + seconds)%Z ->
       get_cached_llm_response loads sha256_hexdigest (Some c') t prompt' model
         = Returns (JString response)) /\
      (hash_prompt sha256_hexdigest prompt' model
         <> hash_prompt sha256_hexdigest prompt model ->
       get_cached_llm_response loads sha256_hexdigest (Some c') t prompt' model
         = get_cached_llm_response loads sha256_hexdigest (Some (reachable m)) t
             prompt' model).
Proof.
  intros document seconds Hpos Hs Hv. eexists.
  split; [apply set_on_reachable; exact Hpos|].
  change (int_or (Some ttl) default_ttl) with seconds. fold document.
  intros t prompt'. split.
  - intros Hhash Ht. unfold get_cached_llm_response.
    assert (Hkey : llm_key sha256_hexdigest prompt' model
                   = llm_key sha256_hexdigest prompt model)
      by (unfold llm_key; rewrite Hhash; reflexivity).
    rewrite Hkey, (get_recorded _ _ _ _ document) by assumption.
    destruct (t <? now + seconds)%Z eqn:Hlt; [reflexivity | lia].
  - intros Hhash. unfold get_cached_llm_response.
    rewrite get_other; [reflexivity|].
    intros Hkey. apply Hhash, llm_key_inj, Hkey.
Qed.

End Codec.

(** *** Concrete calls *)

(** A codec for one document: it is written as ["7"]. *)
Definition dumps_demo (v : json) : string := "7".
Definition loads_demo (s : string) : outcome json :=
  if String.eqb s "7" then Returns (JNumber 7)
  else Raises (Exn "JSONDecodeError" "Expecting value").

(** The theorem on two keys of one job. *)
Lemma generate_key_injective_demo :
  generate_key "job" ["job-1"; "result"] = "job:job-1:result" /\
  forall prefix args,
    Forall (fun s => colon_free s = true) (prefix :: args) ->
    generate_key prefix args = generate_key "job" ["job-1"; "result"] ->
    prefix = "job" /\ args = ["job-1"; "result"].
Proof.
  split; [reflexivity|]. intros prefix args Hfree Heq.
  apply (generate_key_injective prefix "job" args ["job-1"; "result"] Hfree);
    [repeat constructor | exact Heq].
Defined.

(** The theorem on a value stored with a TTL of 0: it lives for an hour. *)
Lemma cached_value_lives_for_ttl_demo :
  exists c',
    set dumps_demo (Some (reachable ∅)) 1000 "job:job-1" (JNumber 7) (Some 0%Z)
      = (true, Some c') /\
    (forall t, (t < 1000 + 3600)%Z -> get loads_demo (Some c') t "job:job-1" = JNumber 7) /\
    (forall t, (1000 + 3600 <= t)%Z -> get loads_demo (Some c') t "job:job-1" = JNull) /\
    (forall t key', key' <> "job:job-1" ->
       get loads_demo (Some c') t key' = get loads_demo (Some (reachable ∅)) t key').
Proof.
  apply (cached_value_lives_for_ttl dumps_demo loads_demo ∅ 1000 "job:job-1"
           (JNumber 7) (Some 0%Z)).
  - vm_compute. reflexivity.
  - discriminate.
  - reflexivity.
Defined.

(** A codec for the document of one cached response. *)
Definition dumps_response (v : json) : string := "{response: hello}".
Definition loads_response (s : string) : outcome json :=
  Returns (JObject [("response", JString "hello")]).

(** The theorem on a cached response, with the identity in the place of the
    hash function. *)
Lemma cached_llm_response_round_trip_demo :
  exists c',
    cache_llm_response dumps_response (fun s => s) (Some (reachable ∅)) 1000
      "Say hello" "llama" "hello" 60 = (true, Some c') /\
    get_cached_llm_response loads_response (fun s => s) (Some c') 1059 "Say hello" "llama"
      = Returns (JString "hello").
Proof.
  destruct (cached_llm_response_round_trip dumps_response loads_response (fun s => s)
              ∅ 1000 "Say hello" "llama" "hello" 60)
    as (c' & Hset & Hget).
  - vm_compute. reflexivity.
  - discriminate.
  - reflexivity.
  - exists c'. split; [exact Hset|].
    apply (proj1 (Hget 1059%Z "Say hello")); [reflexivity | vm_compute; reflexivity].
Defined.

End cache_facts.

Module job_endpoint_facts.
Import jobs llm_adapter cache cache_facts job_endpoint.

Lemma row_ttl_of_member (s : JobStatus) :
  row_ttl (tasks.status_value s) = snapshot_ttl s.
Proof. destruct s; reflexivity. Qed.

Section Endpoint.
Variable dumps : json -> string.
Variable loads : string -> outcome json.
Context {R : Type}.
Variable JobResponse : json -> outcome R.

Lemma selected_row db job_id uid job :
  In job (select_job db job_id uid) -> id job = job_id /\ user_id job = uid.
Proof.
  unfold select_job. intros Hin. apply filter_In in Hin as [_ Hin].
  apply andb_true_iff in Hin as [Hid Huser].
  split; apply String.eqb_eq; assumption.
Qed.

Lemma cache_hit_owner cached uid :
  cache_hit cached uid = Returns true ->
  item cached "user_id" = Returns (JString uid).
Proof.
  unfold cache_hit. destruct (json_truthy cached); [|discriminate].
  destruct cached as [| | | | |fields]; cbn [dict_get and_then]; try discriminate.
  cbn [item]. destruct (List.find _ fields) as [[k v]|]; cbn [snd equals_str].
  - destruct v; cbn [equals_str]; try discriminate.
    intros Heq. injection Heq as Heq. apply String.eqb_eq in Heq. subst. reflexivity.
  - discriminate.
Qed.

(** Reading [status.value] of a loaded row raises, whatever the row. *)
Lemma response_data_raises (job : JobModel) : response_data job = Raises no_value.
Proof. reflexivity. Qed.

(** What the table branch of [get_job] does. *)
Definition from_table (db : list JobModel) (job_id uid : string) : outcome R :=
  match select_job db job_id uid with
  | [] => Raises not_found
  | [_] => Raises no_value
  | _ => Raises multiple_rows
  end.

(** X22: whatever the cache holds and whatever the rows of the table, a
    response that [get_job] returns is built from the dict that the cache
    holds under the key of the job, and the [user_id] of that dict is the
    id of the requesting user. *)
Theorem get_job_serves_the_owner (redis : option client) (now : Z)
    (db : list JobModel) (job_id uid : string) (r : R) :
  (get_job dumps loads JobResponse redis now db job_id uid).1 = Returns r ->
  let cached := get loads redis now (generate_key "job" [job_id]) in
  JobResponse cached = Returns r /\
  item cached "user_id" = Returns (JString uid).
Proof.
  unfold get_job.
  destruct (cache_hit _ uid) as [[|]|e] eqn:Hhit; cbn [fst].
  - intros Hr. split; [exact Hr|]. apply cache_hit_owner, Hhit.
  - destruct (select_job db job_id uid) as [|job [|job' rows]];
      cbn [scalar_one_or_none fst]; discriminate.
  - discriminate.
Qed.

(** X23: [get_job] never answers from the table and never writes the cache.
    The client of the cache is left as it was, and without a hit in the
    cache the call raises: the 404 answer when the table has no row of that
    id for the user, and [AttributeError] when it has one, since
    [job.status.value] is read on the [str] of the loaded row, before the
    TTL is chosen and before [cache_manager.set]. *)
Theorem get_job_raises_on_a_row (redis : option client) (now : Z)
    (db : list JobModel) (job_id uid : string) :
  (get_job dumps loads JobResponse redis now db job_id uid).2 = redis /\
  (cache_hit (get loads redis now (generate_key "job" [job_id])) uid = Returns false ->
   (get_job dumps loads JobResponse redis now db job_id uid).1
     = from_table db job_id uid).
Proof.
  unfold get_job, from_table.
  destruct (cache_hit _ uid) as [[|]|e]; cbn [snd].
  - split; [reflexivity | discriminate].
  - destruct (select_job db job_id uid) as [|job [|job' rows]];
      cbn [scalar_one_or_none]; rewrite ?response_data_raises;
      split; reflexivity.
  - split; [reflexivity | discriminate].
Qed.

Variable column_text : JobStatus -> string.
Variable duplicate_key : string -> string.

Lemma no_row_selected db job_id uid :
  existsb (fun j => String.eqb (id j) job_id) db = false ->
  select_job db job_id uid = [].
Proof.
  unfold select_job. induction db as [|j db IH]; [reflexivity|].
  cbn [existsb List.filter]. intros Hnone.
  apply orb_false_iff in Hnone as [Hj Hdb].
  rewrite Hj. cbn [andb]. exact (IH Hdb).
Qed.

(** X28: [create_job] never returns a response.  For a file of the
    requesting user and an id that the table does not hold yet, it commits
    the PENDING row of that user, without result and without error, and
    then raises [AttributeError], since [job.status.value] is read on the
    row that [db.refresh] has loaded; polled without a hit in the cache,
    [get_job] raises the same error for that user and answers 404 to every
    other user. *)
Theorem create_job_commits_then_raises (files : list FileModel)
    (db : list JobModel) (uuid4 now : string) (job_data : JobCreate) (uid : string) :
  let created :=
    create_job JobResponse column_text duplicate_key files db uuid4 now job_data uid in
  let row := new_row column_text uuid4 now job_data uid in
  (forall r, created.1 <> Returns r) /\
  (forall file,
     select_file files (create_file_id job_data) uid = [file] ->
     existsb (fun j => String.eqb (id j) uuid4) db = false ->
     created = (Raises no_value, app db [row]) /\
     from_table (app db [row]) uuid4 uid = Raises no_value /\
     forall u, u <> uid -> from_table (app db [row]) uuid4 u = Raises not_found).
Proof.
  intros created row. unfold created, create_job. fold row. split.
  - intros r.
    destruct (scalar_one_or_none (select_file files (create_file_id job_data) uid))
      as [[file|]|e]; cbn [fst]; try discriminate.
    destruct (existsb (fun j => String.eqb (id j) uuid4) db); cbn [fst]; discriminate.
  - intros file Hfile Hfresh. rewrite Hfile, Hfresh. cbn [scalar_one_or_none].
    rewrite response_data_raises. split; [reflexivity|].
    assert (Hrows : forall u,
              select_job (app db [row]) uuid4 u = if String.eqb uid u then [row] else []).
    { intros u. unfold select_job. rewrite List.filter_app.
      fold (select_job db uuid4 u). rewrite (no_row_selected db uuid4 u Hfresh).
      cbn [List.filter app id user_id row new_row]. rewrite String.eqb_refl. cbn [andb].
      destruct (String.eqb uid u); reflexivity. }
    split.
    + unfold from_table. rewrite Hrows, String.eqb_refl. reflexivity.
    + intros u Hu. unfold from_table. rewrite Hrows.
      destruct (String.eqb_spec uid u); [congruence | reflexivity].
Qed.

End Endpoint.

(** *** Concrete calls *)

Definition row_demo : JobModel :=
  mkJobModel "job-1" "user-1" "file-1" "processing" "analyze" (Some "plot it") None None
    "2025-01-01T00:00:00+00:00" "2025-01-01T00:00:05+00:00".

(** A snapshot of the job as another writer may have left it in the cache. *)
Definition snapshot_demo : json :=
  JObject
    [("job_id", JString "job-1"); ("user_id", JString "user-1");
     ("file_id", JString "file-1"); ("status", JString "processing");
     ("task", JString "analyze"); ("prompt", JString "plot it");
     ("result_url", JNull); ("error_message", JNull);
     ("created_at", JString "2025-01-01T00:00:00+00:00");
     ("updated_at", JString "2025-01-01T00:00:05+00:00")].

(** A codec for that snapshot. *)
Definition dumps_snapshot (v : json) : string := "{job_id: job-1}".
Definition loads_snapshot (s : string) : outcome json := Returns snapshot_demo.

(** A store that holds the snapshot until the time 2000. *)
Definition store_with_snapshot : gmap string entry :=
  {[ generate_key "job" ["job-1"] := Entry "{job_id: job-1}" 2000 ]}.

(** The response as the dict it is built from. *)
Definition response_of (kwargs : json) : outcome json := Returns kwargs.

Lemma cached_snapshot_demo :
  get loads_snapshot (Some (reachable store_with_snapshot)) 1000
    (generate_key "job" ["job-1"]) = snapshot_demo.
Proof. vm_compute. reflexivity. Qed.

(** The theorem on a poll by the owner that the cache answers. *)
Lemma get_job_serves_the_owner_demo :
  (get_job dumps_snapshot loads_snapshot response_of
     (Some (reachable store_with_snapshot)) 1000 [] "job-1" "user-1").1
    = Returns snapshot_demo /\
  item snapshot_demo "user_id" = Returns (JString "user-1").
Proof.
  assert (Hpoll : (get_job dumps_snapshot loads_snapshot response_of
                     (Some (reachable store_with_snapshot)) 1000 [] "job-1" "user-1").1
                  = Returns snapshot_demo) by (vm_compute; reflexivity).
  split; [exact Hpoll|].
  destruct (get_job_serves_the_owner dumps_snapshot loads_snapshot response_of
              (Some (reachable store_with_snapshot)) 1000 [] "job-1" "user-1"
              snapshot_demo Hpoll) as [_ Howner].
  rewrite cached_snapshot_demo in Howner. exact Howner.
Defined.

(** The theorem on a poll by the owner with the row in the table and
    nothing cached. *)
Lemma get_job_raises_on_a_row_demo :
  get_job dumps_snapshot loads_snapshot response_of None 1000 [row_demo] "job-1" "user-1"
  = (Raises no_value, None).
Proof.
  destruct (get_job_raises_on_a_row dumps_snapshot loads_snapshot response_of None 1000
              [row_demo] "job-1" "user-1") as [Hcache Hraise].
  apply injective_projections; [exact (Hraise eq_refl) | exact Hcache].
Defined.

(** The theorem on a job created for a file of ["user-1"]. *)
Lemma create_job_commits_then_raises_demo :
  create_job response_of tasks.status_value (fun key => key)
    [mkFileModel "file-1" "user-1"] [] "job-7" "2025-01-01T00:00:00+00:00"
    (mkJobCreate "file-1" "analyze" None) "user-1"
  = (Raises no_value,
     [mkJobModel "job-7" "user-1" "file-1" "pending" "analyze" None None None
        "2025-01-01T00:00:00+00:00" "2025-01-01T00:00:00+00:00"]).
Proof.
  destruct (create_job_commits_then_raises response_of tasks.status_value
              (fun key => key) [mkFileModel "file-1" "user-1"] [] "job-7"
              "2025-01-01T00:00:00+00:00" (mkJobCreate "file-1" "analyze" None)
              "user-1") as [_ Hcreated].
  destruct (Hcreated (mkFileModel "file-1" "user-1") eq_refl eq_refl) as [Hrun _].
  exact Hrun.
Defined.

End job_endpoint_facts.

(** ** The health of the adapters *)

Module llm_health_facts.
Import codegen_tool llm_adapter llm_adapter_facts llm_health.

Lemma rstrip_char_snoc ch s :
  rstrip_char ch (s ++ String ch EmptyString) = rstrip_char ch s.
Proof.
  induction s as [|c s IH].
  - change (EmptyString ++ String ch EmptyString) with (String ch EmptyString).
    cbn [rstrip_char]. rewrite Ascii.eqb_refl. reflexivity.
  - change (String c s ++ String ch EmptyString)
      with (String c (s ++ String ch EmptyString)).
    cbn [rstrip_char]. rewrite IH. reflexivity.
Qed.

Lemma rstrip_char_cons ch c s :
  rstrip_char ch (String c s)
  = match rstrip_char ch s with
    | EmptyString => if Ascii.eqb c ch then EmptyString else String c EmptyString
    | r => String c r
    end.
Proof. reflexivity. Qed.

(** The last character, if any. *)
Fixpoint last_char (s : string) : option ascii :=
  match s with
  | EmptyString => None
  | String c EmptyString => Some c
  | String _ s' => last_char s'
  end.

Lemma rstrip_char_last ch s : last_char (rstrip_char ch s) <> Some ch.
Proof.
  induction s as [|c s IH]; [discriminate|].
  rewrite rstrip_char_cons. destruct (rstrip_char ch s) as [|d r] eqn:Hr.
  - destruct (Ascii.eqb_spec c ch); [discriminate|]. cbn. congruence.
  - exact IH.
Qed.

(** X24: slashes at the end of a configured base URL make no difference:
    the adapter built from a URL with one more slash is the same adapter,
    and the base URL it keeps never ends with a slash, so that the endpoint
    path is joined by exactly one. *)
Theorem trailing_slash_ignored (base_url model api_token : string) :
  BaseLLMAdapter_init (base_url ++ "/") model api_token
    = BaseLLMAdapter_init base_url model api_token /\
  last_char (llm_adapter.base_url (BaseLLMAdapter_init base_url model api_token))
    <> Some "/"%char.
Proof.
  unfold BaseLLMAdapter_init. split.
  - rewrite rstrip_char_snoc. reflexivity.
  - apply rstrip_char_last.
Qed.

Lemma http_error_not_key e : is_http_error e = true -> is_key_error e = false.
Proof.
  unfold is_http_error, is_key_error.
  destruct (String.eqb_spec (exn_class e) "KeyError") as [->|]; [|reflexivity].
  vm_compute. discriminate.
Qed.

Lemma connection_failure_is_http e :
  is_connection_failure e = true -> is_http_error e = true.
Proof.
  unfold is_connection_failure, is_connect_error, is_timeout, is_http_error.
  cbn [existsb]. intros H.
  repeat (apply orb_true_iff in H as [H|H]; [rewrite H; rewrite ?orb_true_r; reflexivity|]).
  discriminate.
Qed.

Section Calls.
Variable post : string -> payload -> outcome response.
Variable self : adapter.

(** X25: the text-only call of the vision adapter answers like the text
    adapter, except when the response body lacks an expected key: the text
    adapter then raises a response error, the vision adapter the
    [KeyError] itself. *)
Theorem vision_generate_agrees_with_text (req : request) :
  let attempt := chat_completion post self (text_payload self req) in
  ((forall e, attempt = Raises e ->
      is_connection_failure e = true \/ is_key_error e = false) ->
   vision_generate post self req = text_generate post self req) /\
  (forall e, attempt = Raises e ->
     is_connection_failure e = false -> is_key_error e = true ->
     vision_generate post self req = Raises e /\
     exists e', text_generate post self req = Raises e' /\
       is_response_kind e' = true).
Proof.
  intros attempt. unfold vision_generate, text_generate. fold attempt. split.
  - intros Hkinds. destruct attempt as [v|e]; [reflexivity|].
    destruct (Hkinds e eq_refl) as [Hc|Hk].
    + destruct (handlers_connection self e Hc) as (e' & -> & _). reflexivity.
    + destruct (connection_handlers self e); [reflexivity|]. rewrite Hk. reflexivity.
  - intros e -> Hc Hk. rewrite (handlers_pass self e Hc), Hk.
    split; [reflexivity|]. eexists. split; reflexivity.
Qed.

(** What the endpoint answers to the health check of a text adapter. *)
Definition health_answer : outcome response :=
  post (endpoint self) (text_payload self health_request).

Lemma health_of_attempt :
  health_check (text_generate post self)
  = match chat_completion post self (text_payload self health_request) with
    | Returns response => and_then (len response) (fun n => Returns (0 <? n)%Z)
    | Raises e =>
        if is_connection_failure e || is_key_error e then Returns false
        else if is_adapter_error e || is_http_error e then Returns false
        else Raises e
    end.
Proof.
  unfold health_check, text_generate.
  destruct (chat_completion post self (text_payload self health_request)) as [v|e];
    [reflexivity|].
  destruct (is_connection_failure e) eqn:Hc.
  - destruct (handlers_connection self e Hc) as (e' & -> & Hkind).
    cbn [orb]. unfold is_connection_kind in Hkind. apply String.eqb_eq in Hkind.
    unfold is_adapter_error. rewrite Hkind. reflexivity.
  - rewrite (handlers_pass self e Hc). cbn [orb].
    destruct (is_key_error e); reflexivity.
Qed.

(** X26: the health check of a text adapter answers [False] when the request
    fails with an error of the HTTP client, when the status is not 200 and
    when the body lacks an expected key; for a body whose first choice has a
    string as content it answers whether that string is not empty; a
    failure of another kind in reading the body, such as an empty list of
    choices, is raised by the health check itself, and the health report
    then shows the first 50 characters of its text after ["error: "]. *)
Theorem health_check_verdicts :
  let health := health_check (text_generate post self) in
  (forall e, health_answer = Raises e -> is_http_error e = true ->
     health = Returns false) /\
  (forall r, health_answer = Returns r -> status_code r <> 200%Z ->
     health = Returns false) /\
  (forall r data, health_answer = Returns r -> status_code r = 200%Z ->
     json_of r = Returns data ->
     (forall e, first_choice_content data = Raises e -> is_key_error e = true ->
        health = Returns false) /\
     (forall s, first_choice_content data = Returns (JString s) ->
        health = Returns (negb (String.eqb s ""))) /\
     (forall e, first_choice_content data = Raises e ->
        is_key_error e = false -> is_http_error e = false ->
        is_adapter_error e = false ->
        health = Raises e /\
        probe health = "error: " ++ String.substring 0 50 (exn_str e))).
Proof.
  intros health. unfold health. rewrite health_of_attempt.
  unfold health_answer, chat_completion, and_then. fold (endpoint self).
  split; [|split].
  - intros e -> Hhttp. rewrite Hhttp, orb_true_r.
    destruct (is_connection_failure e || is_key_error e); reflexivity.
  - intros r -> Hstatus. destruct (Z.eqb_spec (status_code r) 200); [contradiction|].
    reflexivity.
  - intros r data -> Hstatus Hdata. rewrite Hstatus, Hdata. cbn [Z.eqb negb Pos.eqb].
    split; [|split].
    + intros e -> Hk. rewrite Hk, orb_true_r. reflexivity.
    + intros s ->. cbn [len]. f_equal.
      destruct s; reflexivity.
    + intros e -> Hk Hhttp Hadapter.
      assert (Hc : is_connection_failure e = false).
      { destruct (is_connection_failure e) eqn:Hc; [|reflexivity].
        rewrite (connection_failure_is_http e Hc) in Hhttp. discriminate. }
      rewrite Hc, Hk, Hhttp, Hadapter. split; reflexivity.
Qed.

End Calls.

(** *** Concrete endpoints *)

(** An endpoint that answers 200 with a body without choices. *)
Definition post_no_key (url : string) (p : payload) : outcome response :=
  Returns (Response 200 "{}" (Returns (JObject []))).

(** The theorem on that endpoint: the two adapters differ. *)
Lemma vision_generate_agrees_with_text_demo :
  vision_generate post_no_key adapter_demo request_demo
    = Raises (Exn "KeyError" "'choices'") /\
  exists e',
    text_generate post_no_key adapter_demo request_demo = Raises e' /\
    is_response_kind e' = true.
Proof.
  destruct (vision_generate_agrees_with_text post_no_key adapter_demo request_demo)
    as [_ Hkey].
  exact (Hkey (Exn "KeyError" "'choices'") eq_refl eq_refl eq_refl).
Defined.

(** The theorem on an endpoint that rejects the request, and on one that
    answers with an empty list of choices. *)
Lemma health_check_verdicts_demo :
  health_check (text_generate post_rejecting adapter_demo) = Returns false /\
  probe (health_check (text_generate post_no_choice adapter_demo))
    = "error: list index out of range".
Proof.
  split.
  - destruct (health_check_verdicts post_rejecting adapter_demo) as (_ & Hstatus & _).
    apply (Hstatus (Response 500 "overloaded"
                      (Raises (Exn "JSONDecodeError" "Expecting value"))));
      [reflexivity | discriminate].
  - destruct (health_check_verdicts post_no_choice adapter_demo) as (_ & _ & Hbody).
    destruct (Hbody (Response 200 "{}" (Returns (JObject [("choices", JArray [])])))
                (JObject [("choices", JArray [])]) eq_refl eq_refl eq_refl)
      as (_ & _ & Hother).
    destruct (Hother (Exn "IndexError" "list index out of range")
                eq_refl eq_refl eq_refl eq_refl) as [_ Hprobe].
    exact Hprobe.
Defined.

End llm_health_facts.

(** ** Extraction of the generated code *)

Module extraction_more_facts.
Import re fences codegen_tool extraction_facts.

Lemma cut_cons_inv needle s b x after :
  cut needle s = Some (String b x, after) ->
  exists s', s = String b s' /\ cut needle s' = Some (x, after).
Proof.
  destruct s as [|c s]; cbn [cut].
  - destruct (starts_with needle EmptyString); discriminate.
  - destruct (starts_with needle (String c s)); [discriminate|].
    destruct (cut needle s) as [[before after']|] eqn:Hcut; [|discriminate].
    intros [= -> -> ->]. exists s. split; [reflexivity | exact Hcut].
Qed.

Lemma starts_with_before p : forall x s after r,
  cut fence s = Some (x, after) -> starts_with p x = Some r ->
  exists r', starts_with p s = Some r'.
Proof.
  induction p as [|a p IH]; intros x s after r Hcut Hstart; [cbn; eauto|].
  destruct x as [|b x]; [discriminate|]. cbn [starts_with] in Hstart.
  destruct (Ascii.eqb a b) eqn:Hab; [|discriminate].
  destruct (cut_cons_inv _ _ _ _ _ Hcut) as (s' & -> & Hcut').
  cbn [starts_with]. rewrite Hab. exact (IH _ _ _ _ Hcut' Hstart).
Qed.

(** The text before the first fence holds no fence. *)
Lemma cut_before_free : forall s before after,
  cut fence s = Some (before, after) -> cut fence before = None.
Proof.
  induction s as [|c s IH]; intros before after; cbn [cut].
  - cbn. discriminate.
  - destruct (starts_with fence (String c s)) as [rest|] eqn:Hstart.
    + intros [= <- _]. reflexivity.
    + destruct (cut fence s) as [[b' after']|] eqn:Hcut; [|discriminate].
      intros [= <- <-]. cbn [cut].
      destruct (starts_with fence (String c b')) as [r|] eqn:Hb.
      * assert (Hcut' : cut fence (String c s) = Some (String c b', after')).
        { cbn [cut]. rewrite Hstart, Hcut. reflexivity. }
        destruct (starts_with_before _ _ _ _ _ Hcut' Hb) as (r' & Hr').
        congruence.
      * rewrite (IH b' after' eq_refl). reflexivity.
Qed.

Lemma starts_with_app p : forall x y r,
  starts_with p x = Some r -> starts_with p (x ++ y) = Some (r ++ y).
Proof.
  induction p as [|a p IH]; intros x y r; cbn [starts_with].
  - intros [= ->]. reflexivity.
  - destruct x as [|b x]; [discriminate|]. rewrite append_cons. cbn [starts_with].
    destruct (Ascii.eqb a b); [apply IH | discriminate].
Qed.

Lemma cut_none_prefix x y : cut fence (x ++ y) = None -> cut fence x = None.
Proof.
  induction x as [|c x IH]; [reflexivity|].
  rewrite append_cons. cbn [cut].
  destruct (starts_with fence (String c (x ++ y))) eqn:Hstart; [discriminate|].
  destruct (cut fence (x ++ y)) as [[? ?]|] eqn:Hcut; [discriminate|]. intros _.
  destruct (starts_with fence (String c x)) as [r|] eqn:Hx.
  - apply (starts_with_app _ _ y) in Hx. rewrite append_cons in Hx. congruence.
  - rewrite (IH eq_refl). reflexivity.
Qed.

Lemma rstrip_prefix s : exists y, s = rstrip s ++ y.
Proof.
  induction s as [|c s [y IH]]; [exists EmptyString; reflexivity|].
  rewrite rstrip_cons. destruct (rstrip s) as [|d r].
  - destruct (isspace c); [exists (String c s); reflexivity|].
    exists s. reflexivity.
  - exists y. rewrite append_cons. f_equal. exact IH.
Qed.

Lemma lstrip_free s : cut fence s = None -> cut fence (lstrip s) = None.
Proof.
  induction s as [|c s IH]; [reflexivity|]. intros Hfree. cbn [lstrip].
  destruct (isspace c); [apply IH, (cut_none_tail c), Hfree | exact Hfree].
Qed.

Lemma strip_free s : cut fence s = None -> cut fence (strip s) = None.
Proof.
  intros Hfree. unfold strip. apply lstrip_free in Hfree.
  destruct (rstrip_prefix (lstrip s)) as [y Hy]. rewrite Hy in Hfree.
  exact (cut_none_prefix _ _ Hfree).
Qed.

Lemma between_free opening text inner :
  between opening text = Some inner -> cut fence inner = None.
Proof.
  unfold between. destruct (cut opening text) as [[? rest]|]; [|discriminate].
  destruct (cut fence rest) as [[inner' after]|] eqn:Hcut; [|discriminate].
  intros [= <-]. exact (cut_before_free _ _ _ Hcut).
Qed.

(** X27: when the text has a fence and another fence after it, the
    extracted code holds no fence. *)
Theorem extracted_block_has_no_fence (text : string) :
  between fence text <> None ->
  cut fence (extract_python_code text) = None.
Proof.
  intros Hblock. unfold extract_python_code, findall.
  destruct patterns_compiled as [-> ->].
  pose proof (first_match_between "`" "``python" text) as Hpy.
  pose proof (first_match_between "`" "``" text) as Hany.
  change (app (lits "```python") block_body) with python_block in Hpy.
  change (app (lits "```") block_body) with generic_block in Hany.
  change (String "`" "``python") with python_fence in Hpy.
  change (String "`" "``") with fence in Hany.
  destruct (findall_regex python_block text) as [|m ms].
  - destruct (findall_regex generic_block text) as [|m ms].
    + destruct (between fence text); [discriminate | contradiction].
    + destruct (between fence text) as [inner|] eqn:Hinner; [|discriminate].
      cbn in Hany. injection Hany as ->.
      apply strip_free, (between_free fence text), Hinner.
  - destruct (between python_fence text) as [inner|] eqn:Hinner; [|discriminate].
    cbn in Hpy. injection Hpy as ->.
    apply strip_free, (between_free python_fence text), Hinner.
Qed.

(** The theorem on a response with one block. *)
Lemma extracted_block_has_no_fence_demo :
  extract_python_code tasks_facts.valid_response = "print(1)" /\
  cut fence (extract_python_code tasks_facts.valid_response) = None.
Proof.
  split; [vm_compute; reflexivity|].
  apply (extracted_block_has_no_fence tasks_facts.valid_response).
  vm_compute. discriminate.
Defined.

End extraction_more_facts.
